(** * multicam_common: message types, status classification and constants

    A shallow embedding of the Python package [multicam_common]
    (commands.py, status.py, constants.py) together with the part of the
    Python runtime the package leans on: dynamically typed values, the
    [json] module's [dumps] and [loads], [str.lower], and [time.time]. *)

From Stdlib Require Import ZArith NArith List String Ascii Bool Lia QArith.
From Stdlib Require Import Decimal DecimalFacts DecimalN DecimalZ.
Import ListNotations.

Local Open Scope Z_scope.

(** ** Python values *)

Module Py.

(** A decimal digit. *)
Inductive digit : Type :=
| d0 | d1 | d2 | d3 | d4 | d5 | d6 | d7 | d8 | d9.

Definition digit_eqb (a b : digit) : bool :=
  match a, b with
  | d0, d0 | d1, d1 | d2, d2 | d3, d3 | d4, d4
  | d5, d5 | d6, d6 | d7, d7 | d8, d8 | d9, d9 => true
  | _, _ => false
  end.

Definition digit_val (d : digit) : Z :=
  match d with
  | d0 => 0 | d1 => 1 | d2 => 2 | d3 => 3 | d4 => 4
  | d5 => 5 | d6 => 6 | d7 => 7 | d8 => 8 | d9 => 9
  end.

Definition is_d0 (d : digit) : bool :=
  match d with d0 => true | _ => false end.

(** A Python [float].  A finite float is identified by what
    [float.__repr__] prints for it, the shortest decimal that reads back
    to the same double: its sign, its significant digits [d1 d2 ... dn]
    and the position [decpt] of the decimal point, for the number
    [0.d1 d2 ... dn * 10^decpt].  Zero has no digits.  Rounding to a
    double is not part of the model: no function of the package does
    arithmetic on a float. *)
Inductive pyfloat : Type :=
| FFinite (neg : bool) (ds : list digit) (decpt : Z)
| FInf (neg : bool)
| FNaN.

(** The representation invariant of a finite float: no leading and no
    trailing zero among the digits, and [decpt = 0] for zero. *)
Definition float_ok (f : pyfloat) : bool :=
  match f with
  | FFinite _ [] e => e =? 0
  | FFinite _ (d :: ds) _ => negb (is_d0 d) && negb (is_d0 (last ds d))
  | _ => true
  end.

(** The value of a digit string read as a natural number. *)
Definition digits_val (ds : list digit) : Z :=
  fold_left (fun acc d => 10 * acc + digit_val d) ds 0.

(** The rational a finite float stands for. *)
Definition float_to_Q (f : pyfloat) : option Q :=
  match f with
  | FFinite neg ds e =>
      let m := inject_Z (if neg then - digits_val ds else digits_val ds) in
      Some (m * Qpower (inject_Z 10) (e - Z.of_nat (List.length ds)))%Q
  | _ => None
  end.

(** [bool(x)] of a float: false for both zeros, true otherwise (a NaN is
    true). *)
Definition float_truthy (f : pyfloat) : bool :=
  match f with
  | FFinite _ ds _ => negb (forallb is_d0 ds)
  | _ => true
  end.

(** [x == y] on floats: IEEE comparison, a NaN equals nothing. *)
Definition float_eqb (x y : pyfloat) : bool :=
  match x, y with
  | FNaN, _ | _, FNaN => false
  | FInf a, FInf b => Bool.eqb a b
  | FInf _, _ | _, FInf _ => false
  | FFinite _ _ _, FFinite _ _ _ =>
      match float_to_Q x, float_to_Q y with
      | Some p, Some q => Qeq_bool p q
      | _, _ => false
      end
  end.

Definition is_nan (f : pyfloat) : bool :=
  match f with FNaN => true | _ => false end.

(** The Python objects that [json.loads] can return and [json.dumps]
    accepts.  A [dict] keeps its keys in insertion order.  A [str] is a
    [string] whose characters are the code points 0 to 255. *)
#[local] Unset Elimination Schemes.
Inductive value : Type :=
| VNone
| VBool (b : bool)
| VInt (z : Z)
| VFloat (f : pyfloat)
| VStr (s : string)
| VList (l : list value)
| VDict (d : list (string * value)).
#[local] Set Elimination Schemes.

(** Induction on values, with the property at hand for every element
    of a list and every entry of a dict. *)
Section ValueInduction.

Variable P : value -> Prop.
Hypothesis HNone : P VNone.
Hypothesis HBool : forall b, P (VBool b).
Hypothesis HInt : forall z, P (VInt z).
Hypothesis HFloat : forall f, P (VFloat f).
Hypothesis HStr : forall s, P (VStr s).
Hypothesis HList : forall l, Forall P l -> P (VList l).
Hypothesis HDict : forall d, Forall (fun kv => P (snd kv)) d -> P (VDict d).

Fixpoint value_ind' (v : value) : P v :=
  match v with
  | VNone => HNone
  | VBool b => HBool b
  | VInt z => HInt z
  | VFloat f => HFloat f
  | VStr s => HStr s
  | VList l =>
      HList l
        ((fix elements (l : list value) : Forall P l :=
            match l with
            | [] => Forall_nil P
            | x :: r => Forall_cons x (value_ind' x) (elements r)
            end) l)
  | VDict d =>
      HDict d
        ((fix members (d : list (string * value))
            : Forall (fun kv => P (snd kv)) d :=
            match d with
            | [] => Forall_nil _
            | kv :: r => Forall_cons kv (value_ind' (snd kv)) (members r)
            end) d)
  end.

End ValueInduction.

(** The exceptions the package's functions can raise. *)
Inductive exn : Type :=
| JSONDecodeError
| KeyError (key : string)
| ValueError
| TypeError
| AttributeError.

(** A computation that returns or raises. *)
Inductive result (A : Type) : Type :=
| Ok (a : A)
| Raise (e : exn).

Arguments Ok {A} a.
Arguments Raise {A} e.

Definition bind {A B : Type} (m : result A) (k : A -> result B) : result B :=
  match m with
  | Ok a => k a
  | Raise e => Raise e
  end.

Definition is_ok {A : Type} (m : result A) : bool :=
  match m with Ok _ => true | Raise _ => false end.

(** Each element through [f], left to right, stopping at the first that
    raises: a list comprehension. *)
Fixpoint mapM {A B : Type} (f : A -> result B) (l : list A) : result (list B) :=
  match l with
  | [] => Ok []
  | a :: r =>
      match f a with
      | Raise e => Raise e
      | Ok b =>
          match mapM f r with
          | Raise e => Raise e
          | Ok bs => Ok (b :: bs)
          end
      end
  end.

(** The entry of a dict under a key. *)
Fixpoint lookup (k : string) (d : list (string * value)) : option value :=
  match d with
  | [] => None
  | (k', v) :: r => if String.eqb k k' then Some v else lookup k r
  end.

(** [data[key]] for a string key. *)
Definition subscript (data : value) (key : string) : result value :=
  match data with
  | VDict d =>
      match lookup key d with
      | Some v => Ok v
      | None => Raise (KeyError key)
      end
  | _ => Raise TypeError
  end.

(** The entry under a key, or a default. *)
Definition lookup_default (k : string) (d : list (string * value)) (default : value)
  : value :=
  match lookup k d with
  | Some v => v
  | None => default
  end.

(** [data.get(key, default)]; only a dict has [get]. *)
Definition dict_get (data : value) (key : string) (default : value) : result value :=
  match data with
  | VDict d => Ok (lookup_default key d default)
  | _ => Raise AttributeError
  end.

(** The items [for item in v] runs over: the elements of a list, the
    keys of a dict, the characters of a str. *)
Definition iterate (v : value) : result (list value) :=
  match v with
  | VList l => Ok l
  | VDict d => Ok (map (fun kv => VStr (fst kv)) d)
  | VStr s => Ok (map (fun c => VStr (String c EmptyString)) (list_ascii_of_string s))
  | _ => Raise TypeError
  end.

(** [bool(v)]. *)
Definition truthy (v : value) : bool :=
  match v with
  | VNone => false
  | VBool b => b
  | VInt z => negb (z =? 0)
  | VFloat f => float_truthy f
  | VStr s => negb (String.eqb s EmptyString)
  | VList l => match l with [] => false | _ => true end
  | VDict d => match d with [] => false | _ => true end
  end.

(** A number as [==] sees it: a bool counts as 0 or 1. *)
Definition number (v : value) : option (Z + pyfloat) :=
  match v with
  | VBool b => Some (inl (if b then 1 else 0))
  | VInt z => Some (inl z)
  | VFloat f => Some (inr f)
  | _ => None
  end.

(** [z == f] for an int and a float, read off the digits of the
    float's [repr]: exact where those digits are the float's value, as
    for every whole number up to 2**53; beyond that Python compares
    with the double's exact value, which the digits no longer give. *)
Definition int_float_eqb (z : Z) (f : pyfloat) : bool :=
  match float_to_Q f with
  | Some q => Qeq_bool (inject_Z z) q
  | None => false
  end.

Definition number_eqb (x y : Z + pyfloat) : bool :=
  match x, y with
  | inl a, inl b => a =? b
  | inl a, inr f => int_float_eqb a f
  | inr f, inl b => int_float_eqb b f
  | inr f, inr g => float_eqb f g
  end.

(** [a == b]. *)
Fixpoint value_eqb (a b : value) {struct a} : bool :=
  match a, b with
  | VNone, VNone => true
  | VStr s, VStr t => String.eqb s t
  | VList l, VList m =>
      (fix all2 (l m : list value) : bool :=
         match l, m with
         | [], [] => true
         | x :: l', y :: m' => value_eqb x y && all2 l' m'
         | _, _ => false
         end) l m
  | VDict d, VDict e =>
      Nat.eqb (List.length d) (List.length e) &&
      (fix sub (d : list (string * value)) : bool :=
         match d with
         | [] => true
         | (k, v) :: d' =>
             match lookup k e with
             | Some w => value_eqb v w
             | None => false
             end && sub d'
         end) d
  | _, _ =>
      match number a, number b with
      | Some x, Some y => number_eqb x y
      | _, _ => false
      end
  end.

(** [x == y] on two lists of objects compared by [eqb]. *)
Fixpoint list_eqb {A : Type} (eqb : A -> A -> bool) (l m : list A) : bool :=
  match l, m with
  | [], [] => true
  | x :: l', y :: m' => eqb x y && list_eqb eqb l' m'
  | _, _ => false
  end.

(** [c.lower()] of one character: the upper-case letters among the code
    points 0 to 255 are A to Z and the accented capitals 192 to 222
    without the multiplication sign 215. *)
Definition lower_char (c : ascii) : ascii :=
  let n := N_of_ascii c in
  if ((65 <=? n) && (n <=? 90) || (192 <=? n) && (n <=? 214)
      || (216 <=? n) && (n <=? 222))%N
  then ascii_of_N (n + 32) else c.

(** [s.lower()]. *)
Fixpoint lower (s : string) : string :=
  match s with
  | EmptyString => EmptyString
  | String c r => String (lower_char c) (lower r)
  end.

(** A lower-case snake_case token: letters a to z and underscores, at
    least one character. *)
Definition is_snake_char (c : ascii) : bool :=
  let n := N_of_ascii c in
  ((97 <=? n) && (n <=? 122) || (n =? 95))%N.

Fixpoint all_chars (p : ascii -> bool) (s : string) : bool :=
  match s with
  | EmptyString => true
  | String c r => p c && all_chars p r
  end.

Definition is_lower_snake (s : string) : bool :=
  negb (String.eqb s EmptyString) && all_chars is_snake_char s.

(** The float stands for the rational [q]. *)
Definition float_is (f : pyfloat) (q : Q) : bool :=
  match float_to_Q f with
  | Some p => Qeq_bool p q
  | None => false
  end.

(** The byte with a given value below 256, and the value of a byte. *)
Definition byte_of_N (n : N) : Byte.byte := byte_of_ascii (ascii_of_N n).

Definition N_of_byte (b : Byte.byte) : N := N_of_ascii (ascii_of_byte b).

(** [c.encode('utf-8')] for a code point below 256: one byte below
    128, two bytes from there on. *)
Definition encode_char (c : ascii) : list Byte.byte :=
  let n := N_of_ascii c in
  if (n <? 128)%N then [byte_of_ascii c]
  else [byte_of_N (192 + n / 64); byte_of_N (128 + n mod 64)].

(** [s.encode('utf-8')]. *)
Fixpoint encode_utf8 (s : string) : list Byte.byte :=
  match s with
  | EmptyString => []
  | String c r => encode_char c ++ encode_utf8 r
  end.

(** [b.decode('utf-8')], as far as the model's strings go: the lead
    bytes 194 and 195 announce the code points 128 to 255; any other
    byte above 127 is an error or a character outside the model. *)
Fixpoint decode_utf8 (bs : list Byte.byte) : option string :=
  match bs with
  | [] => Some EmptyString
  | b :: r =>
      let n := N_of_byte b in
      if (n <? 128)%N then option_map (String (ascii_of_byte b)) (decode_utf8 r)
      else if ((n =? 194) || (n =? 195))%N then
        match r with
        | b2 :: r' =>
            let m := N_of_byte b2 in
            if ((128 <=? m) && (m <? 192))%N
            then option_map (String (ascii_of_N ((n - 192) * 64 + (m - 128))))
                   (decode_utf8 r')
            else None
        | [] => None
        end
      else None
  end.

(** [x in s] for a set of strings. *)
Definition mem (x : string) (s : list string) : bool :=
  existsb (String.eqb x) s.

(** What the type annotations of the package ask of a field. *)
Definition is_str (v : value) : bool :=
  match v with VStr _ => true | _ => false end.

Definition is_int (v : value) : bool :=
  match v with VInt _ => true | _ => false end.

(** [float]: a float, or an int, which Python takes where a float is
    asked for. *)
Definition is_float (v : value) : bool :=
  match v with VFloat f => float_ok f | VInt _ => true | _ => false end.

Definition is_optional (ty : value -> bool) (v : value) : bool :=
  match v with VNone => true | _ => ty v end.

(** Whether the field is a NaN. *)
Definition is_nan_value (v : value) : bool :=
  match v with VFloat f => is_nan f | _ => false end.

End Py.

Export Py.

Notation "x <- m ;; k" := (bind m (fun x => k))
  (at level 61, m at next level, right associativity).

(** ** The [json] module *)

Module Json.

Local Open Scope list_scope.
Local Open Scope char_scope.

Definition chars (s : string) : list ascii := list_ascii_of_string s.

Definition dquote : ascii := "034".
Definition backslash : ascii := "092".

(** *** Encoding: [json.dumps] with its default arguments *)

Definition digit_char (d : digit) : ascii :=
  match d with
  | d0 => "0" | d1 => "1" | d2 => "2" | d3 => "3" | d4 => "4"
  | d5 => "5" | d6 => "6" | d7 => "7" | d8 => "8" | d9 => "9"
  end.

Definition emit_digits (ds : list digit) : list ascii := map digit_char ds.

Fixpoint digits_of_uint (u : uint) : list digit :=
  match u with
  | Nil => []
  | D0 u => d0 :: digits_of_uint u
  | D1 u => d1 :: digits_of_uint u
  | D2 u => d2 :: digits_of_uint u
  | D3 u => d3 :: digits_of_uint u
  | D4 u => d4 :: digits_of_uint u
  | D5 u => d5 :: digits_of_uint u
  | D6 u => d6 :: digits_of_uint u
  | D7 u => d7 :: digits_of_uint u
  | D8 u => d8 :: digits_of_uint u
  | D9 u => d9 :: digits_of_uint u
  end.

Fixpoint uint_of_digits (ds : list digit) : uint :=
  match ds with
  | [] => Nil
  | d :: r =>
      let u := uint_of_digits r in
      match d with
      | d0 => D0 u | d1 => D1 u | d2 => D2 u | d3 => D3 u | d4 => D4 u
      | d5 => D5 u | d6 => D6 u | d7 => D7 u | d8 => D8 u | d9 => D9 u
      end
  end.

(** [int.__repr__]. *)
Definition emit_int (z : Z) : list ascii :=
  match Z.to_int z with
  | Pos u => emit_digits (digits_of_uint u)
  | Neg u => "-" :: emit_digits (digits_of_uint u)
  end.

Definition zeros (k : nat) : list digit := repeat d0 k.

(** The exponent of a float in scientific notation: a sign and at least
    two digits. *)
Definition exponent_digits (x : Z) : list digit :=
  match digits_of_uint (N.to_uint (Z.to_N (Z.abs x))) with
  | [d] => [d0; d]
  | ds => ds
  end.

Definition emit_exponent (x : Z) : list ascii :=
  "e" :: (if (x <? 0)%Z then "-" else "+") :: emit_digits (exponent_digits x).

(** The digits of [float.__repr__] for a finite float: positional
    notation when [-4 < decpt <= 16], scientific notation otherwise. *)
Definition float_digits (ds : list digit) (decpt : Z) : list ascii :=
  match ds with
  | [] => chars "0.0"
  | d :: tl =>
      if ((decpt <=? -4) || (16 <? decpt))%Z then
        digit_char d
          :: (match tl with [] => [] | _ => "." :: emit_digits tl end)
          ++ emit_exponent (decpt - 1)
      else if (decpt <=? 0)%Z then
        "0" :: "." :: emit_digits (zeros (Z.to_nat (- decpt)) ++ ds)
      else if (decpt <? Z.of_nat (List.length ds))%Z then
        emit_digits (firstn (Z.to_nat decpt) ds)
          ++ "." :: emit_digits (skipn (Z.to_nat decpt) ds)
      else
        emit_digits (ds ++ zeros (Z.to_nat (decpt - Z.of_nat (List.length ds))))
          ++ chars ".0"
  end.

(** [float.__repr__] of a finite float. *)
Definition float_repr (neg : bool) (ds : list digit) (decpt : Z) : list ascii :=
  (if neg then ["-"] else []) ++ float_digits ds decpt.

(** The encoder's [floatstr]: [allow_nan] is on by default. *)
Definition floatstr (f : pyfloat) : list ascii :=
  match f with
  | FNaN => chars "NaN"
  | FInf false => chars "Infinity"
  | FInf true => chars "-Infinity"
  | FFinite neg ds e => float_repr neg ds e
  end.

Definition hex_char (n : N) : ascii :=
  match n with
  | 0 => "0" | 1 => "1" | 2 => "2" | 3 => "3" | 4 => "4" | 5 => "5"
  | 6 => "6" | 7 => "7" | 8 => "8" | 9 => "9" | 10 => "a" | 11 => "b"
  | 12 => "c" | 13 => "d" | 14 => "e" | _ => "f"
  end%N.

(** One character of a string under [ensure_ascii]: the quote and the
    backslash are escaped, so is everything outside space .. tilde. *)
Definition escape_char (c : ascii) : list ascii :=
  let n := N_of_ascii c in
  if Ascii.eqb c dquote then [backslash; dquote]
  else if Ascii.eqb c backslash then [backslash; backslash]
  else if Ascii.eqb c "010" then [backslash; "n"]
  else if Ascii.eqb c "013" then [backslash; "r"]
  else if Ascii.eqb c "009" then [backslash; "t"]
  else if Ascii.eqb c "008" then [backslash; "b"]
  else if Ascii.eqb c "012" then [backslash; "f"]
  else if ((32 <=? n) && (n <=? 126))%N then [c]
  else [backslash; "u"; "0"; "0"; hex_char (n / 16); hex_char (n mod 16)].

Fixpoint escape (s : string) : list ascii :=
  match s with
  | EmptyString => []
  | String c r => escape_char c ++ escape r
  end.

Definition emit_string (s : string) : list ascii :=
  dquote :: escape s ++ [dquote].

Fixpoint join (sep : list ascii) (parts : list (list ascii)) : list ascii :=
  match parts with
  | [] => []
  | [p] => p
  | p :: r => p ++ sep ++ join sep r
  end.

(** The default item separator. *)
Definition separator : list ascii := chars ", ".

Fixpoint emit (v : value) : list ascii :=
  match v with
  | VNone => chars "null"
  | VBool true => chars "true"
  | VBool false => chars "false"
  | VInt z => emit_int z
  | VFloat f => floatstr f
  | VStr s => emit_string s
  | VList l => "[" :: join separator (map emit l) ++ ["]"]
  | VDict d =>
      "{" :: join separator
               (map (fun kv => emit_string (fst kv) ++ chars ": " ++ emit (snd kv)) d)
          ++ ["}"]
  end.

(** One member of a dict: the key, a colon, the value. *)
Definition emit_member (kv : string * value) : list ascii :=
  emit_string (fst kv) ++ chars ": " ++ emit (snd kv).

Definition dumps (v : value) : string := string_of_list_ascii (emit v).

(** *** Decoding: [json.loads] *)

Definition is_ws (c : ascii) : bool :=
  Ascii.eqb c " " || Ascii.eqb c "009" || Ascii.eqb c "010" || Ascii.eqb c "013".

Fixpoint skip_ws (s : list ascii) : list ascii :=
  match s with
  | c :: r => if is_ws c then skip_ws r else s
  | [] => []
  end.

Definition digit_of_char (c : ascii) : option digit :=
  match c with
  | "0" => Some d0 | "1" => Some d1 | "2" => Some d2 | "3" => Some d3
  | "4" => Some d4 | "5" => Some d5 | "6" => Some d6 | "7" => Some d7
  | "8" => Some d8 | "9" => Some d9
  | _ => None
  end.

(** The longest run of digits at the head of the input. *)
Fixpoint scan_digits (s : list ascii) : list digit * list ascii :=
  match s with
  | c :: r =>
      match digit_of_char c with
      | Some d => let (ds, r') := scan_digits r in (d :: ds, r')
      | None => ([], s)
      end
  | [] => ([], [])
  end.

(** The integer part of a number: [0|[1-9][0-9]*]. *)
Definition scan_int (s : list ascii) : option (list digit * list ascii) :=
  match s with
  | c :: r =>
      match digit_of_char c with
      | Some d0 => Some ([d0], r)
      | Some d => let (ds, r') := scan_digits r in Some (d :: ds, r')
      | None => None
      end
  | [] => None
  end.

(** The optional fraction: [(\.[0-9]+)?]. *)
Definition scan_frac (s : list ascii) : option (list digit) * list ascii :=
  match s with
  | "." :: r =>
      match scan_digits r with
      | ([], _) => (None, s)
      | (ds, r') => (Some ds, r')
      end
  | _ => (None, s)
  end.

Definition digits_to_Z (ds : list digit) : Z :=
  Z.of_N (N.of_uint (uint_of_digits ds)).

(** The optional exponent: [([eE][-+]?[0-9]+)?]. *)
Definition scan_exp (s : list ascii) : option Z * list ascii :=
  match s with
  | c :: r =>
      if Ascii.eqb c "e" || Ascii.eqb c "E" then
        let (neg, r1) :=
          match r with
          | "-" :: r1 => (true, r1)
          | "+" :: r1 => (false, r1)
          | _ => (false, r)
          end in
        match scan_digits r1 with
        | ([], _) => (None, s)
        | (ds, r2) => (Some (if neg then - digits_to_Z ds else digits_to_Z ds)%Z, r2)
        end
      else (None, s)
  | [] => (None, [])
  end.

Fixpoint strip_leading (ds : list digit) (decpt : Z) : list digit * Z :=
  match ds with
  | d0 :: r => strip_leading r (decpt - 1)%Z
  | _ => (ds, decpt)
  end.

Fixpoint drop_zeros (ds : list digit) : list digit :=
  match ds with
  | d0 :: r => drop_zeros r
  | _ => ds
  end.

Definition strip_trailing (ds : list digit) : list digit :=
  List.rev (drop_zeros (List.rev ds)).

(** [float(text)] of a number literal with integer part [ip], fraction
    [fr] and exponent [ex]: the digits without leading and trailing
    zeros, and where the decimal point falls.  The digits are kept as
    they are written: this is the float for a literal that is the
    [repr] of a float, as [json.dumps] writes them; [float()] rounds a
    longer literal to the nearest double, and takes one out of range
    to inf or 0.0. *)
Definition float_of_literal (neg : bool) (ip fr : list digit) (ex : Z) : pyfloat :=
  let (ds, e) := strip_leading (ip ++ fr) (Z.of_nat (List.length ip) + ex)%Z in
  match strip_trailing ds with
  | [] => FFinite neg [] 0
  | ds' => FFinite neg ds' e
  end.

(** [int(text)] of an integer literal. *)
Definition int_of_literal (neg : bool) (ip : list digit) : Z :=
  Z.of_int (if neg then Neg (uint_of_digits ip) else Pos (uint_of_digits ip)).

(** A number after its sign: the integer part, the optional fraction
    and the optional exponent; an [int] when it has neither fraction
    nor exponent, a [float] otherwise. *)
Definition scan_magnitude (neg : bool) (s : list ascii) : option (value * list ascii) :=
  match scan_int s with
  | None => None
  | Some (ip, s2) =>
      let (fr, s3) := scan_frac s2 in
      let (ex, s4) := scan_exp s3 in
      match fr, ex with
      | None, None => Some (VInt (int_of_literal neg ip), s4)
      | Some f, None => Some (VFloat (float_of_literal neg ip f 0), s4)
      | None, Some x => Some (VFloat (float_of_literal neg ip [] x), s4)
      | Some f, Some x => Some (VFloat (float_of_literal neg ip f x), s4)
      end
  end.

(** A number, with its optional minus sign. *)
Definition scan_number (s : list ascii) : option (value * list ascii) :=
  match s with
  | "-" :: r => scan_magnitude true r
  | _ => scan_magnitude false s
  end.

Definition hex_val (c : ascii) : option N :=
  match digit_of_char c with
  | Some d => Some (Z.to_N (digit_val d))
  | None =>
      match c with
      | "a" | "A" => Some 10
      | "b" | "B" => Some 11
      | "c" | "C" => Some 12
      | "d" | "D" => Some 13
      | "e" | "E" => Some 14
      | "f" | "F" => Some 15
      | _ => None
      end
  end%N.

(** The character a [\uXXXX] escape stands for.  The strings of this
    development hold the code points up to 255, so an escape above 00ff
    has no character to stand for and the scanner stops there, where
    [json.loads] goes on with the character.  What is stated of a text
    that [loads] refuses is therefore stated through the grammar
    [Rfc8259], which takes every such escape. *)
Definition unicode_escape (h1 h2 h3 h4 : ascii) : option ascii :=
  match hex_val h1, hex_val h2, hex_val h3, hex_val h4 with
  | Some 0%N, Some 0%N, Some a, Some b => Some (ascii_of_N (16 * a + b))
  | _, _, _, _ => None
  end.

(** The character a one-letter escape stands for. *)
Definition simple_escape (c : ascii) : option ascii :=
  if Ascii.eqb c dquote then Some dquote
  else if Ascii.eqb c backslash then Some backslash
  else match c with
       | "/" => Some "/"
       | "b" => Some "008"
       | "f" => Some "012"
       | "n" => Some "010"
       | "r" => Some "013"
       | "t" => Some "009"
       | _ => None
       end.

(** The body of a string, after its opening quote, up to and including
    the closing quote ([strict] mode: a raw control character is an
    error). *)
Fixpoint scan_string (s : list ascii) : option (string * list ascii) :=
  match s with
  | [] => None
  | c :: r =>
      if Ascii.eqb c dquote then Some (EmptyString, r)
      else if Ascii.eqb c backslash then
        match r with
        | "u" :: h1 :: h2 :: h3 :: h4 :: r' =>
            match unicode_escape h1 h2 h3 h4, scan_string r' with
            | Some x, Some (str, rest) => Some (String x str, rest)
            | _, _ => None
            end
        | e :: r' =>
            match simple_escape e, scan_string r' with
            | Some x, Some (str, rest) => Some (String x str, rest)
            | _, _ => None
            end
        | [] => None
        end
      else if (N_of_ascii c <? 32)%N then None
      else
        match scan_string r with
        | Some (str, rest) => Some (String c str, rest)
        | None => None
        end
  end.

Fixpoint strip_prefix (p s : list ascii) : option (list ascii) :=
  match p, s with
  | [], _ => Some s
  | a :: p', b :: s' => if Ascii.eqb a b then strip_prefix p' s' else None
  | _ :: _, [] => None
  end.

(** [d[k] = v] on a dict kept in insertion order. *)
Fixpoint dict_set (k : string) (v : value) (d : list (string * value))
  : list (string * value) :=
  match d with
  | [] => [(k, v)]
  | (k', v') :: r =>
      if String.eqb k k' then (k, v) :: r else (k', v') :: dict_set k v r
  end.

(** [dict(pairs)]: a later pair overwrites an earlier one with its key. *)
Definition dict_of_pairs (ps : list (string * value)) : list (string * value) :=
  fold_left (fun d kv => dict_set (fst kv) (snd kv) d) ps [].

(** A constant, tried before a number is. *)
Definition scan_constant (s : list ascii) : option (value * list ascii) :=
  match s with
  | "n" :: _ => option_map (pair VNone) (strip_prefix (chars "null") s)
  | "t" :: _ => option_map (pair (VBool true)) (strip_prefix (chars "true") s)
  | "f" :: _ => option_map (pair (VBool false)) (strip_prefix (chars "false") s)
  | "N" :: _ => option_map (pair (VFloat FNaN)) (strip_prefix (chars "NaN") s)
  | "I" :: _ =>
      option_map (pair (VFloat (FInf false))) (strip_prefix (chars "Infinity") s)
  | "-" :: _ =>
      match strip_prefix (chars "-Infinity") s with
      | Some r => Some (VFloat (FInf true), r)
      | None => scan_number s
      end
  | _ => scan_number s
  end.

(** The scanner.  [fuel] bounds the nesting depth plus the number of
    items met on the way; the length of the input is always enough. *)
Fixpoint parse_value (fuel : nat) (s : list ascii) {struct fuel}
  : option (value * list ascii) :=
  match fuel with
  | O => None
  | S fuel =>
      match s with
      | [] => None
      | c :: r =>
          if Ascii.eqb c dquote then
            match scan_string r with
            | Some (str, r') => Some (VStr str, r')
            | None => None
            end
          else if Ascii.eqb c "{" then
            match skip_ws r with
            | "}" :: r' => Some (VDict [], r')
            | r0 =>
                match parse_members fuel r0 with
                | Some (ps, r') => Some (VDict (dict_of_pairs ps), r')
                | None => None
                end
            end
          else if Ascii.eqb c "[" then
            match skip_ws r with
            | "]" :: r' => Some (VList [], r')
            | r0 =>
                match parse_elements fuel r0 with
                | Some (vs, r') => Some (VList vs, r')
                | None => None
                end
            end
          else scan_constant s
      end
  end
with parse_elements (fuel : nat) (s : list ascii) {struct fuel}
  : option (list value * list ascii) :=
  match fuel with
  | O => None
  | S fuel =>
      match parse_value fuel s with
      | None => None
      | Some (v, r) =>
          match skip_ws r with
          | "]" :: r' => Some ([v], r')
          | "," :: r' =>
              match parse_elements fuel (skip_ws r') with
              | Some (vs, r'') => Some (v :: vs, r'')
              | None => None
              end
          | _ => None
          end
      end
  end
with parse_members (fuel : nat) (s : list ascii) {struct fuel}
  : option (list (string * value) * list ascii) :=
  match fuel with
  | O => None
  | S fuel =>
      match s with
      | c :: r =>
          if Ascii.eqb c dquote then
            match scan_string r with
            | None => None
            | Some (k, r1) =>
                match skip_ws r1 with
                | ":" :: r2 =>
                    match parse_value fuel (skip_ws r2) with
                    | None => None
                    | Some (v, r3) =>
                        match skip_ws r3 with
                        | "}" :: r4 => Some ([(k, v)], r4)
                        | "," :: r4 =>
                            match parse_members fuel (skip_ws r4) with
                            | Some (ps, r5) => Some ((k, v) :: ps, r5)
                            | None => None
                            end
                        | _ => None
                        end
                    end
                | _ => None
                end
            end
          else None
      | [] => None
      end
  end.

(** [json.loads]: one value, white space around it, nothing else. *)
Definition loads (s : string) : result value :=
  let cs := list_ascii_of_string s in
  match parse_value (S (List.length cs)) (skip_ws cs) with
  | Some (v, r) =>
      match skip_ws r with
      | [] => Ok v
      | _ :: _ => Raise JSONDecodeError
      end
  | None => Raise JSONDecodeError
  end.

(** A document written with apostrophes where it has double quotes. *)
Fixpoint quoted (s : string) : string :=
  match s with
  | EmptyString => EmptyString
  | String c r => String (if Ascii.eqb c "'" then dquote else c) (quoted r)
  end.

(** *** Well-formed values

    What the round trip through text asks of a value: floats in
    canonical form, and no key twice in a dict. *)

Fixpoint distinct (l : list string) : bool :=
  match l with
  | [] => true
  | k :: r => negb (mem k r) && distinct r
  end.

Fixpoint wf (v : value) : bool :=
  match v with
  | VFloat f => float_ok f
  | VList l => forallb wf l
  | VDict d => distinct (map fst d) && forallb (fun kv => wf (snd kv)) d
  | _ => true
  end.

(** The fuel the scanner needs for the text of a value. *)
Fixpoint size (v : value) : nat :=
  match v with
  | VList l => S (list_sum (map (fun x => S (size x)) l))
  | VDict d => S (list_sum (map (fun kv => S (size (snd kv))) d))
  | _ => 1
  end.

(** What may follow a value inside a document: nothing, or a comma or
    a closing bracket. *)
Definition delimited (rest : list ascii) : bool :=
  match rest with
  | [] => true
  | c :: _ => Ascii.eqb c "," || Ascii.eqb c "]" || Ascii.eqb c "}"
  end.

(** The next character is not a digit. *)
Definition no_digit (rest : list ascii) : Prop :=
  match rest with
  | [] => True
  | c :: _ => digit_of_char c = None
  end.

(** The integer part of a number literal: a lone zero, or digits that
    start with another digit. *)
Definition int_part (ip : list digit) : Prop :=
  ip = [d0] \/ exists d l, ip = d :: l /\ is_d0 d = false.

(** The characters a value's text can start with. *)
Definition first_chars : list ascii :=
  [dquote; "["; "{"; "n"; "t"; "f"; "N"; "I"; "-";
   "0"; "1"; "2"; "3"; "4"; "5"; "6"; "7"; "8"; "9"].

Definition starts_value (s : list ascii) : Prop :=
  exists c r, s = c :: r /\ In c first_chars.

(** The scanner gives a value back from its text, whatever delimiter
    follows and whenever the fuel covers the value's size. *)
Definition reads_back (v : value) : Prop :=
  forall fuel rest,
    wf v = true -> (size v <= fuel)%nat -> delimited rest = true ->
    parse_value fuel (emit v ++ rest) = Some (v, rest).

End Json.

(** ** Well-formed JSON

    What the specification means by well-formed JSON: the grammar of a
    JSON text (RFC 8259), one recogniser for each production.  A
    recogniser takes the input and returns what is left after the
    longest match, or nothing when there is no match.  This is the
    specification's side of the decoding claim; it shares nothing with
    the scanner of [Json.loads].

    [nonfinite] adds the three number literals NaN, Infinity and
    -Infinity, which are not JSON. *)

Module Rfc8259.

Local Open Scope list_scope.
Local Open Scope char_scope.
Local Open Scope N_scope.

Definition code (c : ascii) : N := N_of_ascii c.

Definition between (lo hi : N) (c : ascii) : bool :=
  (lo <=? code c) && (code c <=? hi).

(** ws = *( %x20 / %x09 / %x0A / %x0D ) *)
Definition is_ws (c : ascii) : bool :=
  (code c =? 32) || (code c =? 9) || (code c =? 10) || (code c =? 13).

Fixpoint ws (s : list ascii) : list ascii :=
  match s with
  | c :: r => if is_ws c then ws r else s
  | [] => []
  end.

(** DIGIT = %x30-39, digit1-9 = %x31-39,
    HEXDIG = DIGIT / "A" / "B" / "C" / "D" / "E" / "F", in either case *)
Definition DIGIT : ascii -> bool := between 48 57.
Definition digit1_9 : ascii -> bool := between 49 57.
Definition HEXDIG (c : ascii) : bool :=
  DIGIT c || between 65 70 c || between 97 102 c.

(** *DIGIT *)
Fixpoint digits (s : list ascii) : list ascii :=
  match s with
  | c :: r => if DIGIT c then digits r else s
  | [] => []
  end.

(** 1*DIGIT *)
Definition digits1 (s : list ascii) : option (list ascii) :=
  match s with
  | c :: r => if DIGIT c then Some (digits r) else None
  | [] => None
  end.

(** int = zero / ( digit1-9 *DIGIT ) *)
Definition int (s : list ascii) : option (list ascii) :=
  match s with
  | c :: r =>
      if code c =? 48 then Some r
      else if digit1_9 c then Some (digits r)
      else None
  | [] => None
  end.

(** [ frac ], frac = decimal-point 1*DIGIT *)
Definition opt_frac (s : list ascii) : list ascii :=
  match s with
  | c :: r =>
      if code c =? 46 then
        match digits1 r with
        | Some r' => r'
        | None => s
        end
      else s
  | [] => []
  end.

(** [ exp ], exp = e [ minus / plus ] 1*DIGIT *)
Definition opt_exp (s : list ascii) : list ascii :=
  match s with
  | c :: r =>
      if (code c =? 101) || (code c =? 69) then
        let r1 :=
          match r with
          | sign :: r' => if (code sign =? 45) || (code sign =? 43) then r' else r
          | [] => r
          end in
        match digits1 r1 with
        | Some r2 => r2
        | None => s
        end
      else s
  | [] => []
  end.

(** number = [ minus ] int [ frac ] [ exp ] *)
Definition number (s : list ascii) : option (list ascii) :=
  let s1 :=
    match s with
    | c :: r => if code c =? 45 then r else s
    | [] => s
    end in
  match int s1 with
  | Some r => Some (opt_exp (opt_frac r))
  | None => None
  end.

(** The letter of a two-character escape: one of
    %x22 / %x5C / %x2F / %x62 / %x66 / %x6E / %x72 / %x74. *)
Definition escape_letter (c : ascii) : bool :=
  (code c =? 34) || (code c =? 92) || (code c =? 47) || (code c =? 98)
  || (code c =? 102) || (code c =? 110) || (code c =? 114) || (code c =? 116).

(** *char quotation-mark, the rest of a string after its opening
    quotation mark:
    char = unescaped / escape ( one letter / %x75 4HEXDIG ),
    unescaped = %x20-21 / %x23-5B / %x5D-10FFFF *)
Fixpoint chars_quote (s : list ascii) : option (list ascii) :=
  match s with
  | [] => None
  | c :: r =>
      if code c =? 34 then Some r
      else if code c =? 92 then
        match r with
        | e :: r' =>
            if escape_letter e then chars_quote r'
            else if code e =? 117 then
              match r' with
              | h1 :: h2 :: h3 :: h4 :: r'' =>
                  if HEXDIG h1 && HEXDIG h2 && HEXDIG h3 && HEXDIG h4
                  then chars_quote r''
                  else None
              | _ => None
              end
            else None
        | [] => None
        end
      else if 32 <=? code c then chars_quote r
      else None
  end.

(** The input begins with the word. *)
Fixpoint literal (word : string) (s : list ascii) : option (list ascii) :=
  match word, s with
  | EmptyString, _ => Some s
  | String a w, b :: r => if code a =? code b then literal w r else None
  | String _ _, [] => None
  end.

(** The first alternative that matches. *)
Definition orelse (a b : option (list ascii)) : option (list ascii) :=
  match a with
  | Some r => Some r
  | None => b
  end.

(** The literals that are not JSON. *)
Definition nonfinite_literal (s : list ascii) : option (list ascii) :=
  orelse (literal "NaN" s) (orelse (literal "Infinity" s) (literal "-Infinity" s)).

(** value = false / null / true / object / array / number / string
    object = begin-object [ member *( value-separator member ) ] end-object
    member = string name-separator value
    array = begin-array [ value *( value-separator value ) ] end-array

    The six structural characters may have white space on both sides.
    [elements] and [members] recognise what follows the opening bracket
    of an array or object that is not empty, the closing bracket
    included.  [fuel] bounds the depth of the recursion; the length of
    the input is enough. *)
Fixpoint value (nonfinite : bool) (fuel : nat) (s : list ascii) {struct fuel}
  : option (list ascii) :=
  match fuel with
  | O => None
  | S fuel =>
      match s with
      | [] => None
      | c :: r =>
          if code c =? 34 then chars_quote r
          else if code c =? 123 then
            match ws r with
            | [] => None
            | c' :: r' =>
                if code c' =? 125 then Some r'
                else members nonfinite fuel (c' :: r')
            end
          else if code c =? 91 then
            match ws r with
            | [] => None
            | c' :: r' =>
                if code c' =? 93 then Some r'
                else elements nonfinite fuel (c' :: r')
            end
          else
            orelse (literal "false" s)
              (orelse (literal "null" s)
                 (orelse (literal "true" s)
                    (orelse (if nonfinite then nonfinite_literal s else None)
                       (number s))))
      end
  end
with elements (nonfinite : bool) (fuel : nat) (s : list ascii) {struct fuel}
  : option (list ascii) :=
  match fuel with
  | O => None
  | S fuel =>
      match value nonfinite fuel s with
      | None => None
      | Some r =>
          match ws r with
          | [] => None
          | c :: r' =>
              if code c =? 93 then Some r'
              else if code c =? 44 then elements nonfinite fuel (ws r')
              else None
          end
      end
  end
with members (nonfinite : bool) (fuel : nat) (s : list ascii) {struct fuel}
  : option (list ascii) :=
  match fuel with
  | O => None
  | S fuel =>
      match s with
      | [] => None
      | q :: r =>
          if code q =? 34 then
            match chars_quote r with
            | None => None
            | Some r1 =>
                match ws r1 with
                | [] => None
                | c :: r2 =>
                    if code c =? 58 then
                      match value nonfinite fuel (ws r2) with
                      | None => None
                      | Some r3 =>
                          match ws r3 with
                          | [] => None
                          | c' :: r4 =>
                              if code c' =? 125 then Some r4
                              else if code c' =? 44
                              then members nonfinite fuel (ws r4)
                              else None
                          end
                      end
                    else None
                end
            end
          else None
      end
  end.

(** JSON-text = ws value ws *)
Definition json_text (nonfinite : bool) (s : string) : bool :=
  let cs := list_ascii_of_string s in
  match value nonfinite (S (List.length cs)) (ws cs) with
  | Some r =>
      match ws r with
      | [] => true
      | _ :: _ => false
      end
  | None => false
  end.



End Rfc8259.


Local Open Scope string_scope.
Local Open Scope list_scope.

(** ** status.py *)

Module DeviceType.

Inductive t : Type :=
| IOS_IPHONE
| ANDROID_PHONE
| ANDROID_QUEST
| OAK.

Definition value (v : t) : string :=
  match v with
  | IOS_IPHONE => "iOS:iPhone"
  | ANDROID_PHONE => "Android:Phone"
  | ANDROID_QUEST => "Android:Quest"
  | OAK => "Oak"
  end.

End DeviceType.

Module DeviceStatus.

Inductive t : Type :=
| READY
| RECORDING
| STOPPING
| ERROR
| SCHEDULED_RECORDING_ACCEPTED
| RECORDING_STOPPED
| COMMAND_RECEIVED
| TIME_NOT_SYNCHRONIZED
| FILE_NOT_FOUND
| UPLOADING
| UPLOAD_QUEUED
| UPLOAD_COMPLETED
| UPLOAD_FAILED.

Definition value (v : t) : string :=
  match v with
  | READY => "ready"
  | RECORDING => "recording"
  | STOPPING => "stopping"
  | ERROR => "error"
  | SCHEDULED_RECORDING_ACCEPTED => "scheduled_recording_accepted"
  | RECORDING_STOPPED => "recording_stopped"
  | COMMAND_RECEIVED => "command_received"
  | TIME_NOT_SYNCHRONIZED => "time_not_synchronized"
  | FILE_NOT_FOUND => "file_not_found"
  | UPLOADING => "uploading"
  | UPLOAD_QUEUED => "upload_queued"
  | UPLOAD_COMPLETED => "upload_completed"
  | UPLOAD_FAILED => "upload_failed"
  end.

(** The members, in definition order. *)
Definition members : list t :=
  [READY; RECORDING; STOPPING; ERROR; SCHEDULED_RECORDING_ACCEPTED;
   RECORDING_STOPPED; COMMAND_RECEIVED; TIME_NOT_SYNCHRONIZED;
   FILE_NOT_FOUND; UPLOADING; UPLOAD_QUEUED; UPLOAD_COMPLETED;
   UPLOAD_FAILED].

Definition success_statuses : list string :=
  [value READY; value RECORDING; value SCHEDULED_RECORDING_ACCEPTED;
   value COMMAND_RECEIVED; value RECORDING_STOPPED; value STOPPING;
   value UPLOADING; value UPLOAD_QUEUED; value UPLOAD_COMPLETED].

Definition is_success (status : string) : bool :=
  mem (lower status) success_statuses.

Definition error_statuses : list string :=
  [value ERROR; value TIME_NOT_SYNCHRONIZED; value FILE_NOT_FOUND;
   value UPLOAD_FAILED].

Definition is_error (status : string) : bool :=
  mem (lower status) error_statuses.

End DeviceStatus.

(** ** constants.py *)

Module constants.

Definition TCP_PORT : Z := 8080.

Definition SERVICE_TYPE : string := "_multicam._tcp.local.".

Definition NTP_SERVER : string := "pool.ntp.org".

Definition NTP_PORT : Z := 123.

(** [0.5] *)
Definition MAX_ACCEPTABLE_RTT : pyfloat := FFinite false [d5] 0.

(** [3.0] *)
Definition SYNC_DELAY : pyfloat := FFinite false [d3] 1.

(** [60.0] *)
Definition COMMAND_TIMEOUT : pyfloat := FFinite false [d6] 2.

(** [600.0] *)
Definition DOWNLOAD_STALL_TIMEOUT : pyfloat := FFinite false [d6] 3.

Definition DOWNLOAD_CHUNK_SIZE : Z := 8192.

Definition FILE_ID_FORMAT : string := "{deviceId}_{timestamp}".

Definition SUCCESS_STATUSES : list string :=
  ["ready"; "recording"; "scheduled_recording_accepted"; "command_received";
   "recording_stopped"; "stopping"].

End constants.

(** ** commands.py *)

Module CommandType.

Inductive t : Type :=
| START_RECORDING
| STOP_RECORDING
| DEVICE_STATUS
| GET_VIDEO
| HEARTBEAT
| LIST_FILES
| UPLOAD_TO_CLOUD.

Definition value (c : t) : string :=
  match c with
  | START_RECORDING => "START_RECORDING"
  | STOP_RECORDING => "STOP_RECORDING"
  | DEVICE_STATUS => "DEVICE_STATUS"
  | GET_VIDEO => "GET_VIDEO"
  | HEARTBEAT => "HEARTBEAT"
  | LIST_FILES => "LIST_FILES"
  | UPLOAD_TO_CLOUD => "UPLOAD_TO_CLOUD"
  end.

Definition members : list t :=
  [START_RECORDING; STOP_RECORDING; DEVICE_STATUS; GET_VIDEO; HEARTBEAT;
   LIST_FILES; UPLOAD_TO_CLOUD].

Definition eqb (a b : t) : bool := String.eqb (value a) (value b).

(** [CommandType(v)]: the member whose value is [v], [ValueError] when
    there is none. *)
Definition of_value (v : Py.value) : result t :=
  match v with
  | VStr s =>
      match find (fun c => String.eqb (value c) s) members with
      | Some c => Ok c
      | None => Raise ValueError
      end
  | _ => Raise ValueError
  end.

End CommandType.

Module UploadStatus.

Inductive t : Type :=
| QUEUED
| UPLOADING
| COMPLETED
| FAILED.

Definition value (u : t) : string :=
  match u with
  | QUEUED => "queued"
  | UPLOADING => "uploading"
  | COMPLETED => "completed"
  | FAILED => "failed"
  end.

End UploadStatus.

Module UploadItem.

Record t : Type := mk {
  fileName : value;
  fileSize : value;
  bytesUploaded : value;
  uploadProgress : value;
  uploadSpeed : value;
  status : value;
  uploadUrl : value;
  error : value
}.

Definition from_dict (data : value) : result t :=
  fileName <- subscript data "fileName" ;;
  fileSize <- subscript data "fileSize" ;;
  bytesUploaded <- subscript data "bytesUploaded" ;;
  uploadProgress <- subscript data "uploadProgress" ;;
  uploadSpeed <- subscript data "uploadSpeed" ;;
  status <- subscript data "status" ;;
  uploadUrl <- subscript data "uploadUrl" ;;
  error <- dict_get data "error" VNone ;;
  Ok (mk fileName fileSize bytesUploaded uploadProgress uploadSpeed status
         uploadUrl error).

(** [dataclasses.asdict]: the fields in declaration order. *)
Definition asdict (self : t) : value :=
  VDict [("fileName", fileName self); ("fileSize", fileSize self);
         ("bytesUploaded", bytesUploaded self);
         ("uploadProgress", uploadProgress self);
         ("uploadSpeed", uploadSpeed self); ("status", status self);
         ("uploadUrl", uploadUrl self); ("error", error self)].

(** The generated [__eq__]: field by field. *)
Definition eqb (x y : t) : bool :=
  value_eqb (fileName x) (fileName y) && value_eqb (fileSize x) (fileSize y)
  && value_eqb (bytesUploaded x) (bytesUploaded y)
  && value_eqb (uploadProgress x) (uploadProgress y)
  && value_eqb (uploadSpeed x) (uploadSpeed y)
  && value_eqb (status x) (status y) && value_eqb (uploadUrl x) (uploadUrl y)
  && value_eqb (error x) (error y).

(** The fields hold what their annotations say. *)
Definition valid (x : t) : bool :=
  is_str (fileName x) && is_int (fileSize x) && is_int (bytesUploaded x)
  && is_float (uploadProgress x) && is_int (uploadSpeed x)
  && is_str (status x) && is_str (uploadUrl x)
  && is_optional is_str (error x).

Definition has_nan (x : t) : bool := is_nan_value (uploadProgress x).

End UploadItem.

Module CommandMessage.

(** The [command] field: a member of [CommandType], as the annotation
    asks and as [from_json] builds it, or any other object, which
    [to_json] passes through. *)
Inductive command_field : Type :=
| Member (c : CommandType.t)
| Plain (v : value).

Record t : Type := mk {
  command : command_field;
  timestamp : value;
  deviceId : value;
  fileName : value;
  uploadUrl : value
}.

Definition to_json (self : t) : string :=
  let data :=
    VDict [("command",
            match command self with
            | Member c => VStr (CommandType.value c)
            | Plain v => v
            end);
           ("timestamp", timestamp self);
           ("deviceId", deviceId self);
           ("fileName", fileName self);
           ("uploadUrl", uploadUrl self)] in
  Json.dumps data.

Definition to_bytes (self : t) : list Byte.byte := encode_utf8 (to_json self).

Definition from_json (json_str : string) : result t :=
  data <- Json.loads json_str ;;
  raw <- subscript data "command" ;;
  command <- CommandType.of_value raw ;;
  timestamp <- subscript data "timestamp" ;;
  deviceId <- dict_get data "deviceId" (VStr "controller") ;;
  fileName <- dict_get data "fileName" VNone ;;
  uploadUrl <- dict_get data "uploadUrl" VNone ;;
  Ok (mk (Member command) timestamp deviceId fileName uploadUrl).



(** [a or b]. *)
Definition py_or (a b : value) : value := if truthy a then a else b.

Definition optional_float (x : option pyfloat) : value :=
  match x with
  | Some f => VFloat f
  | None => VNone
  end.

(** The named constructors.  [now] is what [time.time()] returns when
    the constructor runs; the arguments have the annotated types. *)
Definition start_recording (now : pyfloat) (timestamp : option pyfloat)
  (device_id : string) : t :=
  mk (Member CommandType.START_RECORDING)
     (py_or (optional_float timestamp) (VFloat now))
     (VStr device_id) VNone VNone.

Definition stop_recording (now : pyfloat) (device_id : string) : t :=
  mk (Member CommandType.STOP_RECORDING) (VFloat now) (VStr device_id)
     VNone VNone.

Definition device_status (now : pyfloat) (device_id : string) : t :=
  mk (Member CommandType.DEVICE_STATUS) (VFloat now) (VStr device_id)
     VNone VNone.

Definition get_video (now : pyfloat) (file_name device_id : string) : t :=
  mk (Member CommandType.GET_VIDEO) (VFloat now) (VStr device_id)
     (VStr file_name) VNone.

Definition heartbeat (now : pyfloat) (device_id : string) : t :=
  mk (Member CommandType.HEARTBEAT) (VFloat now) (VStr device_id) VNone VNone.

Definition list_files (now : pyfloat) (device_id : string) : t :=
  mk (Member CommandType.LIST_FILES) (VFloat now) (VStr device_id) VNone VNone.

Definition upload_to_cloud (now : pyfloat) (file_name upload_url device_id : string)
  : t :=
  mk (Member CommandType.UPLOAD_TO_CLOUD) (VFloat now) (VStr device_id)
     (VStr file_name) (VStr upload_url).

(** [==] on the [command] field: a member is a [str] and compares as
    its value. *)
Definition command_eqb (a b : command_field) : bool :=
  match a, b with
  | Member x, Member y => CommandType.eqb x y
  | Member x, Plain v => value_eqb (VStr (CommandType.value x)) v
  | Plain v, Member y => value_eqb v (VStr (CommandType.value y))
  | Plain v, Plain w => value_eqb v w
  end.

(** The generated [__eq__]. *)
Definition eqb (x y : t) : bool :=
  command_eqb (command x) (command y)
  && value_eqb (timestamp x) (timestamp y)
  && value_eqb (deviceId x) (deviceId y)
  && value_eqb (fileName x) (fileName y)
  && value_eqb (uploadUrl x) (uploadUrl y).

(** The fields hold what their annotations say. *)
Definition valid (x : t) : bool :=
  match command x with Member _ => true | Plain _ => false end
  && is_float (timestamp x) && is_str (deviceId x)
  && is_optional is_str (fileName x) && is_optional is_str (uploadUrl x).

Definition has_nan (x : t) : bool := is_nan_value (timestamp x).

(** Whether the command is the given member. *)
Definition is_command (c : CommandType.t) (x : t) : bool :=
  match command x with
  | Member c' => CommandType.eqb c c'
  | Plain _ => false
  end.

(** The invariant of the data model: [fileName] with GET_VIDEO and
    UPLOAD_TO_CLOUD, [uploadUrl] with UPLOAD_TO_CLOUD. *)
Definition required_fields_present (x : t) : bool :=
  (if is_command CommandType.GET_VIDEO x || is_command CommandType.UPLOAD_TO_CLOUD x
   then negb (value_eqb (fileName x) VNone) else true)
  && (if is_command CommandType.UPLOAD_TO_CLOUD x
      then negb (value_eqb (uploadUrl x) VNone) else true).

End CommandMessage.

Module StatusResponse.

Record t : Type := mk {
  deviceId : value;
  status : value;
  timestamp : value;
  batteryLevel : value;
  uploadQueue : list UploadItem.t;
  failedUploadQueue : list UploadItem.t
}.

(** [[UploadItem.from_dict(item) for item in data.get(key, [])]] *)
Definition upload_items (data : value) (key : string) : result (list UploadItem.t) :=
  raw <- dict_get data key (VList []) ;;
  items <- iterate raw ;;
  mapM UploadItem.from_dict items.

Definition from_json (json_str : string) : result t :=
  data <- Json.loads json_str ;;
  upload_queue <- upload_items data "uploadQueue" ;;
  failed_upload_queue <- upload_items data "failedUploadQueue" ;;
  deviceId <- subscript data "deviceId" ;;
  status <- subscript data "status" ;;
  timestamp <- subscript data "timestamp" ;;
  batteryLevel <- dict_get data "batteryLevel" VNone ;;
  Ok (mk deviceId status timestamp batteryLevel upload_queue failed_upload_queue).

Definition to_json (self : t) : string :=
  let data :=
    VDict [("deviceId", deviceId self);
           ("status", status self);
           ("timestamp", timestamp self);
           ("batteryLevel", batteryLevel self);
           ("uploadQueue", VList (map UploadItem.asdict (uploadQueue self)));
           ("failedUploadQueue",
            VList (map UploadItem.asdict (failedUploadQueue self)))] in
  Json.dumps data.

Definition eqb (x y : t) : bool :=
  value_eqb (deviceId x) (deviceId y) && value_eqb (status x) (status y)
  && value_eqb (timestamp x) (timestamp y)
  && value_eqb (batteryLevel x) (batteryLevel y)
  && list_eqb UploadItem.eqb (uploadQueue x) (uploadQueue y)
  && list_eqb UploadItem.eqb (failedUploadQueue x) (failedUploadQueue y).

Definition valid (x : t) : bool :=
  is_str (deviceId x) && is_str (status x) && is_float (timestamp x)
  && is_optional is_float (batteryLevel x)
  && forallb UploadItem.valid (uploadQueue x)
  && forallb UploadItem.valid (failedUploadQueue x).

Definition has_nan (x : t) : bool :=
  is_nan_value (timestamp x) || is_nan_value (batteryLevel x)
  || existsb UploadItem.has_nan (uploadQueue x)
  || existsb UploadItem.has_nan (failedUploadQueue x).

End StatusResponse.

Module StopRecordingResponse.

Record t : Type := mk {
  deviceId : value;
  status : value;
  timestamp : value;
  fileName : value;
  fileSize : value
}.

Definition from_json (json_str : string) : result t :=
  data <- Json.loads json_str ;;
  deviceId <- subscript data "deviceId" ;;
  status <- subscript data "status" ;;
  timestamp <- subscript data "timestamp" ;;
  fileName <- subscript data "fileName" ;;
  fileSize <- subscript data "fileSize" ;;
  Ok (mk deviceId status timestamp fileName fileSize).

Definition asdict (self : t) : value :=
  VDict [("deviceId", deviceId self); ("status", status self);
         ("timestamp", timestamp self); ("fileName", fileName self);
         ("fileSize", fileSize self)].

Definition to_json (self : t) : string := Json.dumps (asdict self).

Definition eqb (x y : t) : bool :=
  value_eqb (deviceId x) (deviceId y) && value_eqb (status x) (status y)
  && value_eqb (timestamp x) (timestamp y)
  && value_eqb (fileName x) (fileName y)
  && value_eqb (fileSize x) (fileSize y).

Definition valid (x : t) : bool :=
  is_str (deviceId x) && is_str (status x) && is_float (timestamp x)
  && is_str (fileName x) && is_int (fileSize x).

Definition has_nan (x : t) : bool := is_nan_value (timestamp x).

End StopRecordingResponse.

Module ErrorResponse.

Record t : Type := mk {
  deviceId : value;
  status : value;
  timestamp : value;
  message : value
}.

Definition from_json (json_str : string) : result t :=
  data <- Json.loads json_str ;;
  deviceId <- subscript data "deviceId" ;;
  status <- subscript data "status" ;;
  timestamp <- subscript data "timestamp" ;;
  message <- subscript data "message" ;;
  Ok (mk deviceId status timestamp message).

Definition asdict (self : t) : value :=
  VDict [("deviceId", deviceId self); ("status", status self);
         ("timestamp", timestamp self); ("message", message self)].

Definition to_json (self : t) : string := Json.dumps (asdict self).

Definition eqb (x y : t) : bool :=
  value_eqb (deviceId x) (deviceId y) && value_eqb (status x) (status y)
  && value_eqb (timestamp x) (timestamp y)
  && value_eqb (message x) (message y).

Definition valid (x : t) : bool :=
  is_str (deviceId x) && is_str (status x) && is_float (timestamp x)
  && is_str (message x).

Definition has_nan (x : t) : bool := is_nan_value (timestamp x).

End ErrorResponse.

Module FileMetadata.

Record t : Type := mk {
  fileName : value;
  fileSize : value;
  creationDate : value;
  modificationDate : value
}.

Definition from_dict (data : value) : result t :=
  fileName <- subscript data "fileName" ;;
  fileSize <- subscript data "fileSize" ;;
  creationDate <- subscript data "creationDate" ;;
  modificationDate <- subscript data "modificationDate" ;;
  Ok (mk fileName fileSize creationDate modificationDate).

Definition asdict (self : t) : value :=
  VDict [("fileName", fileName self); ("fileSize", fileSize self);
         ("creationDate", creationDate self);
         ("modificationDate", modificationDate self)].

Definition eqb (x y : t) : bool :=
  value_eqb (fileName x) (fileName y) && value_eqb (fileSize x) (fileSize y)
  && value_eqb (creationDate x) (creationDate y)
  && value_eqb (modificationDate x) (modificationDate y).

Definition valid (x : t) : bool :=
  is_str (fileName x) && is_int (fileSize x) && is_float (creationDate x)
  && is_float (modificationDate x).

Definition has_nan (x : t) : bool :=
  is_nan_value (creationDate x) || is_nan_value (modificationDate x).

End FileMetadata.

Module FileResponse.

Record t : Type := mk {
  deviceId : value;
  fileName : value;
  fileSize : value;
  status : value
}.

Definition from_json (json_str : string) : result t :=
  data <- Json.loads json_str ;;
  deviceId <- subscript data "deviceId" ;;
  fileName <- subscript data "fileName" ;;
  fileSize <- subscript data "fileSize" ;;
  status <- subscript data "status" ;;
  Ok (mk deviceId fileName fileSize status).

Definition asdict (self : t) : value :=
  VDict [("deviceId", deviceId self); ("fileName", fileName self);
         ("fileSize", fileSize self); ("status", status self)].

Definition to_json (self : t) : string := Json.dumps (asdict self).

Definition eqb (x y : t) : bool :=
  value_eqb (deviceId x) (deviceId y) && value_eqb (fileName x) (fileName y)
  && value_eqb (fileSize x) (fileSize y) && value_eqb (status x) (status y).

Definition valid (x : t) : bool :=
  is_str (deviceId x) && is_str (fileName x) && is_int (fileSize x)
  && is_str (status x).

End FileResponse.

Module ListFilesResponse.

Record t : Type := mk {
  deviceId : value;
  status : value;
  timestamp : value;
  files : list FileMetadata.t
}.

Definition from_json (json_str : string) : result t :=
  data <- Json.loads json_str ;;
  raw_files <- dict_get data "files" (VList []) ;;
  items <- iterate raw_files ;;
  files <- mapM FileMetadata.from_dict items ;;
  deviceId <- subscript data "deviceId" ;;
  status <- subscript data "status" ;;
  timestamp <- subscript data "timestamp" ;;
  Ok (mk deviceId status timestamp files).

Definition to_json (self : t) : string :=
  let data :=
    VDict [("deviceId", deviceId self);
           ("status", status self);
           ("timestamp", timestamp self);
           ("files", VList (map FileMetadata.asdict (files self)))] in
  Json.dumps data.

Definition eqb (x y : t) : bool :=
  value_eqb (deviceId x) (deviceId y) && value_eqb (status x) (status y)
  && value_eqb (timestamp x) (timestamp y)
  && list_eqb FileMetadata.eqb (files x) (files y).

Definition valid (x : t) : bool :=
  is_str (deviceId x) && is_str (status x) && is_float (timestamp x)
  && forallb FileMetadata.valid (files x).

Definition has_nan (x : t) : bool :=
  is_nan_value (timestamp x) || existsb FileMetadata.has_nan (files x).

End ListFilesResponse.


(** ** The framing of a file transfer *)

Module Wire.

(** A number below 2^32 as four bytes, the most significant first. *)
Definition be32 (n : N) : list Byte.byte :=
  [byte_of_N (n / 16777216 mod 256); byte_of_N (n / 65536 mod 256);
   byte_of_N (n / 256 mod 256); byte_of_N (n mod 256)]%N.

(** The number that bytes spell, the most significant first. *)
Definition be_value (bs : list Byte.byte) : N :=
  fold_left (fun acc b => acc * 256 + N_of_byte b)%N bs 0%N.

(** The errors of decoding, as the specification names them. *)
Inductive DecodeError : Type :=
| MalformedJson
| MissingField (name : string)
| UnknownCommand (name : string)
| TruncatedStream.

(** Exactly [n] bytes off the stream, or nothing when it is shorter. *)
Definition read_exactly (n : nat) (stream : list Byte.byte)
  : option (list Byte.byte * list Byte.byte) :=
  if (List.length stream <? n)%nat then None
  else Some (firstn n stream, skipn n stream).

(** Modelled from the spec: the response to a successful GET_VIDEO, of
    which the repository has the header type [FileResponse] and the
    three lines of its docstring, and no code that writes or reads it.
    "a 4-byte big-endian unsigned length prefix, followed by that many
    bytes of JSON-encoded FileResponse header, followed immediately by
    exactly fileSize raw bytes of file content". *)
Definition encode (header : FileResponse.t) (content : list Byte.byte)
  : list Byte.byte :=
  let h := encode_utf8 (FileResponse.to_json header) in
  be32 (N.of_nat (List.length h)) ++ h ++ content.

(** Modelled from the spec: the decoder of that framing, which is not
    in the repository either.  "read the length prefix, read exactly
    that many header bytes, parse JSON, then stream exactly fileSize
    payload bytes - short reads are a TruncatedStream".  The result is
    the header, the content and what follows it on the stream.  A
    header that does not decode as text, or whose fileSize is not a
    size, is reported as malformed. *)
Definition decode (stream : list Byte.byte)
  : DecodeError + (FileResponse.t * list Byte.byte * list Byte.byte) :=
  match read_exactly 4 stream with
  | None => inl TruncatedStream
  | Some (prefix, after_prefix) =>
      match read_exactly (N.to_nat (be_value prefix)) after_prefix with
      | None => inl TruncatedStream
      | Some (header_bytes, after_header) =>
          match decode_utf8 header_bytes with
          | None => inl MalformedJson
          | Some text =>
              match FileResponse.from_json text with
              | Raise (KeyError name) => inl (MissingField name)
              | Raise _ => inl MalformedJson
              | Ok header =>
                  match FileResponse.fileSize header with
                  | VInt size =>
                      if (size <? 0)%Z then inl MalformedJson
                      else
                        match read_exactly (Z.to_nat size) after_header with
                        | None => inl TruncatedStream
                        | Some (content, rest) => inr (header, content, rest)
                        end
                  | _ => inl MalformedJson
                  end
              end
          end
      end
  end.

(** A header and the content it announces: the fields hold what their
    annotations say, [fileSize] is the length of the content, and the
    length of the encoded header fits the prefix. *)
Definition announces (header : FileResponse.t) (content : list Byte.byte) : Prop :=
  FileResponse.valid header = true /\
  FileResponse.fileSize header = VInt (Z.of_nat (List.length content)) /\
  (N.of_nat (List.length (encode_utf8 (FileResponse.to_json header)))
   < 4294967296)%N.

End Wire.

(** ** Words for the decoders *)

(** Whether a value is a dict. *)
Definition is_dict (v : value) : bool :=
  match v with VDict _ => true | _ => false end.

(** The first of the keys, in their order, that the dict lacks. *)
Fixpoint first_missing (keys : list string) (d : list (string * value))
  : option string :=
  match keys with
  | [] => None
  | k :: r =>
      match lookup k d with
      | Some _ => first_missing r d
      | None => Some k
      end
  end.

(** Two dicts hold the same under each of the keys. *)
Definition agree_on (keys : list string) (d d' : list (string * value)) : Prop :=
  forall k, In k keys -> lookup k d = lookup k d'.

(** A character below 128, and a byte below 128. *)
Definition is_ascii7 (c : ascii) : bool := (N_of_ascii c <? 128)%N.

Definition is_byte7 (b : Byte.byte) : bool := (N_of_byte b <? 128)%N.

(** ** The round trip

    [from_json(to_json(x)) == x]: the text of [x] decodes, to an object
    that [==] holds equal to [x]. *)
Definition round_trips {A : Type} (to_json : A -> string)
  (from_json : string -> result A) (eqb : A -> A -> bool) (x : A) : Prop :=
  exists y, from_json (to_json x) = Ok y /\ eqb y x = true.

(** * Properties *)

(** ** The [json] module: [loads] reads back what [dumps] writes *)

Section JsonRoundTrip.

Import Json.
Local Open Scope list_scope.
Local Open Scope char_scope.

Arguments digit_of_char : simpl never.
Arguments hex_val : simpl never.

Lemma digit_of_char_digit_char (d : digit) : digit_of_char (digit_char d) = Some d.
Proof. destruct d; reflexivity. Qed.


Lemma scan_digits_emit (ds : list digit) (rest : list ascii) :
  no_digit rest -> scan_digits (emit_digits ds ++ rest) = (ds, rest).
Proof.
  intros Hrest. induction ds as [|d ds IH]; simpl.
  - destruct rest as [|c r]; [reflexivity|]. simpl in *. now rewrite Hrest.
  - rewrite digit_of_char_digit_char. now rewrite IH.
Qed.

Lemma uint_of_digits_of_uint (u : uint) : uint_of_digits (digits_of_uint u) = u.
Proof. induction u; simpl; congruence. Qed.

Lemma delimited_cases (c : ascii) (r : list ascii) :
  delimited (c :: r) = true -> c = "," \/ c = "]" \/ c = "}".
Proof.
  simpl. intros H.
  apply orb_prop in H. destruct H as [H|H].
  - apply orb_prop in H. destruct H as [H|H]; apply Ascii.eqb_eq in H; auto.
  - apply Ascii.eqb_eq in H; auto.
Qed.

Ltac by_delimiter rest H :=
  destruct rest as [|?c ?r];
  [ | destruct (delimited_cases _ _ H) as [-> | [-> | ->]] ].

Lemma delimited_no_digit (rest : list ascii) : delimited rest = true -> no_digit rest.
Proof. intros H. by_delimiter rest H; simpl; auto. Qed.

Lemma scan_frac_delimited (rest : list ascii) :
  delimited rest = true -> scan_frac rest = (None, rest).
Proof. intros H. by_delimiter rest H; reflexivity. Qed.

Lemma scan_exp_delimited (rest : list ascii) :
  delimited rest = true -> scan_exp rest = (None, rest).
Proof. intros H. by_delimiter rest H; reflexivity. Qed.

Lemma scan_int_emit (d : digit) (ds : list digit) (rest : list ascii) :
  is_d0 d = false -> no_digit rest ->
  scan_int (emit_digits (d :: ds) ++ rest) = Some (d :: ds, rest).
Proof.
  intros Hd Hrest. simpl. rewrite digit_of_char_digit_char.
  fold (emit_digits ds). rewrite (scan_digits_emit ds rest Hrest).
  destruct d; (discriminate Hd || reflexivity).
Qed.

Lemma to_uint_unorm (p : positive) : unorm (Pos.to_uint p) = Pos.to_uint p.
Proof.
  rewrite <- (DecimalPos.Unsigned.to_of (Pos.to_uint p)).
  now rewrite DecimalPos.Unsigned.of_to.
Qed.

Lemma to_uint_head (p : positive) :
  exists d ds, digits_of_uint (Pos.to_uint p) = d :: ds /\ is_d0 d = false.
Proof.
  pose proof (to_uint_unorm p) as Hn.
  pose proof (DecimalPos.Unsigned.to_uint_nonzero p) as Hz.
  assert (Hh : nzhead (Pos.to_uint p) = Pos.to_uint p).
  { rewrite <- Hn at 2. symmetry. apply unorm_nzhead.
    intros E. apply unorm_0 in E. congruence. }
  pose proof (nzhead_nonzero (Pos.to_uint p)) as Hnz. rewrite Hh in Hnz.
  pose proof (DecimalPos.Unsigned.to_uint_nonnil p) as Hnil.
  destruct (Pos.to_uint p) as [|u|u|u|u|u|u|u|u|u|u]; simpl;
    try (eexists; eexists; split; [reflexivity | reflexivity]).
  - congruence.
  - exfalso. apply (Hnz u). reflexivity.
Qed.

Lemma scan_magnitude_int (neg : bool) (d : digit) (ds : list digit) (rest : list ascii) :
  (is_d0 d = false \/ ds = []) -> delimited rest = true ->
  scan_magnitude neg (emit_digits (d :: ds) ++ rest)
  = Some (VInt (int_of_literal neg (d :: ds)), rest).
Proof.
  intros Hd Hrest. unfold scan_magnitude.
  assert (Hi : scan_int (emit_digits (d :: ds) ++ rest) = Some (d :: ds, rest)).
  { destruct Hd as [Hd | ->].
    - apply scan_int_emit; [assumption | now apply delimited_no_digit].
    - destruct d; try (apply scan_int_emit;
        [reflexivity | now apply delimited_no_digit]).
      reflexivity. }
  rewrite Hi, (scan_frac_delimited rest Hrest), (scan_exp_delimited rest Hrest).
  reflexivity.
Qed.

(** floats *)

Lemma strip_leading_zeros (k : nat) (ds : list digit) (e : Z) :
  strip_leading (zeros k ++ ds) e = strip_leading ds (e - Z.of_nat k).
Proof.
  revert e. induction k as [|k IH]; intros e.
  - simpl. f_equal. lia.
  - change (zeros (S k) ++ ds) with (d0 :: (zeros k ++ ds)).
    simpl strip_leading. rewrite IH. f_equal. lia.
Qed.

Lemma strip_leading_head (d : digit) (ds : list digit) (e : Z) :
  is_d0 d = false -> strip_leading (d :: ds) e = (d :: ds, e).
Proof. destruct d; (discriminate || reflexivity). Qed.

Lemma drop_zeros_zeros (k : nat) (l : list digit) :
  drop_zeros (zeros k ++ l) = drop_zeros l.
Proof. induction k as [|k IH]; [reflexivity | exact IH]. Qed.

Lemma drop_zeros_head (d : digit) (l : list digit) :
  is_d0 d = false -> drop_zeros (d :: l) = d :: l.
Proof. destruct d; (discriminate || reflexivity). Qed.

Lemma rev_zeros (k : nat) : List.rev (zeros k) = zeros k.
Proof. apply rev_repeat. Qed.

Lemma last_default (l : list digit) (x a b : digit) :
  last (x :: l) a = last (x :: l) b.
Proof.
  revert x. induction l as [|y l IH]; intros x; [reflexivity|].
  change (last (y :: l) a = last (y :: l) b). apply IH.
Qed.

Lemma last_cons (d : digit) (ds : list digit) :
  exists l, d :: ds = l ++ [last ds d].
Proof.
  revert d. induction ds as [|a ds IH]; intros d.
  - exists []. reflexivity.
  - destruct (IH a) as [l Hl]. exists (d :: l).
    simpl List.app. f_equal. rewrite Hl at 1. f_equal. f_equal.
    destruct ds as [|b ds]; [reflexivity|].
    change (last (b :: ds) a = last (b :: ds) d). apply last_default.
Qed.

Lemma strip_trailing_ok (d : digit) (ds : list digit) :
  is_d0 (last ds d) = false -> strip_trailing (d :: ds) = d :: ds.
Proof.
  intros H. destruct (last_cons d ds) as [l Hl].
  unfold strip_trailing. rewrite Hl at 1. rewrite rev_app_distr.
  change (List.rev [last ds d] ++ List.rev l) with (last ds d :: List.rev l).
  rewrite (drop_zeros_head _ _ H).
  change (List.rev (last ds d :: List.rev l))
    with (List.rev (List.rev l) ++ [last ds d]).
  rewrite rev_involutive. now symmetry.
Qed.

Lemma strip_trailing_zeros (l : list digit) (k : nat) :
  strip_trailing (l ++ zeros k) = strip_trailing l.
Proof.
  unfold strip_trailing. now rewrite rev_app_distr, rev_zeros, drop_zeros_zeros.
Qed.

Lemma to_uint_nonnil (n : N) : digits_of_uint (N.to_uint n) <> [].
Proof.
  destruct n as [|p]; simpl; [discriminate|].
  destruct (to_uint_head p) as [d [ds [E _]]]. rewrite E. discriminate.
Qed.

Lemma digits_to_Z_to_uint (n : N) :
  digits_to_Z (digits_of_uint (N.to_uint n)) = Z.of_N n.
Proof.
  unfold digits_to_Z. now rewrite uint_of_digits_of_uint, DecimalN.Unsigned.of_to.
Qed.

Lemma exponent_digits_val (x : Z) : digits_to_Z (exponent_digits x) = Z.abs x.
Proof.
  unfold exponent_digits.
  pose proof (digits_to_Z_to_uint (Z.to_N (Z.abs x))) as H.
  rewrite Z2N.id in H by lia.
  destruct (digits_of_uint (N.to_uint (Z.to_N (Z.abs x)))) as [|d [|d' l]];
    exact H.
Qed.

Lemma exponent_digits_nonnil (x : Z) : exponent_digits x <> [].
Proof.
  unfold exponent_digits.
  pose proof (to_uint_nonnil (Z.to_N (Z.abs x))) as H.
  destruct (digits_of_uint (N.to_uint (Z.to_N (Z.abs x)))) as [|d [|d' l]];
    [congruence | discriminate | discriminate].
Qed.

Lemma scan_exp_emit (x : Z) (rest : list ascii) :
  no_digit rest -> scan_exp (emit_exponent x ++ rest) = (Some x, rest).
Proof.
  intros Hrest. unfold emit_exponent.
  pose proof (exponent_digits_val x) as Hv.
  pose proof (exponent_digits_nonnil x) as Hn.
  destruct (x <? 0)%Z eqn:Hx; simpl;
    rewrite (scan_digits_emit _ rest Hrest);
    destruct (exponent_digits x) as [|d l]; try congruence;
    rewrite Hv; do 2 f_equal.
  - apply Z.ltb_lt in Hx. lia.
  - apply Z.ltb_ge in Hx. lia.
Qed.


Lemma scan_int_part (ip : list digit) (s : list ascii) :
  int_part ip -> no_digit s -> scan_int (emit_digits ip ++ s) = Some (ip, s).
Proof.
  intros [-> | [d [l [-> Hd]]]] Hs.
  - reflexivity.
  - now apply scan_int_emit.
Qed.

Lemma scan_frac_emit (f : list digit) (s : list ascii) :
  f <> [] -> no_digit s ->
  scan_frac ("." :: emit_digits f ++ s) = (Some f, s).
Proof.
  intros Hf Hs. unfold scan_frac. rewrite (scan_digits_emit f s Hs).
  destruct f; [congruence | reflexivity].
Qed.

Lemma scan_magnitude_positional (neg : bool) (ip f : list digit) (rest : list ascii) :
  int_part ip -> f <> [] -> delimited rest = true ->
  scan_magnitude neg (emit_digits ip ++ "." :: emit_digits f ++ rest)
  = Some (VFloat (float_of_literal neg ip f 0), rest).
Proof.
  intros Hip Hf Hrest. unfold scan_magnitude.
  rewrite (scan_int_part ip _ Hip) by exact eq_refl.
  rewrite (scan_frac_emit f rest Hf (delimited_no_digit _ Hrest)).
  now rewrite (scan_exp_delimited rest Hrest).
Qed.

Lemma scan_magnitude_scientific (neg : bool) (d : digit) (tl : list digit)
  (x : Z) (rest : list ascii) :
  is_d0 d = false -> no_digit rest ->
  scan_magnitude neg
    (digit_char d :: (match tl with [] => [] | _ => "." :: emit_digits tl end)
       ++ emit_exponent x ++ rest)
  = Some (VFloat (float_of_literal neg [d] tl x), rest).
Proof.
  intros Hd Hrest. unfold scan_magnitude.
  change (digit_char d :: ?s) with (emit_digits [d] ++ s).
  destruct tl as [|t tl].
  - rewrite scan_int_part; [| right; eauto | exact eq_refl].
    change (scan_frac ([] ++ emit_exponent x ++ rest))
      with (@None (list digit), emit_exponent x ++ rest).
    cbv beta iota. now rewrite (scan_exp_emit x rest Hrest).
  - rewrite scan_int_part; [| right; eauto | exact eq_refl].
    change (("." :: emit_digits (t :: tl)) ++ emit_exponent x ++ rest)
      with ("." :: emit_digits (t :: tl) ++ emit_exponent x ++ rest).
    rewrite scan_frac_emit; [| discriminate | exact eq_refl].
    cbv beta iota. now rewrite (scan_exp_emit x rest Hrest).
Qed.

Lemma float_of_literal_canonical (neg : bool) (ip fr : list digit) (ex : Z)
  (a b : nat) (d : digit) (tl : list digit) :
  ip ++ fr = zeros a ++ (d :: tl) ++ zeros b ->
  is_d0 d = false -> is_d0 (last tl d) = false ->
  float_of_literal neg ip fr ex
  = FFinite neg (d :: tl) (Z.of_nat (List.length ip) + ex - Z.of_nat a).
Proof.
  intros E Hd Hl. unfold float_of_literal. rewrite E, strip_leading_zeros.
  change ((d :: tl) ++ zeros b) with (d :: (tl ++ zeros b)).
  rewrite (strip_leading_head _ _ _ Hd).
  change (d :: (tl ++ zeros b)) with ((d :: tl) ++ zeros b).
  now rewrite strip_trailing_zeros, (strip_trailing_ok _ _ Hl).
Qed.

Lemma float_ok_digits (neg : bool) (d : digit) (tl : list digit) (e : Z) :
  float_ok (FFinite neg (d :: tl) e) = true ->
  is_d0 d = false /\ is_d0 (last tl d) = false.
Proof.
  simpl. intros H. apply andb_prop in H. destruct H as [H1 H2].
  split; now apply negb_true_iff.
Qed.

Lemma scan_magnitude_float (neg : bool) (ds : list digit) (e : Z) (rest : list ascii) :
  float_ok (FFinite neg ds e) = true -> delimited rest = true ->
  scan_magnitude neg (float_digits ds e ++ rest)
  = Some (VFloat (FFinite neg ds e), rest).
Proof.
  intros Hok Hrest. pose proof (delimited_no_digit _ Hrest) as Hnd.
  destruct ds as [|d tl].
  - simpl in Hok. apply Z.eqb_eq in Hok. subst e.
    change (float_digits [] 0 ++ rest)
      with (emit_digits [d0] ++ "." :: emit_digits [d0] ++ rest).
    rewrite scan_magnitude_positional; auto; [left; reflexivity | discriminate].
  - destruct (float_ok_digits _ _ _ _ Hok) as [Hd Hl].
    unfold float_digits.
    destruct ((e <=? -4) || (16 <? e))%Z eqn:Hsci.
    + change ((digit_char d :: ?u ++ emit_exponent (e - 1)) ++ rest)
        with (digit_char d :: (u ++ emit_exponent (e - 1)) ++ rest).
      rewrite <- List.app_assoc.
      rewrite (scan_magnitude_scientific neg d tl (e - 1) rest Hd Hnd).
      rewrite (float_of_literal_canonical neg [d] tl (e - 1) 0 0 d tl); auto.
      * repeat f_equal. simpl List.length. lia.
      * simpl. now rewrite List.app_nil_r.
    + destruct (e <=? 0)%Z eqn:Hneg.
      * apply Z.leb_le in Hneg.
        change (("0" :: "." :: ?u) ++ rest)
          with (emit_digits [d0] ++ "." :: u ++ rest).
        rewrite scan_magnitude_positional; auto;
          [| left; reflexivity | destruct (Z.to_nat (- e)); discriminate].
        rewrite (float_of_literal_canonical neg [d0] _ 0 (S (Z.to_nat (- e))) 0 d tl);
          auto.
        -- repeat f_equal. simpl List.length. lia.
        -- simpl. now rewrite List.app_nil_r.
      * apply Z.leb_gt in Hneg.
        destruct (e <? Z.of_nat (List.length (d :: tl)))%Z eqn:Hin.
        -- apply Z.ltb_lt in Hin. rewrite <- List.app_assoc.
           change (("." :: ?u) ++ rest) with ("." :: u ++ rest).
           assert (Hp : (0 < Z.to_nat e < List.length (d :: tl))%nat) by lia.
           rewrite scan_magnitude_positional; auto.
           ++ rewrite (float_of_literal_canonical neg _ _ 0 0 0 d tl); auto.
              ** repeat f_equal. rewrite length_firstn. lia.
              ** rewrite firstn_skipn. simpl. now rewrite List.app_nil_r.
           ++ right. destruct (Z.to_nat e) as [|p]; [lia|].
              simpl. eauto.
           ++ intros E. apply (f_equal (@List.length digit)) in E.
              rewrite length_skipn in E.
              change (List.length (@nil digit)) with 0%nat in E. lia.
        -- apply Z.ltb_ge in Hin. rewrite <- List.app_assoc.
           change (chars ".0" ++ rest) with ("." :: emit_digits [d0] ++ rest).
           rewrite scan_magnitude_positional; auto.
           ++ rewrite (float_of_literal_canonical neg _ _ 0 0
                         (S (Z.to_nat (e - Z.of_nat (List.length (d :: tl))))) d tl);
                auto.
              ** repeat f_equal. rewrite length_app. unfold zeros.
                 rewrite repeat_length. lia.
              ** rewrite <- List.app_assoc. simpl. do 2 f_equal.
                 unfold zeros. symmetry. apply repeat_cons.
           ++ right. simpl. eauto.
           ++ discriminate.
Qed.

(** strings *)

Lemma scan_string_escape_char (c : ascii) (r : list ascii) :
  scan_string (escape_char c ++ r)
  = match scan_string r with
    | Some (str, rest) => Some (String c str, rest)
    | None => None
    end.
Proof. destruct c as [[] [] [] [] [] [] [] []]; reflexivity. Qed.

Lemma scan_string_escape (s : string) (rest : list ascii) :
  scan_string (escape s ++ dquote :: rest) = Some (s, rest).
Proof.
  induction s as [|c s IH].
  - reflexivity.
  - simpl escape. rewrite <- List.app_assoc, scan_string_escape_char.
    now rewrite IH.
Qed.

(** first characters *)



Ltac first_char_cases H :=
  let c := fresh "c" in
  let r := fresh "r" in
  let E := fresh "E" in
  let Hc := fresh "Hc" in
  destruct H as [c [r [E Hc]]]; rewrite E in *; clear E;
  unfold first_chars in Hc; simpl In in Hc;
  repeat (destruct Hc as [<- | Hc]; [ | ]); [ .. | destruct Hc].

Lemma skip_ws_starts (s : list ascii) : starts_value s -> skip_ws s = s.
Proof. intros H. first_char_cases H; reflexivity. Qed.

Lemma digit_char_first (d : digit) : In (digit_char d) first_chars.
Proof. destruct d; simpl; auto 20. Qed.

Lemma emit_digits_starts (d : digit) (ds : list digit) (s : list ascii) :
  starts_value (emit_digits (d :: ds) ++ s).
Proof.
  exists (digit_char d), (emit_digits ds ++ s). split; [reflexivity|].
  apply digit_char_first.
Qed.

Lemma minus_starts (s : list ascii) : starts_value ("-" :: s).
Proof. exists "-", s. split; [reflexivity | simpl; auto 20]. Qed.


Lemma float_digits_head (ds : list digit) (e : Z) :
  exists d r, float_digits ds e = digit_char d :: r.
Proof.
  destruct ds as [|d tl].
  - exists d0. eexists. reflexivity.
  - unfold float_digits.
    destruct ((e <=? -4) || (16 <? e))%Z; [eexists; eexists; reflexivity|].
    destruct (e <=? 0)%Z eqn:Hneg; [exists d0; eexists; reflexivity|].
    apply Z.leb_gt in Hneg.
    destruct (e <? Z.of_nat (List.length (d :: tl)))%Z.
    + destruct (Z.to_nat e) as [|p] eqn:Hp; [lia|].
      eexists; eexists; reflexivity.
    + eexists; eexists; reflexivity.
Qed.

Lemma parse_value_digit (fuel : nat) (d : digit) (s : list ascii) :
  parse_value (S fuel) (digit_char d :: s) = scan_magnitude false (digit_char d :: s).
Proof. destruct d; reflexivity. Qed.

Lemma parse_value_minus_digit (fuel : nat) (d : digit) (s : list ascii) :
  parse_value (S fuel) ("-" :: digit_char d :: s)
  = scan_magnitude true (digit_char d :: s).
Proof. destruct d; reflexivity. Qed.

Lemma emit_int_zero : emit_int 0 = emit_digits [d0].
Proof. reflexivity. Qed.

Lemma emit_int_pos (p : positive) :
  exists d ds, is_d0 d = false /\ digits_of_uint (Pos.to_uint p) = d :: ds /\
    emit_int (Z.pos p) = emit_digits (d :: ds) /\
    emit_int (Z.neg p) = "-" :: emit_digits (d :: ds).
Proof.
  destruct (to_uint_head p) as [d [ds [E Hd]]]. exists d, ds.
  unfold emit_int. simpl Z.to_int. repeat split; auto; now rewrite E.
Qed.

Lemma int_of_literal_to_uint (neg : bool) (p : positive) :
  int_of_literal neg (digits_of_uint (Pos.to_uint p))
  = if neg then Z.neg p else Z.pos p.
Proof.
  unfold int_of_literal. rewrite uint_of_digits_of_uint. destruct neg.
  - change (Neg (Pos.to_uint p)) with (Z.to_int (Z.neg p)). apply DecimalZ.of_to.
  - change (Pos (Pos.to_uint p)) with (Z.to_int (Z.pos p)). apply DecimalZ.of_to.
Qed.

Lemma parse_value_int (fuel : nat) (z : Z) (rest : list ascii) :
  delimited rest = true ->
  parse_value (S fuel) (emit_int z ++ rest) = Some (VInt z, rest).
Proof.
  intros Hrest. destruct z as [|p|p].
  - rewrite emit_int_zero.
    change (emit_digits [d0] ++ rest) with (digit_char d0 :: rest).
    rewrite parse_value_digit.
    change (digit_char d0 :: rest) with (emit_digits [d0] ++ rest).
    rewrite scan_magnitude_int; auto.
  - destruct (emit_int_pos p) as [d [ds [Hd [E [Hp _]]]]]. rewrite Hp.
    change (emit_digits (d :: ds) ++ rest)
      with (digit_char d :: (emit_digits ds ++ rest)).
    rewrite parse_value_digit.
    change (digit_char d :: (emit_digits ds ++ rest))
      with (emit_digits (d :: ds) ++ rest).
    rewrite scan_magnitude_int; auto.
    now rewrite <- E, int_of_literal_to_uint.
  - destruct (emit_int_pos p) as [d [ds [Hd [E [_ Hn]]]]]. rewrite Hn.
    change (("-" :: emit_digits (d :: ds)) ++ rest)
      with ("-" :: digit_char d :: (emit_digits ds ++ rest)).
    rewrite parse_value_minus_digit.
    change (digit_char d :: (emit_digits ds ++ rest))
      with (emit_digits (d :: ds) ++ rest).
    rewrite scan_magnitude_int; auto.
    now rewrite <- E, int_of_literal_to_uint.
Qed.

Lemma emit_int_starts (z : Z) (s : list ascii) : starts_value (emit_int z ++ s).
Proof.
  destruct z as [|p|p].
  - apply emit_digits_starts.
  - destruct (emit_int_pos p) as [d [ds [_ [_ [-> _]]]]]. apply emit_digits_starts.
  - destruct (emit_int_pos p) as [d [ds [_ [_ [_ ->]]]]]. apply minus_starts.
Qed.

Lemma parse_value_float (fuel : nat) (f : pyfloat) (rest : list ascii) :
  float_ok f = true -> delimited rest = true ->
  parse_value (S fuel) (floatstr f ++ rest) = Some (VFloat f, rest).
Proof.
  intros Hok Hrest. destruct f as [neg ds e|neg|].
  - unfold floatstr, float_repr.
    pose proof (scan_magnitude_float neg ds e rest Hok Hrest) as H.
    destruct (float_digits_head ds e) as [d [r E]]. rewrite E in *.
    destruct neg.
    + change ((["-"] ++ digit_char d :: r) ++ rest)
        with ("-" :: digit_char d :: (r ++ rest)).
      rewrite parse_value_minus_digit. exact H.
    + change (([] ++ digit_char d :: r) ++ rest)
        with (digit_char d :: (r ++ rest)).
      rewrite parse_value_digit. exact H.
  - destruct neg; reflexivity.
  - reflexivity.
Qed.

Lemma floatstr_starts (f : pyfloat) (s : list ascii) : starts_value (floatstr f ++ s).
Proof.
  destruct f as [neg ds e|neg|].
  - unfold floatstr, float_repr. destruct neg.
    + apply minus_starts.
    + destruct (float_digits_head ds e) as [d [r E]]. rewrite E.
      exists (digit_char d), (r ++ s). split; [reflexivity | apply digit_char_first].
  - destruct neg; eexists; eexists; (split; [reflexivity | simpl; auto 20]).
  - eexists; eexists; (split; [reflexivity | simpl; auto 20]).
Qed.

Lemma parse_value_string (fuel : nat) (s : string) (rest : list ascii) :
  parse_value (S fuel) (emit_string s ++ rest) = Some (VStr s, rest).
Proof.
  unfold emit_string.
  change ((dquote :: escape s ++ [dquote]) ++ rest)
    with (dquote :: (escape s ++ [dquote]) ++ rest).
  rewrite <- List.app_assoc. simpl parse_value.
  change ([dquote] ++ rest) with (dquote :: rest).
  now rewrite scan_string_escape.
Qed.


Lemma emit_starts (v : value) (s : list ascii) : starts_value (emit v ++ s).
Proof.
  destruct v as [|b|z|f|str|l|d].
  - eexists; eexists; (split; [reflexivity | simpl; auto 20]).
  - destruct b; eexists; eexists; (split; [reflexivity | simpl; auto 20]).
  - apply emit_int_starts.
  - apply floatstr_starts.
  - eexists; eexists; (split; [reflexivity | simpl; auto 20]).
  - eexists; eexists; (split; [reflexivity | simpl; auto 20]).
  - eexists; eexists; (split; [reflexivity | simpl; auto 20]).
Qed.



Lemma join_cons2 (p q : list ascii) (r : list (list ascii)) :
  join separator (p :: q :: r) = p ++ "," :: " " :: join separator (q :: r).
Proof. reflexivity. Qed.

Lemma join_starts (parts : list (list ascii)) (p : list ascii) (s : list ascii) :
  (forall t, starts_value (p ++ t)) -> starts_value (join separator (p :: parts) ++ s).
Proof.
  intros Hp. destruct parts as [|q r].
  - apply Hp.
  - rewrite join_cons2, <- List.app_assoc. apply Hp.
Qed.

Lemma parse_elements_step (fuel : nat) (s : list ascii) :
  parse_elements (S fuel) s
  = match parse_value fuel s with
    | None => None
    | Some (v, r) =>
        match skip_ws r with
        | "]" :: r' => Some ([v], r')
        | "," :: r' =>
            match parse_elements fuel (skip_ws r') with
            | Some (vs, r'') => Some (v :: vs, r'')
            | None => None
            end
        | _ => None
        end
    end.
Proof. reflexivity. Qed.

Lemma parse_elements_emit (l : list value) :
  Forall reads_back l ->
  forall v fuel rest,
    reads_back v -> forallb wf (v :: l) = true ->
    (list_sum (map (fun x => S (size x)) (v :: l)) <= fuel)%nat ->
    parse_elements fuel (join separator (map emit (v :: l)) ++ "]" :: rest)
    = Some (v :: l, rest).
Proof.
  induction 1 as [|w l Hw Hl IH]; intros v fuel rest Hv Hwf Hfuel.
  - simpl in Hwf, Hfuel. apply andb_prop in Hwf. destruct Hwf as [Hwf _].
    destruct fuel as [|fuel]; [lia|]. rewrite parse_elements_step.
    simpl map. simpl join.
    rewrite (Hv fuel ("]" :: rest) Hwf); [reflexivity | lia | reflexivity].
  - simpl forallb in Hwf. apply andb_prop in Hwf. destruct Hwf as [Hwfv Hwfl].
    simpl map in Hfuel. simpl list_sum in Hfuel.
    destruct fuel as [|fuel]; [lia|]. rewrite parse_elements_step.
    change (map emit (v :: w :: l)) with (emit v :: emit w :: map emit l).
    rewrite join_cons2, <- List.app_assoc.
    rewrite (Hv fuel _ Hwfv); [| lia | reflexivity].
    change (skip_ws (("," :: " " :: join separator (emit w :: map emit l)) ++ "]" :: rest))
      with ("," :: " " :: join separator (emit w :: map emit l) ++ "]" :: rest).
    cbv beta iota.
    change (skip_ws (" " :: ?s)) with (skip_ws s).
    rewrite skip_ws_starts by (apply join_starts, emit_starts).
    change (emit w :: map emit l) with (map emit (w :: l)).
    rewrite (IH w fuel rest Hw Hwfl); [reflexivity|].
    simpl map. simpl list_sum. lia.
Qed.


Lemma emit_member_starts (kv : string * value) (t : list ascii) :
  starts_value (emit_member kv ++ t).
Proof.
  eexists; eexists; (split; [reflexivity | simpl; auto 20]).
Qed.

Lemma parse_members_step (fuel : nat) (k : string) (s : list ascii) :
  parse_members (S fuel) (emit_string k ++ ":" :: " " :: s)
  = match parse_value fuel (skip_ws s) with
    | None => None
    | Some (v, r3) =>
        match skip_ws r3 with
        | "}" :: r4 => Some ([(k, v)], r4)
        | "," :: r4 =>
            match parse_members fuel (skip_ws r4) with
            | Some (ps, r5) => Some ((k, v) :: ps, r5)
            | None => None
            end
        | _ => None
        end
    end.
Proof.
  unfold emit_string.
  change ((dquote :: escape k ++ [dquote]) ++ ":" :: " " :: s)
    with (dquote :: (escape k ++ [dquote]) ++ ":" :: " " :: s).
  rewrite <- List.app_assoc.
  change ([dquote] ++ ":" :: " " :: s) with (dquote :: ":" :: " " :: s).
  simpl parse_members. now rewrite scan_string_escape.
Qed.

Lemma parse_members_emit (d : list (string * value)) :
  Forall (fun kv => reads_back (snd kv)) d ->
  forall kv fuel rest,
    reads_back (snd kv) -> forallb (fun kv => wf (snd kv)) (kv :: d) = true ->
    (list_sum (map (fun kv => S (size (snd kv))) (kv :: d)) <= fuel)%nat ->
    parse_members fuel (join separator (map emit_member (kv :: d)) ++ "}" :: rest)
    = Some (kv :: d, rest).
Proof.
  induction 1 as [|w d Hw Hd IH]; intros [k v] fuel rest Hv Hwf Hfuel;
    change (reads_back v) in Hv.
  - simpl in Hwf, Hfuel. apply andb_prop in Hwf. destruct Hwf as [Hwf _].
    destruct fuel as [|fuel]; [lia|].
    simpl map. simpl join. unfold emit_member. simpl fst. simpl snd.
    rewrite <- !List.app_assoc.
    change (chars ": " ++ emit v ++ "}" :: rest)
      with (":" :: " " :: emit v ++ "}" :: rest).
    rewrite parse_members_step.
    rewrite skip_ws_starts by apply emit_starts.
    rewrite (Hv fuel ("}" :: rest) Hwf); [reflexivity | lia | reflexivity].
  - simpl forallb in Hwf. apply andb_prop in Hwf. destruct Hwf as [Hwfv Hwfl].
    simpl map in Hfuel. simpl list_sum in Hfuel. simpl snd in *.
    destruct fuel as [|fuel]; [lia|].
    change (map emit_member ((k, v) :: w :: d))
      with (emit_member (k, v) :: emit_member w :: map emit_member d).
    rewrite join_cons2. unfold emit_member at 1. simpl fst. simpl snd.
    rewrite <- !List.app_assoc.
    change (chars ": " ++ ?s) with (":" :: " " :: s).
    rewrite parse_members_step.
    rewrite skip_ws_starts by apply emit_starts.
    rewrite (Hv fuel _ Hwfv); [| lia | reflexivity].
    change (skip_ws (("," :: " " :: join separator (emit_member w :: map emit_member d)) ++ "}" :: rest))
      with ("," :: " " :: join separator (emit_member w :: map emit_member d) ++ "}" :: rest).
    cbv beta iota.
    change (skip_ws (" " :: ?s)) with (skip_ws s).
    rewrite skip_ws_starts by (apply join_starts, emit_member_starts).
    change (emit_member w :: map emit_member d) with (map emit_member (w :: d)).
    rewrite (IH w fuel rest Hw Hwfl); [reflexivity|].
    simpl map. simpl list_sum. lia.
Qed.

(** dicts *)

Lemma mem_app (k : string) (l1 l2 : list string) :
  mem k (l1 ++ l2) = mem k l1 || mem k l2.
Proof. unfold mem. apply existsb_app. Qed.

Lemma distinct_app_cons (l1 l2 : list string) (k : string) :
  distinct (l1 ++ k :: l2) = true -> mem k l1 = false.
Proof.
  induction l1 as [|a l1 IH]; [reflexivity|].
  simpl. intros H. apply andb_prop in H. destruct H as [Ha Hd].
  rewrite (IH Hd), orb_false_r.
  apply negb_true_iff in Ha. rewrite mem_app in Ha.
  apply orb_false_elim in Ha. destruct Ha as [_ Ha].
  simpl in Ha. apply orb_false_elim in Ha. destruct Ha as [Ha _].
  now rewrite String.eqb_sym.
Qed.

Lemma dict_set_fresh (k : string) (v : value) (d : list (string * value)) :
  mem k (map fst d) = false -> dict_set k v d = d ++ [(k, v)].
Proof.
  induction d as [|[k' v'] d IH]; [reflexivity|].
  simpl. intros H. apply orb_false_elim in H. destruct H as [Hk Hd].
  rewrite Hk. now rewrite (IH Hd).
Qed.

Lemma fold_dict_set (ps acc : list (string * value)) :
  distinct (map fst (acc ++ ps)) = true ->
  fold_left (fun d kv => dict_set (fst kv) (snd kv) d) ps acc = acc ++ ps.
Proof.
  revert acc. induction ps as [|[k v] ps IH]; intros acc H.
  - simpl. now rewrite List.app_nil_r.
  - simpl fold_left. rewrite dict_set_fresh.
    + rewrite IH; rewrite <- List.app_assoc; [reflexivity | exact H].
    + rewrite map_app in H. simpl map in H. now apply distinct_app_cons in H.
Qed.

Lemma dict_of_pairs_distinct (d : list (string * value)) :
  distinct (map fst d) = true -> dict_of_pairs d = d.
Proof. intros H. unfold dict_of_pairs. now rewrite fold_dict_set. Qed.

(** the scanner reads back every well-formed value *)

Lemma emit_list (l : list value) (rest : list ascii) :
  emit (VList l) ++ rest = "[" :: join separator (map emit l) ++ "]" :: rest.
Proof.
  simpl emit. change (("[" :: ?s ++ ["]"]) ++ rest) with ("[" :: (s ++ ["]"]) ++ rest).
  now rewrite <- List.app_assoc.
Qed.

Lemma emit_dict (d : list (string * value)) (rest : list ascii) :
  emit (VDict d) ++ rest = "{" :: join separator (map emit_member d) ++ "}" :: rest.
Proof.
  simpl emit. change (("{" :: ?s ++ ["}"]) ++ rest) with ("{" :: (s ++ ["}"]) ++ rest).
  now rewrite <- List.app_assoc.
Qed.

Lemma parse_value_open_list (fuel : nat) (s : list ascii) :
  starts_value s ->
  parse_value (S fuel) ("[" :: s)
  = match parse_elements fuel s with
    | Some (vs, r') => Some (VList vs, r')
    | None => None
    end.
Proof. intros H. first_char_cases H; reflexivity. Qed.

Lemma parse_value_open_dict (fuel : nat) (s : list ascii) :
  starts_value s ->
  parse_value (S fuel) ("{" :: s)
  = match parse_members fuel s with
    | Some (ps, r') => Some (VDict (dict_of_pairs ps), r')
    | None => None
    end.
Proof. intros H. first_char_cases H; reflexivity. Qed.

Lemma parse_value_emit (v : value) : reads_back v.
Proof.
  induction v as [|b|z|f|s|l IH|d IH] using value_ind';
    intros fuel rest Hwf Hfuel Hrest;
    (destruct fuel as [|fuel]; [simpl in Hfuel; lia|]).
  - reflexivity.
  - destruct b; reflexivity.
  - now apply parse_value_int.
  - now apply parse_value_float.
  - apply parse_value_string.
  - rewrite emit_list. destruct l as [|v l].
    + reflexivity.
    + rewrite parse_value_open_list by (apply join_starts, emit_starts).
      inversion IH as [|? ? Hv Hl]; subst.
      rewrite (parse_elements_emit l Hl v fuel rest Hv); [reflexivity | exact Hwf |].
      change (S (list_sum (map (fun x => S (size x)) (v :: l))) <= S fuel)%nat
        in Hfuel.
      lia.
  - rewrite emit_dict. destruct d as [|kv d].
    + reflexivity.
    + rewrite parse_value_open_dict by (apply join_starts, emit_member_starts).
      simpl wf in Hwf. apply andb_prop in Hwf. destruct Hwf as [Hkeys Hwf].
      inversion IH as [|? ? Hv Hd]; subst.
      rewrite (parse_members_emit d Hd kv fuel rest Hv Hwf).
      * now rewrite dict_of_pairs_distinct.
      * change (S (list_sum (map (fun kv => S (size (snd kv))) (kv :: d))) <= S fuel)%nat
          in Hfuel.
        lia.
Qed.

(** the text is long enough to pay for the scan *)

Lemma starts_value_length (s : list ascii) : starts_value s -> (1 <= List.length s)%nat.
Proof. intros [c [r [-> _]]]. simpl. lia. Qed.

Lemma size_join {A : Type} (sz : A -> nat) (txt : A -> list ascii) (l : list A) :
  Forall (fun x => (sz x <= List.length (txt x))%nat) l ->
  (list_sum (map (fun x => S (sz x)) l)
   <= S (List.length (join separator (map txt l))))%nat.
Proof.
  induction 1 as [|x l Hx Hl IH]; [simpl; lia|].
  destruct l as [|y l].
  - simpl. lia.
  - change (map txt (x :: y :: l)) with (txt x :: txt y :: map txt l).
    rewrite join_cons2, length_app.
    change (map txt (y :: l)) with (txt y :: map txt l) in IH.
    change (list_sum (map (fun x0 => S (sz x0)) (x :: y :: l)))
      with (S (sz x) + list_sum (map (fun x0 => S (sz x0)) (y :: l)))%nat.
    change (List.length ("," :: " " :: ?s)) with (S (S (List.length s))).
    lia.
Qed.

Lemma size_le_length (v : value) : (size v <= List.length (emit v))%nat.
Proof.
  induction v as [|b|z|f|s|l IH|d IH] using value_ind';
    try (apply starts_value_length; rewrite <- (List.app_nil_r (emit _));
         apply emit_starts).
  - change (emit (VList l)) with ("[" :: join separator (map emit l) ++ ["]"]).
    change (size (VList l)) with (S (list_sum (map (fun x => S (size x)) l))).
    change (List.length ("[" :: ?s)) with (S (List.length s)).
    rewrite length_app. change (List.length ["]"]) with 1%nat.
    pose proof (size_join size emit l IH). lia.
  - change (emit (VDict d))
      with ("{" :: join separator (map emit_member d) ++ ["}"]).
    change (size (VDict d))
      with (S (list_sum (map (fun kv => S (size (snd kv))) d))).
    change (List.length ("{" :: ?s)) with (S (List.length s)).
    rewrite length_app. change (List.length ["}"]) with 1%nat.
    assert (H : Forall (fun kv => (size (snd kv) <= List.length (emit_member kv))%nat) d).
    { eapply Forall_impl; [|exact IH]. intros [k v] H. unfold emit_member.
      rewrite !length_app. simpl snd in *. lia. }
    pose proof (size_join (fun kv => size (snd kv)) emit_member d H). lia.
Qed.

(** json.loads (json.dumps v) gives v back *)
Lemma loads_dumps (v : value) : wf v = true -> loads (dumps v) = Ok v.
Proof.
  intros Hwf. unfold loads, dumps.
  rewrite list_ascii_of_string_of_list_ascii.
  rewrite <- (List.app_nil_r (emit v)) at 2.
  rewrite skip_ws_starts by apply emit_starts.
  rewrite (parse_value_emit v _ [] Hwf); [reflexivity | | reflexivity].
  pose proof (size_le_length v). lia.
Qed.

End JsonRoundTrip.

Local Open Scope string_scope.

(** ** Strings and sets *)

Lemma mem_In (x : string) (l : list string) : mem x l = true <-> In x l.
Proof.
  unfold mem. rewrite existsb_exists. split.
  - intros [y [Hy Heq]]. apply String.eqb_eq in Heq. now subst.
  - intros H. exists x. split; [assumption | apply String.eqb_refl].
Qed.

Lemma mem_not_In (x : string) (l : list string) : mem x l = false <-> ~ In x l.
Proof.
  rewrite <- mem_In. destruct (mem x l); split; intros H; congruence.
Qed.

Lemma lower_char_idempotent (c : ascii) : lower_char (lower_char c) = lower_char c.
Proof.
  destruct c as [[] [] [] [] [] [] [] []]; reflexivity.
Qed.

Lemma lower_idempotent (s : string) : lower (lower s) = lower s.
Proof.
  induction s as [|c r IH]; simpl.
  - reflexivity.
  - now rewrite lower_char_idempotent, IH.
Qed.

Lemma lower_char_snake (c : ascii) : is_snake_char c = true -> lower_char c = c.
Proof.
  destruct c as [[] [] [] [] [] [] [] []]; simpl; intros H;
    reflexivity || discriminate H.
Qed.

Lemma lower_snake (s : string) : all_chars is_snake_char s = true -> lower s = s.
Proof.
  induction s as [|c r IH]; simpl; intros H.
  - reflexivity.
  - apply andb_prop in H. destruct H as [Hc Hr].
    now rewrite (lower_char_snake c Hc), (IH Hr).
Qed.

(** ** status.py *)

(** C3. [is_success] and [is_error] test the lower-cased status against
    a closed set of nine, respectively four, strings; both give the same
    answer on a status and on its lower-casing; every value of
    [DeviceStatus] is a lower-case snake_case token. *)
Theorem is_success_is_error_closed_sets :
  (forall s, DeviceStatus.is_success s = true <->
     In (lower s)
        ["ready"; "recording"; "scheduled_recording_accepted";
         "command_received"; "recording_stopped"; "stopping"; "uploading";
         "upload_queued"; "upload_completed"]) /\
  (forall s, DeviceStatus.is_error s = true <->
     In (lower s)
        ["error"; "time_not_synchronized"; "file_not_found"; "upload_failed"]) /\
  (forall s, DeviceStatus.is_success s = DeviceStatus.is_success (lower s)) /\
  (forall s, DeviceStatus.is_error s = DeviceStatus.is_error (lower s)) /\
  (forall v, is_lower_snake (DeviceStatus.value v) = true).
Proof.
  repeat split.
  - intros H. unfold DeviceStatus.is_success in H. now apply mem_In in H.
  - intros H. unfold DeviceStatus.is_success. now apply mem_In.
  - intros H. unfold DeviceStatus.is_error in H. now apply mem_In in H.
  - intros H. unfold DeviceStatus.is_error. now apply mem_In.
  - intros s. unfold DeviceStatus.is_success. now rewrite lower_idempotent.
  - intros s. unfold DeviceStatus.is_error. now rewrite lower_idempotent.
  - intros v. destruct v; reflexivity.
Qed.

(** C4. Every member of [DeviceStatus] is classified exactly one way:
    its value is a success or an error, never both and never neither. *)
Theorem device_status_partition (v : DeviceStatus.t) :
  (DeviceStatus.is_success (DeviceStatus.value v) = true /\
   DeviceStatus.is_error (DeviceStatus.value v) = false) \/
  (DeviceStatus.is_success (DeviceStatus.value v) = false /\
   DeviceStatus.is_error (DeviceStatus.value v) = true).
Proof.
  destruct v; cbv; auto.
Qed.

(** C10. The legacy set [SUCCESS_STATUSES] is a strict subset of what
    [is_success] accepts: each of its members is a success; the three
    upload statuses are successes and not members; among the values of
    [DeviceStatus], and among all lower-case strings, the two
    classifications differ on these three and on nothing else. *)
Theorem success_statuses_strict_subset :
  (forall s, In s constants.SUCCESS_STATUSES -> DeviceStatus.is_success s = true) /\
  (forall s, In s ["uploading"; "upload_queued"; "upload_completed"] ->
     DeviceStatus.is_success s = true /\ mem s constants.SUCCESS_STATUSES = false) /\
  (forall v : DeviceStatus.t,
     DeviceStatus.is_success (DeviceStatus.value v)
       <> mem (DeviceStatus.value v) constants.SUCCESS_STATUSES <->
     In v [DeviceStatus.UPLOADING; DeviceStatus.UPLOAD_QUEUED;
           DeviceStatus.UPLOAD_COMPLETED]) /\
  (forall s, lower s = s ->
     (DeviceStatus.is_success s <> mem s constants.SUCCESS_STATUSES <->
      In s ["uploading"; "upload_queued"; "upload_completed"])).
Proof.
  split; [|split; [|split]].
  - intros s H. simpl in H.
    repeat (destruct H as [<- | H]; [reflexivity|]). destruct H.
  - intros s H. simpl in H.
    repeat (destruct H as [<- | H]; [split; reflexivity|]). destruct H.
  - intros v. split.
    + intros H. destruct v; simpl; auto 6; exfalso; apply H; reflexivity.
    + intros H. simpl in H.
      repeat (destruct H as [<- | H]; [discriminate|]). destruct H.
  - intros s Hs. unfold DeviceStatus.is_success. rewrite Hs. split.
    + intros H.
      destruct (mem s DeviceStatus.success_statuses) eqn:E1;
        destruct (mem s constants.SUCCESS_STATUSES) eqn:E2;
        try (exfalso; apply H; reflexivity).
      * apply mem_In in E1. apply mem_not_In in E2. simpl in E1, E2. simpl.
        intuition.
      * apply mem_not_In in E1. apply mem_In in E2. simpl in E1, E2.
        exfalso. intuition.
    + intros H. simpl in H.
      repeat (destruct H as [<- | H]; [discriminate|]). destruct H.
Qed.

(** The three upload statuses, tried on the theorem above. *)
Lemma success_statuses_strict_subset_witness :
  DeviceStatus.is_success "ready" = true /\
  (DeviceStatus.is_success "uploading" = true /\
   mem "uploading" constants.SUCCESS_STATUSES = false).
Proof.
  split.
  - apply (proj1 success_statuses_strict_subset). simpl. auto.
  - apply (proj1 (proj2 success_statuses_strict_subset)). simpl. auto.
Defined.

(** ** constants.py *)

(** C7. The protocol constants have the values the specification
    fixes: a round trip of at most half a second, port 8080, the mDNS
    service type, chunks of 8192 bytes, a command timeout of 60 seconds
    and a download stall timeout of 600 seconds. *)
Theorem constants_values :
  float_is constants.MAX_ACCEPTABLE_RTT (1 # 2) = true /\
  constants.TCP_PORT = 8080 /\
  constants.SERVICE_TYPE = "_multicam._tcp.local." /\
  constants.DOWNLOAD_CHUNK_SIZE = 8192 /\
  float_is constants.COMMAND_TIMEOUT (60 # 1) = true /\
  float_is constants.DOWNLOAD_STALL_TIMEOUT (600 # 1) = true /\
  float_is constants.DOWNLOAD_STALL_TIMEOUT (10 * 60 # 1) = true /\
  Json.floatstr constants.MAX_ACCEPTABLE_RTT = Json.chars "0.5" /\
  Json.floatstr constants.COMMAND_TIMEOUT = Json.chars "60.0" /\
  Json.floatstr constants.DOWNLOAD_STALL_TIMEOUT = Json.chars "600.0".
Proof.
  repeat split.
Qed.

(** ** commands.py: the named constructors *)

(** A float in canonical form is false exactly when it is a zero. *)
Lemma float_truthy_zero (f : pyfloat) :
  float_ok f = true ->
  (float_truthy f = false <-> exists neg, f = FFinite neg [] 0).
Proof.
  destruct f as [neg ds e| |]; simpl.
  - destruct ds as [|d ds]; simpl.
    + intros He. apply Z.eqb_eq in He. subst e. split; eauto.
    + intros H. apply andb_prop in H. destruct H as [Hd _].
      destruct d; try discriminate Hd; simpl;
        (split; [discriminate | intros [n Hn]; discriminate Hn]).
  - intros _. split; [discriminate | intros [n Hn]; discriminate Hn].
  - intros _. split; [discriminate | intros [n Hn]; discriminate Hn].
Qed.

(** C8, as the code has it.  [start_recording] keeps a given timestamp
    that is not zero: the message holds that very float, which is [==]
    to the one given unless it is a NaN.  The timestamp 0.0 (of either
    sign) is dropped for the current time, as when no timestamp is
    given. *)
Theorem start_recording_timestamp (now t : pyfloat) (d : string)
  (Ht : float_truthy t = true) :
  (CommandMessage.command (CommandMessage.start_recording now (Some t) d)
     = CommandMessage.Member CommandType.START_RECORDING /\
   CommandMessage.deviceId (CommandMessage.start_recording now (Some t) d)
     = VStr d /\
   CommandMessage.timestamp (CommandMessage.start_recording now (Some t) d)
     = VFloat t) /\
  (is_nan t = false ->
   value_eqb (CommandMessage.timestamp (CommandMessage.start_recording now (Some t) d))
     (VFloat t) = true) /\
  (forall neg,
     CommandMessage.start_recording now (Some (FFinite neg [] 0)) d
       = CommandMessage.start_recording now None d /\
     CommandMessage.timestamp
       (CommandMessage.start_recording now (Some (FFinite neg [] 0)) d)
       = VFloat now).
Proof.
  assert (E : CommandMessage.timestamp (CommandMessage.start_recording now (Some t) d)
              = VFloat t).
  { unfold CommandMessage.start_recording, CommandMessage.py_or. simpl.
    now rewrite Ht. }
  split; [|split].
  - unfold CommandMessage.start_recording, CommandMessage.py_or. simpl.
    rewrite Ht. auto.
  - intros Hn. rewrite E. destruct t as [neg ds e|neg|]; simpl.
    + apply Qeq_bool_iff. reflexivity.
    + apply Bool.eqb_reflx.
    + discriminate Hn.
  - intros neg. split; reflexivity.
Qed.

(** A recording scheduled at 1729000000.0, asked for at 1728999990.5. *)
Lemma start_recording_timestamp_witness :
  CommandMessage.timestamp
    (CommandMessage.start_recording
       (FFinite false [d1; d7; d2; d8; d9; d9; d9; d9; d9; d5] 10)
       (Some (FFinite false [d1; d7; d2; d9] 10)) "controller")
  = VFloat (FFinite false [d1; d7; d2; d9] 10) /\
  value_eqb
    (CommandMessage.timestamp
       (CommandMessage.start_recording
          (FFinite false [d1; d7; d2; d8; d9; d9; d9; d9; d9; d5] 10)
          (Some (FFinite false [d1; d7; d2; d9] 10)) "controller"))
    (VFloat (FFinite false [d1; d7; d2; d9] 10)) = true.
Proof.
  split.
  - apply (start_recording_timestamp
             (FFinite false [d1; d7; d2; d8; d9; d9; d9; d9; d9; d5] 10)
             (FFinite false [d1; d7; d2; d9] 10) "controller").
    reflexivity.
  - apply (proj1 (proj2 (start_recording_timestamp
             (FFinite false [d1; d7; d2; d8; d9; d9; d9; d9; d9; d5] 10)
             (FFinite false [d1; d7; d2; d9] 10) "controller" eq_refl))).
    reflexivity.
Defined.

(** C8 fails as stated: a NaN is a timestamp that is given and is not
    zero, and the timestamp of the message is not [==] to it. *)
Lemma start_recording_timestamp_counterexample :
  float_truthy FNaN = true /\
  float_eqb FNaN (FFinite false [] 0) = false /\
  value_eqb
    (CommandMessage.timestamp
       (CommandMessage.start_recording (FFinite false [d1; d7; d2; d9] 10)
          (Some FNaN) "controller"))
    (VFloat FNaN) = false.
Proof. repeat split. Qed.

(** ** The scanner accepts no more than the grammar with the three literals *)

Section Grammar.

Local Open Scope list_scope.
Local Open Scope char_scope.












Lemma simple_escape_letter (e x : ascii) :
  Json.simple_escape e = Some x -> Rfc8259.escape_letter e = true.
Proof. destruct e as [[] [] [] [] [] [] [] []]; (discriminate || reflexivity). Qed.



Lemma escape_letter_u (e : ascii) :
  Rfc8259.escape_letter e = true -> Ascii.eqb e "u" = false.
Proof. destruct e as [[] [] [] [] [] [] [] []]; (discriminate || reflexivity). Qed.




Local Arguments Json.strip_prefix : simpl never.
Local Arguments Json.scan_number : simpl never.
Local Arguments Rfc8259.number : simpl never.


Local Arguments Json.scan_constant : simpl never.
Local Arguments Json.scan_string : simpl never.
Local Arguments Json.skip_ws : simpl never.
Local Arguments Json.dict_of_pairs : simpl never.
Local Arguments Rfc8259.chars_quote : simpl never.
Local Arguments Rfc8259.ws : simpl never.






End Grammar.

(** ** The grammar: what the fuel and the three literals change *)

Section GrammarFuel.

Local Open Scope list_scope.
Local Open Scope char_scope.
Local Open Scope nat_scope.

Variable nonfinite : bool.

Lemma ws_length (s : list ascii) : List.length (Rfc8259.ws s) <= List.length s.
Proof.
  induction s as [|c s IH]; [apply le_n|].
  cbn [Rfc8259.ws]. destruct (Rfc8259.is_ws c); cbn [List.length]; lia.
Qed.

Lemma digits_length (s : list ascii) : List.length (Rfc8259.digits s) <= List.length s.
Proof.
  induction s as [|c s IH]; [apply le_n|].
  cbn [Rfc8259.digits]. destruct (Rfc8259.DIGIT c); cbn [List.length]; lia.
Qed.

Lemma digits1_length (s r : list ascii) :
  Rfc8259.digits1 s = Some r -> List.length r < List.length s.
Proof.
  destruct s as [|c s]; [discriminate|]. cbn [Rfc8259.digits1].
  destruct (Rfc8259.DIGIT c); [|discriminate].
  intros H. injection H as <-. pose proof (digits_length s). cbn [List.length]. lia.
Qed.

Lemma opt_frac_length (s : list ascii) :
  List.length (Rfc8259.opt_frac s) <= List.length s.
Proof.
  destruct s as [|c s]; [apply le_n|]. cbn [Rfc8259.opt_frac].
  destruct (Rfc8259.code c =? 46)%N; [|apply le_n].
  destruct (Rfc8259.digits1 s) as [r|] eqn:E; [|apply le_n].
  apply digits1_length in E. cbn [List.length]. lia.
Qed.

Lemma opt_exp_length (s : list ascii) :
  List.length (Rfc8259.opt_exp s) <= List.length s.
Proof.
  destruct s as [|c s]; [apply le_n|]. cbn [Rfc8259.opt_exp].
  destruct ((Rfc8259.code c =? 101) || (Rfc8259.code c =? 69))%N; [|apply le_n].
  destruct (Rfc8259.digits1 _) as [r|] eqn:E; [|apply le_n].
  apply digits1_length in E. cbn [List.length].
  destruct s as [|x s]; [cbn [List.length] in E; lia|].
  destruct ((Rfc8259.code x =? 45) || (Rfc8259.code x =? 43))%N;
    cbn [List.length] in *; lia.
Qed.

Lemma int_length (s r : list ascii) :
  Rfc8259.int s = Some r -> List.length r < List.length s.
Proof.
  destruct s as [|c s]; [discriminate|]. cbn [Rfc8259.int].
  destruct (Rfc8259.code c =? 48)%N.
  - intros H. injection H as <-. cbn [List.length]. lia.
  - destruct (Rfc8259.digit1_9 c); [|discriminate].
    intros H. injection H as <-. pose proof (digits_length s).
    cbn [List.length]. lia.
Qed.

Lemma number_length (s r : list ascii) :
  Rfc8259.number s = Some r -> List.length r < List.length s.
Proof.
  unfold Rfc8259.number.
  destruct (Rfc8259.int _) as [t|] eqn:E; [|discriminate].
  intros H. injection H as <-. apply int_length in E.
  pose proof (opt_exp_length (Rfc8259.opt_frac t)).
  pose proof (opt_frac_length t).
  destruct s as [|c s]; [cbn [List.length] in E; lia|].
  destruct (Rfc8259.code c =? 45)%N; cbn [List.length] in *; lia.
Qed.

Lemma literal_length (word : string) (s r : list ascii) :
  Rfc8259.literal word s = Some r ->
  List.length r + String.length word = List.length s.
Proof.
  revert s. induction word as [|a w IH]; intros s.
  - intros H. injection H as <-. cbn [String.length]. lia.
  - destruct s as [|b s]; [discriminate|]. cbn [Rfc8259.literal].
    destruct (Rfc8259.code a =? Rfc8259.code b)%N; [|discriminate].
    intros H. apply IH in H. cbn [String.length List.length]. lia.
Qed.

Lemma chars_quote_length (n : nat) :
  forall s r, List.length s <= n ->
  Rfc8259.chars_quote s = Some r -> List.length r < List.length s.
Proof.
  induction n as [|n IH]; intros s r Hn.
  - destruct s; [discriminate | cbn [List.length] in Hn; lia].
  - destruct s as [|c s]; [discriminate|].
    cbn [List.length] in Hn. cbn [Rfc8259.chars_quote].
    destruct (Rfc8259.code c =? 34)%N.
    { intros H. injection H as <-. cbn [List.length]. lia. }
    destruct (Rfc8259.code c =? 92)%N.
    { destruct s as [|e s]; [discriminate|]. cbn [List.length] in Hn.
      destruct (Rfc8259.escape_letter e).
      - intros H. apply IH in H; [|lia]. cbn [List.length]. lia.
      - destruct (Rfc8259.code e =? 117)%N; [|discriminate].
        destruct s as [|h1 [|h2 [|h3 [|h4 s]]]]; try discriminate.
        cbn [List.length] in Hn.
        destruct (_ && _); [|discriminate].
        intros H. apply IH in H; [|lia]. cbn [List.length]. lia. }
    destruct (32 <=? Rfc8259.code c)%N; [|discriminate].
    intros H. apply IH in H; [|lia]. cbn [List.length]. lia.
Qed.

Lemma literal_or_number_length (s r : list ascii) :
  Rfc8259.orelse (Rfc8259.literal "false" s)
    (Rfc8259.orelse (Rfc8259.literal "null" s)
       (Rfc8259.orelse (Rfc8259.literal "true" s)
          (Rfc8259.orelse (if nonfinite then Rfc8259.nonfinite_literal s else None)
             (Rfc8259.number s)))) = Some r ->
  List.length r < List.length s.
Proof.
  unfold Rfc8259.nonfinite_literal, Rfc8259.orelse.
  repeat match goal with
         | |- context [Rfc8259.literal ?w s] =>
             let E := fresh "E" in
             destruct (Rfc8259.literal w s) eqn:E;
             [ intros H; injection H as <-; apply literal_length in E;
               cbn [String.length] in E; lia |]
         | |- context [if nonfinite then _ else _] => destruct nonfinite
         end;
    apply number_length.
Qed.

(** More fuel changes nothing. *)
Lemma value_more_fuel (fuel : nat) :
  (forall s r, Rfc8259.value nonfinite fuel s = Some r ->
     Rfc8259.value nonfinite (S fuel) s = Some r) /\
  (forall s r, Rfc8259.elements nonfinite fuel s = Some r ->
     Rfc8259.elements nonfinite (S fuel) s = Some r) /\
  (forall s r, Rfc8259.members nonfinite fuel s = Some r ->
     Rfc8259.members nonfinite (S fuel) s = Some r).
Proof.
  induction fuel as [|fuel [IHv [IHe IHm]]].
  - repeat split; intros; discriminate.
  - split; [|split].
    + intros s r. destruct s as [|c s]; [discriminate|].
      cbn [Rfc8259.value].
      destruct (Rfc8259.code c =? 34)%N; [auto|].
      destruct (Rfc8259.code c =? 123)%N.
      { destruct (Rfc8259.ws s) as [|c' r']; [discriminate|].
        destruct (Rfc8259.code c' =? 125)%N; [auto | apply IHm]. }
      destruct (Rfc8259.code c =? 91)%N; [|auto].
      destruct (Rfc8259.ws s) as [|c' r']; [discriminate|].
      destruct (Rfc8259.code c' =? 93)%N; [auto | apply IHe].
    + intros s r.
      change (Rfc8259.elements nonfinite (S (S fuel)) s)
        with (match Rfc8259.value nonfinite (S fuel) s with
              | None => None
              | Some r0 =>
                  match Rfc8259.ws r0 with
                  | [] => None
                  | c :: r' =>
                      if (Rfc8259.code c =? 93)%N then Some r'
                      else if (Rfc8259.code c =? 44)%N
                      then Rfc8259.elements nonfinite (S fuel) (Rfc8259.ws r')
                      else None
                  end
              end).
      cbn [Rfc8259.elements].
      destruct (Rfc8259.value nonfinite fuel s) as [r0|] eqn:E; [|discriminate].
      rewrite (IHv _ _ E).
      destruct (Rfc8259.ws r0) as [|c r']; [discriminate|].
      destruct (Rfc8259.code c =? 93)%N; [auto|].
      destruct (Rfc8259.code c =? 44)%N; [apply IHe | discriminate].
    + intros s r. destruct s as [|q s]; [discriminate|].
      change (Rfc8259.members nonfinite (S (S fuel)) (q :: s))
        with (if (Rfc8259.code q =? 34)%N then
                match Rfc8259.chars_quote s with
                | None => None
                | Some r1 =>
                    match Rfc8259.ws r1 with
                    | [] => None
                    | c :: r2 =>
                        if (Rfc8259.code c =? 58)%N then
                          match Rfc8259.value nonfinite (S fuel) (Rfc8259.ws r2) with
                          | None => None
                          | Some r3 =>
                              match Rfc8259.ws r3 with
                              | [] => None
                              | c' :: r4 =>
                                  if (Rfc8259.code c' =? 125)%N then Some r4
                                  else if (Rfc8259.code c' =? 44)%N
                                  then Rfc8259.members nonfinite (S fuel) (Rfc8259.ws r4)
                                  else None
                              end
                          end
                        else None
                    end
                end
              else None).
      cbn [Rfc8259.members].
      destruct (Rfc8259.code q =? 34)%N; [|discriminate].
      destruct (Rfc8259.chars_quote s) as [r1|]; [|discriminate].
      destruct (Rfc8259.ws r1) as [|c r2]; [discriminate|].
      destruct (Rfc8259.code c =? 58)%N; [|discriminate].
      destruct (Rfc8259.value nonfinite fuel (Rfc8259.ws r2)) as [r3|] eqn:E;
        [|discriminate].
      rewrite (IHv _ _ E).
      destruct (Rfc8259.ws r3) as [|c' r4]; [discriminate|].
      destruct (Rfc8259.code c' =? 125)%N; [auto|].
      destruct (Rfc8259.code c' =? 44)%N; [apply IHm | discriminate].
Qed.

Lemma value_fuel_le (fuel fuel' : nat) (s r : list ascii) :
  fuel <= fuel' ->
  (Rfc8259.value nonfinite fuel s = Some r ->
     Rfc8259.value nonfinite fuel' s = Some r) /\
  (Rfc8259.elements nonfinite fuel s = Some r ->
     Rfc8259.elements nonfinite fuel' s = Some r) /\
  (Rfc8259.members nonfinite fuel s = Some r ->
     Rfc8259.members nonfinite fuel' s = Some r).
Proof.
  induction 1 as [|m _ [IHv [IHe IHm]]]; [auto|].
  destruct (value_more_fuel m) as [Hv [He Hm]]. auto.
Qed.

(** A match takes at least one character, and no more fuel than the
    characters it takes. *)
Lemma value_fuel_used (fuel : nat) :
  (forall s r, Rfc8259.value nonfinite fuel s = Some r ->
     List.length r < List.length s /\
     Rfc8259.value nonfinite (List.length s - List.length r) s = Some r) /\
  (forall s r, Rfc8259.elements nonfinite fuel s = Some r ->
     List.length r < List.length s /\
     Rfc8259.elements nonfinite (List.length s - List.length r) s = Some r) /\
  (forall s r, Rfc8259.members nonfinite fuel s = Some r ->
     List.length r < List.length s /\
     Rfc8259.members nonfinite (List.length s - List.length r) s = Some r).
Proof.
  induction fuel as [|fuel [IHv [IHe IHm]]].
  - repeat split; intros; discriminate.
  - split; [|split].
    + intros s r H.
      assert (L : List.length r < List.length s).
      { destruct s as [|c s]; [discriminate|]. cbn [Rfc8259.value] in H.
        destruct (Rfc8259.code c =? 34)%N.
        { apply (chars_quote_length _ _ _ (le_n _)) in H. cbn [List.length]. lia. }
        destruct (Rfc8259.code c =? 123)%N.
        { pose proof (ws_length s) as Hw.
          destruct (Rfc8259.ws s) as [|c' r']; [discriminate|].
          destruct (Rfc8259.code c' =? 125)%N.
          - injection H as <-. cbn [List.length] in *. lia.
          - apply IHm in H. cbn [List.length] in *. lia. }
        destruct (Rfc8259.code c =? 91)%N.
        { pose proof (ws_length s) as Hw.
          destruct (Rfc8259.ws s) as [|c' r']; [discriminate|].
          destruct (Rfc8259.code c' =? 93)%N.
          - injection H as <-. cbn [List.length] in *. lia.
          - apply IHe in H. cbn [List.length] in *. lia. }
        now apply literal_or_number_length. }
      split; [exact L|].
      destruct s as [|c s]; [discriminate|].
      cbn [List.length] in *.
      replace (S (List.length s) - List.length r)
        with (S (List.length s - List.length r)) by lia.
      cbn [Rfc8259.value] in H |- *.
      destruct (Rfc8259.code c =? 34)%N; [exact H|].
      destruct (Rfc8259.code c =? 123)%N.
      { pose proof (ws_length s) as Hw.
        destruct (Rfc8259.ws s) as [|c' r']; [discriminate|].
        destruct (Rfc8259.code c' =? 125)%N; [exact H|].
        apply IHm in H. destruct H as [_ H]. cbn [List.length] in *.
        refine (proj2 (proj2 (value_fuel_le _ _ _ _ _)) H). lia. }
      destruct (Rfc8259.code c =? 91)%N; [|exact H].
      pose proof (ws_length s) as Hw.
      destruct (Rfc8259.ws s) as [|c' r']; [discriminate|].
      destruct (Rfc8259.code c' =? 93)%N; [exact H|].
      apply IHe in H. destruct H as [_ H]. cbn [List.length] in *.
      refine (proj1 (proj2 (value_fuel_le _ _ _ _ _)) H). lia.
    + intros s r H. cbn [Rfc8259.elements] in H.
      destruct (Rfc8259.value nonfinite fuel s) as [r0|] eqn:E; [|discriminate].
      apply IHv in E. destruct E as [L0 E].
      pose proof (ws_length r0) as Hw.
      destruct (Rfc8259.ws r0) as [|c r'] eqn:Ew; [discriminate|].
      cbn [List.length] in Hw.
      assert (L : List.length r < List.length r0 /\
                  ((Rfc8259.code c =? 93)%N = false ->
                   (Rfc8259.code c =? 44)%N = true ->
                   Rfc8259.elements nonfinite
                     (List.length s - List.length r - 1) (Rfc8259.ws r') = Some r)).
      { pose proof (ws_length r') as Hw'.
        destruct (Rfc8259.code c =? 93)%N.
        - injection H as <-. split; [lia | discriminate].
        - destruct (Rfc8259.code c =? 44)%N; [|discriminate].
          apply IHe in H. destruct H as [L H]. split; [lia|]. intros _ _.
          refine (proj1 (proj2 (value_fuel_le _ _ _ _ _)) H). lia. }
      destruct L as [L G]. split; [lia|].
      replace (List.length s - List.length r)
        with (S (List.length s - List.length r - 1)) by lia.
      cbn [Rfc8259.elements].
      assert (Hf : List.length s - List.length r0
                   <= List.length s - List.length r - 1) by lia.
      rewrite (proj1 (value_fuel_le _ _ _ _ Hf) E), Ew.
      destruct (Rfc8259.code c =? 93)%N; [exact H|].
      destruct (Rfc8259.code c =? 44)%N; [|discriminate]. now apply G.
    + intros s r H. destruct s as [|q s]; [discriminate|].
      cbn [Rfc8259.members] in H.
      destruct (Rfc8259.code q =? 34)%N eqn:Eq; [|discriminate].
      destruct (Rfc8259.chars_quote s) as [r1|] eqn:Ek; [|discriminate].
      pose proof (chars_quote_length _ _ _ (le_n _) Ek) as L1.
      pose proof (ws_length r1) as Hw1.
      destruct (Rfc8259.ws r1) as [|c r2] eqn:Ew1; [discriminate|].
      destruct (Rfc8259.code c =? 58)%N eqn:Ec; [|discriminate].
      pose proof (ws_length r2) as Hw2.
      destruct (Rfc8259.value nonfinite fuel (Rfc8259.ws r2)) as [r3|] eqn:E;
        [|discriminate].
      apply IHv in E. destruct E as [L3 E].
      pose proof (ws_length r3) as Hw3.
      destruct (Rfc8259.ws r3) as [|c' r4] eqn:Ew3; [discriminate|].
      cbn [List.length] in *.
      assert (L : List.length r < List.length r3 /\
                  ((Rfc8259.code c' =? 125)%N = false ->
                   (Rfc8259.code c' =? 44)%N = true ->
                   Rfc8259.members nonfinite
                     (List.length s - List.length r) (Rfc8259.ws r4) = Some r)).
      { pose proof (ws_length r4) as Hw4.
        destruct (Rfc8259.code c' =? 125)%N.
        - injection H as <-. split; [lia | discriminate].
        - destruct (Rfc8259.code c' =? 44)%N; [|discriminate].
          apply IHm in H. destruct H as [L H]. split; [lia|]. intros _ _.
          refine (proj2 (proj2 (value_fuel_le _ _ _ _ _)) H). lia. }
      destruct L as [L G]. split; [lia|].
      replace (S (List.length s) - List.length r)
        with (S (List.length s - List.length r)) by lia.
      cbn [Rfc8259.members]. rewrite Eq, Ek, Ew1, Ec.
      assert (Hf : List.length (Rfc8259.ws r2) - List.length r3
                   <= List.length s - List.length r) by lia.
      rewrite (proj1 (value_fuel_le _ _ _ _ Hf) E), Ew3.
      destruct (Rfc8259.code c' =? 125)%N; [exact H|].
      destruct (Rfc8259.code c' =? 44)%N; [|discriminate]. now apply G.
Qed.

(** The fuel [json_text] gives is enough: a text is recognised exactly
    when some fuel recognises it. *)
Lemma json_text_fuel (s : string) :
  Rfc8259.json_text nonfinite s = true <->
  exists fuel r,
    Rfc8259.value nonfinite fuel (Rfc8259.ws (list_ascii_of_string s)) = Some r /\
    Rfc8259.ws r = [].
Proof.
  unfold Rfc8259.json_text. split.
  - destruct (Rfc8259.value _ _ _) as [r|] eqn:E; [|discriminate].
    destruct (Rfc8259.ws r) eqn:Ew; [|discriminate]. intros _. eauto.
  - intros [fuel [r [H Hr]]].
    apply (proj1 (value_fuel_used fuel)) in H. destruct H as [L H].
    pose proof (ws_length (list_ascii_of_string s)) as Hw.
    assert (Hf : List.length (Rfc8259.ws (list_ascii_of_string s)) - List.length r
                 <= S (List.length (list_ascii_of_string s))) by lia.
    now rewrite (proj1 (value_fuel_le _ _ _ _ Hf) H), Hr.
Qed.

End GrammarFuel.

Section GrammarLiterals.

Local Open Scope list_scope.
Local Open Scope char_scope.




End GrammarLiterals.

(** ** commands.py: decoding *)

Lemma of_value_member (c : CommandType.t) :
  CommandType.of_value (VStr (CommandType.value c)) = Ok c.
Proof. destruct c; reflexivity. Qed.


(** What [from_json] builds from an object that has a command and a
    timestamp. *)
Lemma command_message_from_object (json_str : string) (d : list (string * value))
  (c : CommandType.t) (t : value) :
  Json.loads json_str = Ok (VDict d) ->
  lookup "command" d = Some (VStr (CommandType.value c)) ->
  lookup "timestamp" d = Some t ->
  CommandMessage.from_json json_str
  = Ok (CommandMessage.mk (CommandMessage.Member c) t
          (lookup_default "deviceId" d (VStr "controller"))
          (lookup_default "fileName" d VNone)
          (lookup_default "uploadUrl" d VNone)).
Proof.
  intros Hl Hc Ht. unfold CommandMessage.from_json. rewrite Hl.
  cbn [bind subscript dict_get]. rewrite Hc. cbn [bind].
  rewrite of_value_member. cbn [bind]. now rewrite Ht.
Qed.




(** What [StatusResponse.from_json] builds from an object that has the
    three required keys and whose two queues decode. *)
Lemma status_response_from_object (json_str : string) (d : list (string * value))
  (dev st ts : value) (uq fq : list UploadItem.t) :
  Json.loads json_str = Ok (VDict d) ->
  lookup "deviceId" d = Some dev -> lookup "status" d = Some st ->
  lookup "timestamp" d = Some ts ->
  StatusResponse.upload_items (VDict d) "uploadQueue" = Ok uq ->
  StatusResponse.upload_items (VDict d) "failedUploadQueue" = Ok fq ->
  StatusResponse.from_json json_str
  = Ok (StatusResponse.mk dev st ts (lookup_default "batteryLevel" d VNone) uq fq).
Proof.
  intros Hl Hd Hs Ht Hu Hf. unfold StatusResponse.from_json. rewrite Hl.
  cbn [bind]. rewrite Hu. cbn [bind]. rewrite Hf.
  cbn [bind subscript dict_get]. now rewrite Hd, Hs, Ht.
Qed.

(** A queue whose key is absent decodes to the empty list. *)
Lemma upload_items_absent (d : list (string * value)) (key : string) :
  lookup key d = None -> StatusResponse.upload_items (VDict d) key = Ok [].
Proof.
  intros H. unfold StatusResponse.upload_items, dict_get, lookup_default.
  now rewrite H.
Qed.

(** C9. Decoding fills in absent optional keys: a command object with
    a command and a timestamp decodes, with [deviceId] "controller"
    when it has none and [fileName], [uploadUrl] [None] when it has
    none; a status object with its three required keys decodes, with an
    empty [uploadQueue], [failedUploadQueue] when it has none (the queue
    that is present, if one is, must itself decode). *)
Theorem from_json_defaults :
  (forall json_str d c t,
     Json.loads json_str = Ok (VDict d) ->
     lookup "command" d = Some (VStr (CommandType.value c)) ->
     lookup "timestamp" d = Some t ->
     exists m,
       CommandMessage.from_json json_str = Ok m /\
       (lookup "deviceId" d = None -> CommandMessage.deviceId m = VStr "controller") /\
       (lookup "fileName" d = None -> CommandMessage.fileName m = VNone) /\
       (lookup "uploadUrl" d = None -> CommandMessage.uploadUrl m = VNone)) /\
  (forall json_str d dev st ts,
     Json.loads json_str = Ok (VDict d) ->
     lookup "deviceId" d = Some dev -> lookup "status" d = Some st ->
     lookup "timestamp" d = Some ts ->
     (lookup "uploadQueue" d = None -> lookup "failedUploadQueue" d = None ->
        StatusResponse.from_json json_str
        = Ok (StatusResponse.mk dev st ts (lookup_default "batteryLevel" d VNone)
                [] [])) /\
     (forall fq,
        lookup "uploadQueue" d = None ->
        StatusResponse.upload_items (VDict d) "failedUploadQueue" = Ok fq ->
        StatusResponse.from_json json_str
        = Ok (StatusResponse.mk dev st ts (lookup_default "batteryLevel" d VNone)
                [] fq)) /\
     (forall uq,
        lookup "failedUploadQueue" d = None ->
        StatusResponse.upload_items (VDict d) "uploadQueue" = Ok uq ->
        StatusResponse.from_json json_str
        = Ok (StatusResponse.mk dev st ts (lookup_default "batteryLevel" d VNone)
                uq []))).
Proof.
  split.
  - intros json_str d c t Hl Hc Ht. eexists. split.
    + apply (command_message_from_object json_str d c t Hl Hc Ht).
    + unfold lookup_default. simpl.
      repeat split; intros H; now rewrite H.
  - intros json_str d dev st ts Hl Hd Hs Ht. repeat split.
    + intros Hu Hf.
      apply (status_response_from_object json_str d dev st ts [] [] Hl Hd Hs Ht);
        now apply upload_items_absent.
    + intros fq Hu Hf.
      apply (status_response_from_object json_str d dev st ts [] fq Hl Hd Hs Ht);
        [now apply upload_items_absent | exact Hf].
    + intros uq Hf Hu.
      apply (status_response_from_object json_str d dev st ts uq [] Hl Hd Hs Ht);
        [exact Hu | now apply upload_items_absent].
Qed.

(** A heartbeat with nothing but its two required keys, and a status
    without queues. *)
Lemma from_json_defaults_witness :
  (exists m,
     CommandMessage.from_json
       (Json.quoted "{'command': 'HEARTBEAT', 'timestamp': 1729000000.5}") = Ok m /\
     CommandMessage.deviceId m = VStr "controller" /\
     CommandMessage.fileName m = VNone /\ CommandMessage.uploadUrl m = VNone) /\
  StatusResponse.from_json
    (Json.quoted "{'deviceId': 'cam-1', 'status': 'ready', 'timestamp': 12.25}")
  = Ok (StatusResponse.mk (VStr "cam-1") (VStr "ready")
          (VFloat (FFinite false [d1; d2; d2; d5] 2)) VNone [] []).
Proof.
  split.
  - destruct (proj1 from_json_defaults
                (Json.quoted "{'command': 'HEARTBEAT', 'timestamp': 1729000000.5}")
                [("command", VStr "HEARTBEAT");
                 ("timestamp",
                  VFloat (FFinite false [d1; d7; d2; d9; d0; d0; d0; d0; d0; d0; d5] 10))]
                CommandType.HEARTBEAT
                (VFloat (FFinite false [d1; d7; d2; d9; d0; d0; d0; d0; d0; d0; d5] 10))
                eq_refl eq_refl eq_refl) as [m [Hm [H1 [H2 H3]]]].
    exists m. repeat split; auto.
  - apply (proj2 from_json_defaults
             (Json.quoted "{'deviceId': 'cam-1', 'status': 'ready', 'timestamp': 12.25}")
             [("deviceId", VStr "cam-1"); ("status", VStr "ready");
              ("timestamp", VFloat (FFinite false [d1; d2; d2; d5] 2))]
             (VStr "cam-1") (VStr "ready")
             (VFloat (FFinite false [d1; d2; d2; d5] 2))
             eq_refl eq_refl eq_refl eq_refl); reflexivity.
Defined.

(** ** commands.py: the required fields *)

(** X20. Every message built by one of the seven named constructors
    has the fields its command requires: [fileName] with GET_VIDEO and
    UPLOAD_TO_CLOUD, [uploadUrl] with UPLOAD_TO_CLOUD.  [from_json]
    copies [fileName] and [uploadUrl] from the object, [None] for an
    absent key, so a decoded message has the required fields exactly
    when the object carries them. *)
Theorem required_fields_by_constructor (now : pyfloat) :
  (forall t d,
     CommandMessage.required_fields_present
       (CommandMessage.start_recording now t d) = true) /\
  (forall d,
     CommandMessage.required_fields_present
       (CommandMessage.stop_recording now d) = true) /\
  (forall d,
     CommandMessage.required_fields_present
       (CommandMessage.device_status now d) = true) /\
  (forall f d,
     CommandMessage.required_fields_present (CommandMessage.get_video now f d) = true
     /\ CommandMessage.fileName (CommandMessage.get_video now f d) = VStr f) /\
  (forall d,
     CommandMessage.required_fields_present (CommandMessage.heartbeat now d) = true) /\
  (forall d,
     CommandMessage.required_fields_present (CommandMessage.list_files now d) = true) /\
  (forall f u d,
     CommandMessage.required_fields_present
       (CommandMessage.upload_to_cloud now f u d) = true
     /\ CommandMessage.fileName (CommandMessage.upload_to_cloud now f u d) = VStr f
     /\ CommandMessage.uploadUrl (CommandMessage.upload_to_cloud now f u d) = VStr u) /\
  (forall json_str d m,
     Json.loads json_str = Ok (VDict d) ->
     CommandMessage.from_json json_str = Ok m ->
     CommandMessage.fileName m = lookup_default "fileName" d VNone /\
     CommandMessage.uploadUrl m = lookup_default "uploadUrl" d VNone).
Proof.
  repeat (split; [intros; repeat split; reflexivity|]).
  intros json_str d m Hl Hm. unfold CommandMessage.from_json in Hm.
  rewrite Hl in Hm. cbn [bind subscript dict_get] in Hm.
  destruct (lookup "command" d) as [c|]; [|discriminate Hm]. cbn [bind] in Hm.
  destruct (CommandType.of_value c) as [k|e]; [|discriminate Hm]. cbn [bind] in Hm.
  destruct (lookup "timestamp" d) as [t|]; [|discriminate Hm]. cbn [bind] in Hm.
  injection Hm as <-. split; reflexivity.
Qed.

(** A download command from its constructor, and what an upload object
    with both fields decodes to. *)
Lemma required_fields_by_constructor_witness :
  CommandMessage.required_fields_present
    (CommandMessage.get_video (FFinite false [d1; d7; d2; d9] 10)
       "clip_001.mp4" "controller") = true /\
  (CommandMessage.fileName
     (CommandMessage.mk (CommandMessage.Member CommandType.UPLOAD_TO_CLOUD)
        (VFloat (FFinite false [d2; d5] 1)) (VStr "controller")
        (VStr "a.mp4") (VStr "https://x/a")) = VStr "a.mp4" /\
   CommandMessage.uploadUrl
     (CommandMessage.mk (CommandMessage.Member CommandType.UPLOAD_TO_CLOUD)
        (VFloat (FFinite false [d2; d5] 1)) (VStr "controller")
        (VStr "a.mp4") (VStr "https://x/a")) = VStr "https://x/a").
Proof.
  split.
  - apply (proj1 (proj2 (proj2 (proj2
             (required_fields_by_constructor (FFinite false [d1; d7; d2; d9] 10)))))).
  - exact (proj2 (proj2 (proj2 (proj2 (proj2 (proj2 (proj2
             (required_fields_by_constructor (FFinite false [] 0))))))))
             (Json.quoted
                "{'command': 'UPLOAD_TO_CLOUD', 'timestamp': 2.5, 'fileName': 'a.mp4', 'uploadUrl': 'https://x/a'}")
             [("command", VStr "UPLOAD_TO_CLOUD");
              ("timestamp", VFloat (FFinite false [d2; d5] 1));
              ("fileName", VStr "a.mp4"); ("uploadUrl", VStr "https://x/a")]
             (CommandMessage.mk (CommandMessage.Member CommandType.UPLOAD_TO_CLOUD)
                (VFloat (FFinite false [d2; d5] 1)) (VStr "controller")
                (VStr "a.mp4") (VStr "https://x/a"))
             eq_refl eq_refl).
Defined.

(** C5. The field [fileName] is documented as required for GET_VIDEO,
    and [get_video] always sets it; [from_json] misses the check: a
    GET_VIDEO object without a file name decodes to a message whose
    [fileName] is [None]. *)
Lemma required_fields_counterexample :
  exists m,
    CommandMessage.from_json
      (Json.quoted "{'command': 'GET_VIDEO', 'timestamp': 1729000000.5}") = Ok m /\
    CommandMessage.is_command CommandType.GET_VIDEO m = true /\
    CommandMessage.fileName m = VNone /\
    CommandMessage.required_fields_present m = false.
Proof.
  eexists. split; [reflexivity|]. repeat split.
Qed.

(** ** commands.py: the round trip through JSON *)

Lemma is_str_wf (v : value) : is_str v = true -> Json.wf v = true.
Proof. destruct v; simpl; intros H; (discriminate H || reflexivity). Qed.

Lemma is_int_wf (v : value) : is_int v = true -> Json.wf v = true.
Proof. destruct v; simpl; intros H; (discriminate H || reflexivity). Qed.

Lemma is_float_wf (v : value) : is_float v = true -> Json.wf v = true.
Proof. destruct v; simpl; intros H; (discriminate H || assumption || reflexivity). Qed.

Lemma is_optional_wf (ty : value -> bool) (v : value) :
  (ty v = true -> Json.wf v = true) -> is_optional ty v = true -> Json.wf v = true.
Proof. destruct v; simpl; auto. Qed.

Lemma float_eqb_refl (f : pyfloat) : is_nan f = false -> float_eqb f f = true.
Proof.
  destruct f as [neg ds e|neg|]; simpl; intros H.
  - apply Qeq_bool_iff. reflexivity.
  - apply Bool.eqb_reflx.
  - discriminate H.
Qed.

Lemma value_eqb_str (v : value) : is_str v = true -> value_eqb v v = true.
Proof.
  destruct v; simpl; intros H; try discriminate H. apply String.eqb_refl.
Qed.

Lemma value_eqb_int (v : value) : is_int v = true -> value_eqb v v = true.
Proof.
  destruct v; simpl; intros H; try discriminate H. apply Z.eqb_refl.
Qed.

Lemma value_eqb_float (v : value) :
  is_float v = true -> is_nan_value v = false -> value_eqb v v = true.
Proof.
  destruct v; simpl; intros H Hn; try discriminate H.
  - apply Z.eqb_refl.
  - now apply float_eqb_refl.
Qed.

Lemma value_eqb_optional (ty : value -> bool) (v : value) :
  (ty v = true -> value_eqb v v = true) ->
  is_optional ty v = true -> value_eqb v v = true.
Proof. destruct v; simpl; auto. Qed.

Lemma list_eqb_refl {A : Type} (eqb : A -> A -> bool) (ok : A -> bool) (l : list A) :
  (forall x, ok x = true -> eqb x x = true) ->
  forallb ok l = true -> list_eqb eqb l l = true.
Proof.
  intros Hx. induction l as [|a l IH]; simpl; [reflexivity|].
  intros H. apply andb_prop in H. destruct H as [Ha Hl].
  now rewrite (Hx a Ha), (IH Hl).
Qed.

Lemma mapM_map {A B : Type} (f : A -> result B) (g : B -> A) (l : list B) :
  (forall b, f (g b) = Ok b) -> mapM f (map g l) = Ok l.
Proof.
  intros H. induction l as [|b l IH]; simpl; [reflexivity|].
  now rewrite H, IH.
Qed.

Ltac split_valid H :=
  repeat match type of H with
         | (_ && _) = true =>
             let H' := fresh "Hv" in
             apply andb_prop in H; destruct H as [H H']
         end.

Ltac typed_wf :=
  solve [ reflexivity
        | apply is_str_wf; assumption
        | apply is_int_wf; assumption
        | apply is_float_wf; assumption
        | eapply is_optional_wf; [| eassumption];
          first [apply is_str_wf | apply is_float_wf] ].

Ltac typed_eqb :=
  solve [ apply value_eqb_str; assumption
        | apply value_eqb_int; assumption
        | apply value_eqb_float; assumption
        | eapply value_eqb_optional; [| eassumption];
          first [ apply value_eqb_str
                | intros; apply value_eqb_float; assumption ] ].

Lemma upload_item_wf (x : UploadItem.t) :
  UploadItem.valid x = true -> Json.wf (UploadItem.asdict x) = true.
Proof.
  unfold UploadItem.valid. intros H. split_valid H.
  destruct x; simpl in *.
  repeat (apply andb_true_intro; split);
    typed_wf.
Qed.

Lemma upload_item_from_asdict (x : UploadItem.t) :
  UploadItem.from_dict (UploadItem.asdict x) = Ok x.
Proof. destruct x; reflexivity. Qed.

Lemma upload_item_eqb_refl (x : UploadItem.t) :
  UploadItem.valid x && negb (UploadItem.has_nan x) = true ->
  UploadItem.eqb x x = true.
Proof.
  unfold UploadItem.valid, UploadItem.has_nan, UploadItem.eqb.
  intros H. apply andb_prop in H. destruct H as [H Hn].
  apply negb_true_iff in Hn. split_valid H.
  repeat (apply andb_true_intro; split);
    typed_eqb.
Qed.

Lemma file_metadata_wf (x : FileMetadata.t) :
  FileMetadata.valid x = true -> Json.wf (FileMetadata.asdict x) = true.
Proof.
  unfold FileMetadata.valid. intros H. split_valid H.
  destruct x; simpl in *.
  repeat (apply andb_true_intro; split);
    typed_wf.
Qed.

Lemma file_metadata_from_asdict (x : FileMetadata.t) :
  FileMetadata.from_dict (FileMetadata.asdict x) = Ok x.
Proof. destruct x; reflexivity. Qed.

Lemma file_metadata_eqb_refl (x : FileMetadata.t) :
  FileMetadata.valid x && negb (FileMetadata.has_nan x) = true ->
  FileMetadata.eqb x x = true.
Proof.
  unfold FileMetadata.valid, FileMetadata.has_nan, FileMetadata.eqb.
  intros H. apply andb_prop in H. destruct H as [H Hn].
  apply negb_true_iff in Hn. apply orb_false_elim in Hn. destruct Hn as [Hn1 Hn2].
  split_valid H.
  repeat (apply andb_true_intro; split);
    typed_eqb.
Qed.

Lemma forallb_wf_map {A : Type} (ok : A -> bool) (asdict : A -> value) (l : list A) :
  (forall x, ok x = true -> Json.wf (asdict x) = true) ->
  forallb ok l = true -> forallb Json.wf (map asdict l) = true.
Proof.
  intros Hx. induction l as [|a l IH]; simpl; [reflexivity|].
  intros H. apply andb_prop in H. destruct H as [Ha Hl].
  now rewrite (Hx a Ha), (IH Hl).
Qed.

Lemma forallb_not_exists {A : Type} (ok nan : A -> bool) (l : list A) :
  forallb ok l = true -> existsb nan l = false ->
  forallb (fun x => ok x && negb (nan x)) l = true.
Proof.
  induction l as [|a l IH]; simpl; [reflexivity|].
  intros H Hn. apply andb_prop in H. destruct H as [Ha Hl].
  apply orb_false_elim in Hn. destruct Hn as [Hna Hnl].
  now rewrite Ha, Hna, (IH Hl Hnl).
Qed.

Lemma command_message_roundtrip (x : CommandMessage.t) :
  CommandMessage.valid x = true ->
  CommandMessage.from_json (CommandMessage.to_json x) = Ok x.
Proof.
  unfold CommandMessage.valid. intros H. split_valid H.
  destruct x as [cmd ts dev fn url]. simpl in *.
  destruct cmd as [c|v]; [|discriminate H].
  unfold CommandMessage.from_json, CommandMessage.to_json. simpl.
  rewrite loads_dumps.
  - destruct c; reflexivity.
  - simpl. repeat (apply andb_true_intro; split); typed_wf.
Qed.

Lemma command_message_eqb_refl (x : CommandMessage.t) :
  CommandMessage.valid x = true -> CommandMessage.has_nan x = false ->
  CommandMessage.eqb x x = true.
Proof.
  unfold CommandMessage.valid, CommandMessage.has_nan, CommandMessage.eqb.
  intros H Hn. split_valid H.
  repeat (apply andb_true_intro; split); try typed_eqb.
  destruct (CommandMessage.command x) as [c|v]; [|discriminate H].
  apply String.eqb_refl.
Qed.

Lemma status_response_roundtrip (x : StatusResponse.t) :
  StatusResponse.valid x = true ->
  StatusResponse.from_json (StatusResponse.to_json x) = Ok x.
Proof.
  unfold StatusResponse.valid. intros H. split_valid H.
  destruct x as [dev st ts bl uq fq]. simpl in *.
  unfold StatusResponse.from_json, StatusResponse.to_json. simpl.
  rewrite loads_dumps.
  - unfold StatusResponse.upload_items. simpl.
    rewrite !(mapM_map _ _ _ upload_item_from_asdict). reflexivity.
  - simpl. repeat (apply andb_true_intro; split);
      try typed_wf;
      apply (forallb_wf_map UploadItem.valid _ _ upload_item_wf); assumption.
Qed.

Lemma status_response_eqb_refl (x : StatusResponse.t) :
  StatusResponse.valid x = true -> StatusResponse.has_nan x = false ->
  StatusResponse.eqb x x = true.
Proof.
  unfold StatusResponse.valid, StatusResponse.has_nan, StatusResponse.eqb.
  intros H Hn. split_valid H.
  apply orb_false_elim in Hn. destruct Hn as [Hn Hn3].
  apply orb_false_elim in Hn. destruct Hn as [Hn Hn2].
  apply orb_false_elim in Hn. destruct Hn as [Hn0 Hn1].
  repeat (apply andb_true_intro; split); try typed_eqb.
  - eapply list_eqb_refl; [apply upload_item_eqb_refl|].
    now apply forallb_not_exists.
  - eapply list_eqb_refl; [apply upload_item_eqb_refl|].
    now apply forallb_not_exists.
Qed.

Lemma stop_recording_response_roundtrip (x : StopRecordingResponse.t) :
  StopRecordingResponse.valid x = true ->
  StopRecordingResponse.from_json (StopRecordingResponse.to_json x) = Ok x.
Proof.
  unfold StopRecordingResponse.valid. intros H. split_valid H.
  destruct x as [dev st ts fn fs]. simpl in *.
  unfold StopRecordingResponse.from_json, StopRecordingResponse.to_json.
  rewrite loads_dumps; [reflexivity|].
  simpl. repeat (apply andb_true_intro; split); typed_wf.
Qed.

Lemma stop_recording_response_eqb_refl (x : StopRecordingResponse.t) :
  StopRecordingResponse.valid x = true -> StopRecordingResponse.has_nan x = false ->
  StopRecordingResponse.eqb x x = true.
Proof.
  unfold StopRecordingResponse.valid, StopRecordingResponse.has_nan,
    StopRecordingResponse.eqb.
  intros H Hn. split_valid H.
  repeat (apply andb_true_intro; split); typed_eqb.
Qed.

Lemma error_response_roundtrip (x : ErrorResponse.t) :
  ErrorResponse.valid x = true ->
  ErrorResponse.from_json (ErrorResponse.to_json x) = Ok x.
Proof.
  unfold ErrorResponse.valid. intros H. split_valid H.
  destruct x as [dev st ts msg]. simpl in *.
  unfold ErrorResponse.from_json, ErrorResponse.to_json.
  rewrite loads_dumps; [reflexivity|].
  simpl. repeat (apply andb_true_intro; split); typed_wf.
Qed.

Lemma error_response_eqb_refl (x : ErrorResponse.t) :
  ErrorResponse.valid x = true -> ErrorResponse.has_nan x = false ->
  ErrorResponse.eqb x x = true.
Proof.
  unfold ErrorResponse.valid, ErrorResponse.has_nan, ErrorResponse.eqb.
  intros H Hn. split_valid H.
  repeat (apply andb_true_intro; split); typed_eqb.
Qed.

Lemma file_response_roundtrip (x : FileResponse.t) :
  FileResponse.valid x = true ->
  FileResponse.from_json (FileResponse.to_json x) = Ok x.
Proof.
  unfold FileResponse.valid. intros H. split_valid H.
  destruct x as [dev fn fs st]. simpl in *.
  unfold FileResponse.from_json, FileResponse.to_json.
  rewrite loads_dumps; [reflexivity|].
  simpl. repeat (apply andb_true_intro; split); typed_wf.
Qed.

Lemma file_response_eqb_refl (x : FileResponse.t) :
  FileResponse.valid x = true -> FileResponse.eqb x x = true.
Proof.
  unfold FileResponse.valid, FileResponse.eqb.
  intros H. split_valid H.
  repeat (apply andb_true_intro; split); typed_eqb.
Qed.

Lemma list_files_response_roundtrip (x : ListFilesResponse.t) :
  ListFilesResponse.valid x = true ->
  ListFilesResponse.from_json (ListFilesResponse.to_json x) = Ok x.
Proof.
  unfold ListFilesResponse.valid. intros H. split_valid H.
  destruct x as [dev st ts fl]. simpl in *.
  unfold ListFilesResponse.from_json, ListFilesResponse.to_json. simpl.
  rewrite loads_dumps.
  - simpl. rewrite (mapM_map _ _ _ file_metadata_from_asdict). reflexivity.
  - simpl. repeat (apply andb_true_intro; split);
      try typed_wf;
      apply (forallb_wf_map FileMetadata.valid _ _ file_metadata_wf); assumption.
Qed.

Lemma list_files_response_eqb_refl (x : ListFilesResponse.t) :
  ListFilesResponse.valid x = true -> ListFilesResponse.has_nan x = false ->
  ListFilesResponse.eqb x x = true.
Proof.
  unfold ListFilesResponse.valid, ListFilesResponse.has_nan, ListFilesResponse.eqb.
  intros H Hn. split_valid H.
  apply orb_false_elim in Hn. destruct Hn as [Hn0 Hn1].
  repeat (apply andb_true_intro; split); try typed_eqb.
  eapply list_eqb_refl; [apply file_metadata_eqb_refl|].
  now apply forallb_not_exists.
Qed.

(** C1, as the code has it.  For each of the six message types, a value
    whose fields hold what their annotations say goes through [to_json]
    and [from_json] unchanged, field for field; and the copy is [==] to
    the original provided no float field is a NaN (a NaN is not [==] to
    itself). *)
Theorem json_round_trip :
  (forall x, CommandMessage.valid x = true ->
     CommandMessage.from_json (CommandMessage.to_json x) = Ok x /\
     (CommandMessage.has_nan x = false ->
      round_trips CommandMessage.to_json CommandMessage.from_json
        CommandMessage.eqb x)) /\
  (forall x, StatusResponse.valid x = true ->
     StatusResponse.from_json (StatusResponse.to_json x) = Ok x /\
     (StatusResponse.has_nan x = false ->
      round_trips StatusResponse.to_json StatusResponse.from_json
        StatusResponse.eqb x)) /\
  (forall x, StopRecordingResponse.valid x = true ->
     StopRecordingResponse.from_json (StopRecordingResponse.to_json x) = Ok x /\
     (StopRecordingResponse.has_nan x = false ->
      round_trips StopRecordingResponse.to_json StopRecordingResponse.from_json
        StopRecordingResponse.eqb x)) /\
  (forall x, ErrorResponse.valid x = true ->
     ErrorResponse.from_json (ErrorResponse.to_json x) = Ok x /\
     (ErrorResponse.has_nan x = false ->
      round_trips ErrorResponse.to_json ErrorResponse.from_json
        ErrorResponse.eqb x)) /\
  (forall x, FileResponse.valid x = true ->
     FileResponse.from_json (FileResponse.to_json x) = Ok x /\
     round_trips FileResponse.to_json FileResponse.from_json FileResponse.eqb x) /\
  (forall x, ListFilesResponse.valid x = true ->
     ListFilesResponse.from_json (ListFilesResponse.to_json x) = Ok x /\
     (ListFilesResponse.has_nan x = false ->
      round_trips ListFilesResponse.to_json ListFilesResponse.from_json
        ListFilesResponse.eqb x)).
Proof.
  unfold round_trips. repeat split; intros.
  - now apply command_message_roundtrip.
  - exists x. split; [now apply command_message_roundtrip|].
    now apply command_message_eqb_refl.
  - now apply status_response_roundtrip.
  - exists x. split; [now apply status_response_roundtrip|].
    now apply status_response_eqb_refl.
  - now apply stop_recording_response_roundtrip.
  - exists x. split; [now apply stop_recording_response_roundtrip|].
    now apply stop_recording_response_eqb_refl.
  - now apply error_response_roundtrip.
  - exists x. split; [now apply error_response_roundtrip|].
    now apply error_response_eqb_refl.
  - now apply file_response_roundtrip.
  - exists x. split; [now apply file_response_roundtrip|].
    now apply file_response_eqb_refl.
  - now apply list_files_response_roundtrip.
  - exists x. split; [now apply list_files_response_roundtrip|].
    now apply list_files_response_eqb_refl.
Qed.

(** An upload command with both optional fields, and a status with one
    queued upload and no battery level. *)
Lemma json_round_trip_witness :
  round_trips CommandMessage.to_json CommandMessage.from_json CommandMessage.eqb
    (CommandMessage.upload_to_cloud (FFinite false [d1; d7; d2; d9; d0; d0; d5] 10)
       "clip_001.mp4" "https://bucket.example/clip_001.mp4?sig=a%2Fb" "controller")
  /\
  round_trips StatusResponse.to_json StatusResponse.from_json StatusResponse.eqb
    (StatusResponse.mk (VStr "cam-1") (VStr "uploading")
       (VFloat (FFinite false [d1; d7; d2; d9] 10)) VNone
       [UploadItem.mk (VStr "clip_001.mp4") (VInt 524288) (VInt 1024)
          (VFloat (FFinite false [d1; d9; d5; d3; d1; d2; d5] 0)) (VInt 8192)
          (VStr "uploading") (VStr "https://bucket.example/clip_001.mp4")
          VNone]
       []).
Proof.
  split.
  - apply (proj1 json_round_trip); reflexivity.
  - apply (proj1 (proj2 json_round_trip)); reflexivity.
Defined.

(** C1 fails as stated: a heartbeat whose timestamp is a NaN holds what
    its annotations say, its text decodes, and the copy is not [==] to
    it. *)
Lemma json_round_trip_counterexample :
  CommandMessage.valid
    (CommandMessage.mk (CommandMessage.Member CommandType.HEARTBEAT)
       (VFloat FNaN) (VStr "controller") VNone VNone) = true /\
  exists y,
    CommandMessage.from_json
      (CommandMessage.to_json
         (CommandMessage.mk (CommandMessage.Member CommandType.HEARTBEAT)
            (VFloat FNaN) (VStr "controller") VNone VNone)) = Ok y /\
    CommandMessage.eqb y
      (CommandMessage.mk (CommandMessage.Member CommandType.HEARTBEAT)
         (VFloat FNaN) (VStr "controller") VNone VNone) = false.
Proof.
  split; [reflexivity|]. eexists. split; reflexivity.
Qed.

(** ** The framing of a file transfer *)

Section Framing.

Import Wire.
Local Open Scope list_scope.

Lemma N_of_byte_of_N (n : N) : (n < 256)%N -> N_of_byte (byte_of_N n) = n.
Proof.
  intros H. unfold N_of_byte, byte_of_N.
  rewrite ascii_of_byte_of_ascii. now apply N_ascii_embedding.
Qed.

Lemma be_value_be32 (n : N) : (n < 4294967296)%N -> be_value (be32 n) = n.
Proof.
  intros H. unfold be_value, be32. simpl fold_left.
  rewrite !N_of_byte_of_N by (apply N.mod_lt; discriminate).
  zify. Z.to_euclidean_division_equations. lia.
Qed.

Lemma firstn_length_app {A : Type} (a b : list A) :
  firstn (List.length a) (a ++ b) = a.
Proof. induction a as [|x a IH]; simpl; [reflexivity | now rewrite IH]. Qed.

Lemma skipn_length_app {A : Type} (a b : list A) :
  skipn (List.length a) (a ++ b) = b.
Proof. induction a as [|x a IH]; simpl; [reflexivity | exact IH]. Qed.

Lemma read_exactly_app (a b : list Byte.byte) :
  read_exactly (List.length a) (a ++ b) = Some (a, b).
Proof.
  unfold read_exactly.
  replace (List.length (a ++ b) <? List.length a)%nat with false
    by (symmetry; apply Nat.ltb_ge; rewrite length_app; lia).
  now rewrite firstn_length_app, skipn_length_app.
Qed.

Lemma read_exactly_short (n : nat) (s : list Byte.byte) :
  (List.length s < n)%nat -> read_exactly n s = None.
Proof.
  intros H. unfold read_exactly. apply Nat.ltb_lt in H. now rewrite H.
Qed.

Lemma decode_utf8_encode_char (c : ascii) (r : list Byte.byte) :
  decode_utf8 (encode_char c ++ r) = option_map (String c) (decode_utf8 r).
Proof. destruct c as [[] [] [] [] [] [] [] []]; reflexivity. Qed.

Lemma decode_utf8_encode_utf8 (s : string) : decode_utf8 (encode_utf8 s) = Some s.
Proof.
  induction s as [|c s IH]; [reflexivity|].
  simpl encode_utf8. now rewrite decode_utf8_encode_char, IH.
Qed.

Lemma decode_prefix (n : N) (r : list Byte.byte) :
  (n < 4294967296)%N ->
  decode (be32 n ++ r)
  = match read_exactly (N.to_nat n) r with
    | None => inl TruncatedStream
    | Some (header_bytes, after_header) =>
        match decode_utf8 header_bytes with
        | None => inl MalformedJson
        | Some text =>
            match FileResponse.from_json text with
            | Raise (KeyError name) => inl (MissingField name)
            | Raise _ => inl MalformedJson
            | Ok header =>
                match FileResponse.fileSize header with
                | VInt size =>
                    if (size <? 0)%Z then inl MalformedJson
                    else
                      match read_exactly (Z.to_nat size) after_header with
                      | None => inl TruncatedStream
                      | Some (content, rest) => inr (header, content, rest)
                      end
                | _ => inl MalformedJson
                end
            end
        end
    end.
Proof.
  intros Hn. unfold decode.
  change (read_exactly 4 (be32 n ++ r)) with (Some (be32 n, r)).
  cbv beta iota. now rewrite (be_value_be32 n Hn).
Qed.

Lemma decode_header (header : FileResponse.t) (content r : list Byte.byte) :
  announces header content ->
  decode (be32 (N.of_nat (List.length (encode_utf8 (FileResponse.to_json header))))
            ++ encode_utf8 (FileResponse.to_json header) ++ r)
  = match read_exactly (List.length content) r with
    | None => inl TruncatedStream
    | Some (c, rest) => inr (header, c, rest)
    end.
Proof.
  intros [Hv [Hs Hn]]. rewrite (decode_prefix _ _ Hn).
  rewrite Nat2N.id, read_exactly_app, decode_utf8_encode_utf8.
  rewrite (file_response_roundtrip header Hv), Hs.
  replace (Z.of_nat (List.length content) <? 0)%Z with false
    by (symmetry; apply Z.ltb_ge; lia).
  now rewrite Nat2Z.id.
Qed.

(** C6.  The frame of a file transfer is the four bytes of the header's
    length, the most significant first, then the header, the JSON
    object of [deviceId], [fileName], [fileSize] and [status], then the
    content; the decoder gives header and content back from it, and
    reports a truncated stream, never a result, for any proper prefix
    of it: one that ends inside the prefix, inside the header or inside
    the content. *)
Theorem file_transfer_framing (header : FileResponse.t) (content : list Byte.byte)
  (H : announces header content) :
  let h := encode_utf8 (FileResponse.to_json header) in
  (encode header content = be32 (N.of_nat (List.length h)) ++ h ++ content /\
   List.length (be32 (N.of_nat (List.length h))) = 4%nat /\
   be_value (be32 (N.of_nat (List.length h))) = N.of_nat (List.length h) /\
   decode_utf8 h = Some (FileResponse.to_json header) /\
   Json.loads (FileResponse.to_json header)
   = Ok (VDict [("deviceId", FileResponse.deviceId header);
                ("fileName", FileResponse.fileName header);
                ("fileSize", VInt (Z.of_nat (List.length content)));
                ("status", FileResponse.status header)])) /\
  (forall rest,
     decode (encode header content ++ rest) = inr (header, content, rest)) /\
  (forall k, (k < List.length (encode header content))%nat ->
     decode (firstn k (encode header content)) = inl TruncatedStream).
Proof.
  intros h. pose proof H as [Hv [Hs Hn]]. split; [|split].
  - repeat split.
    + now apply be_value_be32.
    + apply decode_utf8_encode_utf8.
    + unfold FileResponse.to_json. rewrite <- Hs. apply loads_dumps.
      unfold FileResponse.valid in Hv. split_valid Hv.
      simpl. repeat (apply andb_true_intro; split); typed_wf.
  - intros rest. unfold encode. rewrite <- !List.app_assoc.
    rewrite (decode_header header content _ H). now rewrite read_exactly_app.
  - intros k Hk. unfold encode in *. fold h in Hk |- *.
    rewrite !length_app in Hk.
    change (List.length (be32 (N.of_nat (List.length h)))) with 4%nat in Hk.
    destruct (Nat.lt_ge_cases k 4) as [Hk4 | Hk4].
    + unfold decode. rewrite read_exactly_short; [reflexivity|].
      rewrite length_firstn. lia.
    + rewrite firstn_app.
      change (List.length (be32 (N.of_nat (List.length h)))) with 4%nat.
      rewrite (firstn_all2 (be32 _)) by (simpl; lia).
      destruct (Nat.lt_ge_cases (k - 4) (List.length h)) as [Hkh | Hkh].
      * rewrite (decode_prefix _ _ Hn), read_exactly_short; [reflexivity|].
        rewrite length_firstn, Nat2N.id. fold h. lia.
      * rewrite firstn_app, (firstn_all2 h) by lia.
        unfold h. rewrite (decode_header header content _ H).
        rewrite read_exactly_short; [reflexivity|].
        rewrite length_firstn. fold h. lia.
Qed.

(** The header of a four-byte file and its content. *)
Lemma file_transfer_framing_witness :
  decode
    (encode
       (FileResponse.mk (VStr "cam-1") (VStr "clip_001.mp4") (VInt 4) (VStr "ready"))
       [Byte.x00; Byte.x01; Byte.xfe; Byte.xff])
  = inr (FileResponse.mk (VStr "cam-1") (VStr "clip_001.mp4") (VInt 4) (VStr "ready"),
         [Byte.x00; Byte.x01; Byte.xfe; Byte.xff], []) /\
  decode
    (firstn 80
       (encode
          (FileResponse.mk (VStr "cam-1") (VStr "clip_001.mp4") (VInt 4)
             (VStr "ready"))
          [Byte.x00; Byte.x01; Byte.xfe; Byte.xff]))
  = inl TruncatedStream.
Proof.
  assert (H : announces
                (FileResponse.mk (VStr "cam-1") (VStr "clip_001.mp4") (VInt 4)
                   (VStr "ready"))
                [Byte.x00; Byte.x01; Byte.xfe; Byte.xff]).
  { split; [reflexivity|]. split; reflexivity. }
  split.
  - rewrite <- (List.app_nil_r (encode _ _)).
    apply (proj1 (proj2 (file_transfer_framing _ _ H))).
  - apply (proj2 (proj2 (file_transfer_framing _ _ H))). vm_compute. lia.
Defined.

End Framing.

(** * Further properties *)

Section Further.

Local Open Scope list_scope.

(** ** The enumerations *)

(** X1. [CommandType(v)] finds a member exactly when [v] is the string
    of that member's value, and raises [ValueError] for every other
    object; two members never share a value. *)
Theorem command_type_lookup :
  (forall c, CommandType.of_value (VStr (CommandType.value c)) = Ok c) /\
  (forall v c, CommandType.of_value v = Ok c -> v = VStr (CommandType.value c)) /\
  (forall v, is_ok (CommandType.of_value v) = false ->
             CommandType.of_value v = Raise ValueError) /\
  (forall a b, CommandType.value a = CommandType.value b -> a = b).
Proof.
  split; [exact of_value_member|]. split; [|split].
  - intros v c H. destruct v as [| | | |s| |]; try discriminate H.
    unfold CommandType.of_value in H.
    destruct (find (fun m => String.eqb (CommandType.value m) s) CommandType.members)
      as [m|] eqn:E; [|discriminate H].
    injection H as <-. apply find_some in E. destruct E as [_ E].
    apply String.eqb_eq in E. now rewrite E.
  - intros v H. destruct v as [| | | |s| |]; try reflexivity.
    unfold CommandType.of_value in *. destruct (find _ _); [discriminate H | reflexivity].
  - intros a b H. destruct a; destruct b; (reflexivity || discriminate H).
Qed.

(** X2. No status is both a success and an error, and a string is
    classified at all exactly when its lower-casing is the value of a
    member of [DeviceStatus]. *)
Theorem classification_disjoint (s : string) :
  DeviceStatus.is_success s && DeviceStatus.is_error s = false /\
  (DeviceStatus.is_success s || DeviceStatus.is_error s = true <->
   exists v, lower s = DeviceStatus.value v).
Proof.
  unfold DeviceStatus.is_success, DeviceStatus.is_error.
  destruct (mem (lower s) DeviceStatus.success_statuses) eqn:E1;
    destruct (mem (lower s) DeviceStatus.error_statuses) eqn:E2; simpl.
  - apply mem_In in E1. apply mem_In in E2. simpl in E1, E2. exfalso.
    repeat (destruct E1 as [E1 | E1];
            [rewrite <- E1 in E2;
             repeat (destruct E2 as [E2 | E2]; [discriminate E2|]); destruct E2|]).
    destruct E1.
  - split; [reflexivity|]. split; [intros _ | reflexivity].
    apply mem_In in E1. simpl in E1.
    repeat (destruct E1 as [E1 | E1];
            [rewrite <- E1;
             first [ now exists DeviceStatus.READY
                   | now exists DeviceStatus.RECORDING
                   | now exists DeviceStatus.SCHEDULED_RECORDING_ACCEPTED
                   | now exists DeviceStatus.COMMAND_RECEIVED
                   | now exists DeviceStatus.RECORDING_STOPPED
                   | now exists DeviceStatus.STOPPING
                   | now exists DeviceStatus.UPLOADING
                   | now exists DeviceStatus.UPLOAD_QUEUED
                   | now exists DeviceStatus.UPLOAD_COMPLETED ]|]).
    destruct E1.
  - split; [reflexivity|]. split; [intros _ | reflexivity].
    apply mem_In in E2. simpl in E2.
    repeat (destruct E2 as [E2 | E2];
            [rewrite <- E2;
             first [ now exists DeviceStatus.ERROR
                   | now exists DeviceStatus.TIME_NOT_SYNCHRONIZED
                   | now exists DeviceStatus.FILE_NOT_FOUND
                   | now exists DeviceStatus.UPLOAD_FAILED ]|]).
    destruct E2.
  - split; [reflexivity|]. split; [discriminate|].
    intros [v Hv]. rewrite Hv in E1, E2. destruct v; discriminate.
Qed.

(** X3. The status strings of an upload item are not the device's: of
    the four values of [UploadStatus] none is an error for [is_error],
    "failed" included, and only "uploading" is a success for
    [is_success]. *)
Theorem upload_status_classification (u : UploadStatus.t) :
  DeviceStatus.is_error (UploadStatus.value u) = false /\
  (DeviceStatus.is_success (UploadStatus.value u) = true <->
   u = UploadStatus.UPLOADING).
Proof.
  destruct u; split; try reflexivity; split; intros H;
    (reflexivity || discriminate H).
Qed.

(** ** The constructors *)

(** X4. [start_recording] never sends a zero timestamp while the clock
    does not read zero: the timestamp of its message is true (not 0.0)
    whatever timestamp it was given. *)
Theorem start_recording_never_zero (now : pyfloat) (t : option pyfloat)
  (d : string) (Hnow : float_truthy now = true) :
  truthy (CommandMessage.timestamp (CommandMessage.start_recording now t d)) = true.
Proof.
  unfold CommandMessage.start_recording, CommandMessage.py_or. simpl.
  destruct t as [f|]; simpl; [|exact Hnow].
  destruct (float_truthy f) eqn:E; simpl; assumption.
Qed.

(** A start asked for at time zero, with the clock at 1729000000.0. *)
Lemma start_recording_never_zero_witness :
  truthy
    (CommandMessage.timestamp
       (CommandMessage.start_recording (FFinite false [d1; d7; d2; d9] 10)
          (Some (FFinite false [] 0)) "controller")) = true.
Proof.
  apply (start_recording_never_zero (FFinite false [d1; d7; d2; d9] 10)
           (Some (FFinite false [] 0)) "controller").
  reflexivity.
Defined.

(** ** Decoding an object *)

Lemma first_missing_absent (keys : list string) (d : list (string * value))
  (k : string) :
  first_missing keys d = Some k -> In k keys /\ lookup k d = None.
Proof.
  induction keys as [|a keys IH]; simpl; [discriminate|].
  destruct (lookup a d) eqn:E.
  - intros H. destruct (IH H). auto.
  - intros H. injection H as <-. auto.
Qed.

Lemma first_missing_agree (keys : list string) (d d' : list (string * value)) :
  agree_on keys d d' -> first_missing keys d = first_missing keys d'.
Proof.
  induction keys as [|a keys IH]; intros H; simpl; [reflexivity|].
  rewrite <- (H a (or_introl eq_refl)).
  destruct (lookup a d); [|reflexivity].
  apply IH. intros k Hk. apply H. now right.
Qed.

Lemma lookup_default_agree (keys : list string) (d d' : list (string * value))
  (k : string) (v : value) :
  agree_on keys d d' -> In k keys -> lookup_default k d v = lookup_default k d' v.
Proof. intros H Hk. unfold lookup_default. now rewrite (H k Hk). Qed.

Ltac by_lookups d :=
  repeat (match goal with
          | |- context [lookup ?k d] => destruct (lookup k d)
          end; cbn [bind]; try reflexivity).

(** X5. Decoding a response from a JSON object checks that the
    required keys are there, in the order of the fields, and nothing
    else: [StopRecordingResponse], [ErrorResponse] and [FileResponse]
    raise [KeyError] on the first of their keys the object lacks, and
    otherwise take each field as the object has it, of whatever type. *)
Theorem response_decoding (json_str : string) (d : list (string * value))
  (H : Json.loads json_str = Ok (VDict d)) :
  StopRecordingResponse.from_json json_str
  = match first_missing ["deviceId"; "status"; "timestamp"; "fileName"; "fileSize"] d
    with
    | Some k => Raise (KeyError k)
    | None =>
        Ok (StopRecordingResponse.mk
              (lookup_default "deviceId" d VNone) (lookup_default "status" d VNone)
              (lookup_default "timestamp" d VNone) (lookup_default "fileName" d VNone)
              (lookup_default "fileSize" d VNone))
    end /\
  ErrorResponse.from_json json_str
  = match first_missing ["deviceId"; "status"; "timestamp"; "message"] d with
    | Some k => Raise (KeyError k)
    | None =>
        Ok (ErrorResponse.mk
              (lookup_default "deviceId" d VNone) (lookup_default "status" d VNone)
              (lookup_default "timestamp" d VNone) (lookup_default "message" d VNone))
    end /\
  FileResponse.from_json json_str
  = match first_missing ["deviceId"; "fileName"; "fileSize"; "status"] d with
    | Some k => Raise (KeyError k)
    | None =>
        Ok (FileResponse.mk
              (lookup_default "deviceId" d VNone) (lookup_default "fileName" d VNone)
              (lookup_default "fileSize" d VNone) (lookup_default "status" d VNone))
    end.
Proof.
  unfold StopRecordingResponse.from_json, ErrorResponse.from_json,
    FileResponse.from_json.
  rewrite H. cbn [bind subscript first_missing]. unfold lookup_default.
  repeat split; by_lookups d.
Qed.

(** An error response without its message. *)
Lemma response_decoding_witness :
  ErrorResponse.from_json
    (Json.quoted "{'deviceId': 'cam-1', 'status': 'error', 'timestamp': 3, 'extra': []}")
  = Raise (KeyError "message").
Proof.
  exact (proj1 (proj2 (response_decoding
           (Json.quoted
              "{'deviceId': 'cam-1', 'status': 'error', 'timestamp': 3, 'extra': []}")
           [("deviceId", VStr "cam-1"); ("status", VStr "error");
            ("timestamp", VInt 3); ("extra", VList [])]
           eq_refl))).
Defined.

Lemma upload_item_from_dict_object (d : list (string * value)) :
  UploadItem.from_dict (VDict d)
  = match first_missing ["fileName"; "fileSize"; "bytesUploaded";
                         "uploadProgress"; "uploadSpeed"; "status"; "uploadUrl"] d
    with
    | Some k => Raise (KeyError k)
    | None =>
        Ok (UploadItem.mk
              (lookup_default "fileName" d VNone)
              (lookup_default "fileSize" d VNone)
              (lookup_default "bytesUploaded" d VNone)
              (lookup_default "uploadProgress" d VNone)
              (lookup_default "uploadSpeed" d VNone)
              (lookup_default "status" d VNone)
              (lookup_default "uploadUrl" d VNone)
              (lookup_default "error" d VNone))
    end.
Proof.
  unfold UploadItem.from_dict.
  cbn [bind subscript dict_get first_missing].
  generalize (lookup_default "error" d VNone). intros e.
  unfold lookup_default. by_lookups d.
Qed.

Lemma file_metadata_from_dict_object (d : list (string * value)) :
  FileMetadata.from_dict (VDict d)
  = match first_missing ["fileName"; "fileSize"; "creationDate";
                         "modificationDate"] d
    with
    | Some k => Raise (KeyError k)
    | None =>
        Ok (FileMetadata.mk
              (lookup_default "fileName" d VNone)
              (lookup_default "fileSize" d VNone)
              (lookup_default "creationDate" d VNone)
              (lookup_default "modificationDate" d VNone))
    end.
Proof.
  unfold FileMetadata.from_dict.
  cbn [bind subscript first_missing]. unfold lookup_default. by_lookups d.
Qed.

(** X6. [UploadItem.from_dict] and [FileMetadata.from_dict] raise
    [KeyError] on the first required key a dict lacks and [TypeError]
    on what is not a dict; only [error] is optional, [None] when
    absent. *)
Theorem from_dict_decoding :
  (forall d,
     UploadItem.from_dict (VDict d)
     = match first_missing ["fileName"; "fileSize"; "bytesUploaded";
                            "uploadProgress"; "uploadSpeed"; "status"; "uploadUrl"] d
       with
       | Some k => Raise (KeyError k)
       | None =>
           Ok (UploadItem.mk
                 (lookup_default "fileName" d VNone)
                 (lookup_default "fileSize" d VNone)
                 (lookup_default "bytesUploaded" d VNone)
                 (lookup_default "uploadProgress" d VNone)
                 (lookup_default "uploadSpeed" d VNone)
                 (lookup_default "status" d VNone)
                 (lookup_default "uploadUrl" d VNone)
                 (lookup_default "error" d VNone))
       end) /\
  (forall d,
     FileMetadata.from_dict (VDict d)
     = match first_missing ["fileName"; "fileSize"; "creationDate";
                            "modificationDate"] d
       with
       | Some k => Raise (KeyError k)
       | None =>
           Ok (FileMetadata.mk
                 (lookup_default "fileName" d VNone)
                 (lookup_default "fileSize" d VNone)
                 (lookup_default "creationDate" d VNone)
                 (lookup_default "modificationDate" d VNone))
       end) /\
  (forall v, is_dict v = false ->
     UploadItem.from_dict v = Raise TypeError /\
     FileMetadata.from_dict v = Raise TypeError).
Proof.
  split; [exact upload_item_from_dict_object|].
  split; [exact file_metadata_from_dict_object|].
  intros v Hv. destruct v; try discriminate Hv; split; reflexivity.
Qed.

Lemma lookup_app (k : string) (d e : list (string * value)) :
  lookup k (d ++ e)
  = match lookup k d with
    | Some v => Some v
    | None => lookup k e
    end.
Proof.
  induction d as [|[k' v] d IH]; [reflexivity|].
  cbn [lookup List.app]. destruct (String.eqb k k'); [reflexivity | exact IH].
Qed.

Lemma lookup_app_absent (k : string) (d e : list (string * value)) :
  lookup k e = None -> lookup k (d ++ e) = lookup k d.
Proof.
  intros He. rewrite lookup_app, He. now destruct (lookup k d).
Qed.

(** X7. An upload item goes through [asdict] and [from_dict]
    unchanged, whatever its fields hold; and [from_dict] cannot tell an
    absent [error] from an [error] that is [None]. *)
Theorem upload_item_dict_round_trip :
  (forall x, UploadItem.from_dict (UploadItem.asdict x) = Ok x) /\
  (forall d, lookup "error" d = None ->
     UploadItem.from_dict (VDict (d ++ [("error", VNone)]))
     = UploadItem.from_dict (VDict d)).
Proof.
  split; [exact upload_item_from_asdict|].
  intros d He.
  assert (A : agree_on ["fileName"; "fileSize"; "bytesUploaded"; "uploadProgress";
                        "uploadSpeed"; "status"; "uploadUrl"]
                (d ++ [("error", VNone)]) d).
  { intros k Hk. apply lookup_app_absent. simpl in Hk.
    repeat (destruct Hk as [<- | Hk]; [reflexivity|]). destruct Hk. }
  rewrite !upload_item_from_dict_object.
  rewrite (first_missing_agree _ _ _ A).
  rewrite !(lookup_default_agree _ _ _ _ _ A) by (simpl; auto 10).
  replace (lookup_default "error" (d ++ [("error", VNone)]) VNone)
    with (lookup_default "error" d VNone); [reflexivity|].
  unfold lookup_default. now rewrite lookup_app, He.
Qed.

Lemma command_message_from_dict (json_str : string) (d : list (string * value)) :
  Json.loads json_str = Ok (VDict d) ->
  CommandMessage.from_json json_str
  = match lookup "command" d with
    | None => Raise (KeyError "command")
    | Some raw =>
        match CommandType.of_value raw with
        | Raise e => Raise e
        | Ok c =>
            match lookup "timestamp" d with
            | None => Raise (KeyError "timestamp")
            | Some t =>
                Ok (CommandMessage.mk (CommandMessage.Member c) t
                      (lookup_default "deviceId" d (VStr "controller"))
                      (lookup_default "fileName" d VNone)
                      (lookup_default "uploadUrl" d VNone))
            end
        end
    end.
Proof.
  intros H. unfold CommandMessage.from_json. rewrite H.
  cbn [bind subscript dict_get].
  destruct (lookup "command" d) as [raw|]; cbn [bind]; [|reflexivity].
  destruct (CommandType.of_value raw) as [c|e]; cbn [bind]; [|reflexivity].
  destruct (lookup "timestamp" d) as [t|]; reflexivity.
Qed.

Lemma status_response_from_dict (json_str : string) (d : list (string * value)) :
  Json.loads json_str = Ok (VDict d) ->
  StatusResponse.from_json json_str
  = match StatusResponse.upload_items (VDict d) "uploadQueue" with
    | Raise e => Raise e
    | Ok uq =>
        match StatusResponse.upload_items (VDict d) "failedUploadQueue" with
        | Raise e => Raise e
        | Ok fq =>
            match first_missing ["deviceId"; "status"; "timestamp"] d with
            | Some k => Raise (KeyError k)
            | None =>
                Ok (StatusResponse.mk
                      (lookup_default "deviceId" d VNone)
                      (lookup_default "status" d VNone)
                      (lookup_default "timestamp" d VNone)
                      (lookup_default "batteryLevel" d VNone) uq fq)
            end
        end
    end.
Proof.
  intros H. unfold StatusResponse.from_json. rewrite H. cbn [bind].
  destruct (StatusResponse.upload_items (VDict d) "uploadQueue") as [uq|e];
    cbn [bind]; [|reflexivity].
  destruct (StatusResponse.upload_items (VDict d) "failedUploadQueue") as [fq|e];
    cbn [bind]; [|reflexivity].
  cbn [bind subscript dict_get first_missing].
  generalize (lookup_default "batteryLevel" d VNone). intros b.
  unfold lookup_default. by_lookups d.
Qed.

Lemma upload_items_agree (key : string) (d d' : list (string * value)) :
  lookup key d = lookup key d' ->
  StatusResponse.upload_items (VDict d) key
  = StatusResponse.upload_items (VDict d') key.
Proof.
  intros H. unfold StatusResponse.upload_items, dict_get, lookup_default.
  now rewrite H.
Qed.

(** X8. Decoding looks at its own keys only: two objects that hold the
    same under the keys of a [CommandMessage] decode to the same
    message or raise the same exception, and so for a
    [StatusResponse]; a key the class does not know is ignored. *)
Theorem unknown_keys_ignored (s s' : string) (d d' : list (string * value))
  (H : Json.loads s = Ok (VDict d)) (H' : Json.loads s' = Ok (VDict d')) :
  (agree_on ["command"; "timestamp"; "deviceId"; "fileName"; "uploadUrl"] d d' ->
   CommandMessage.from_json s = CommandMessage.from_json s') /\
  (agree_on ["deviceId"; "status"; "timestamp"; "batteryLevel"; "uploadQueue";
             "failedUploadQueue"] d d' ->
   StatusResponse.from_json s = StatusResponse.from_json s').
Proof.
  split; intros A.
  - rewrite (command_message_from_dict s d H), (command_message_from_dict s' d' H').
    rewrite !(lookup_default_agree _ _ _ _ _ A) by (simpl; auto 10).
    rewrite (A "command"), (A "timestamp") by (simpl; auto 10). reflexivity.
  - rewrite (status_response_from_dict s d H), (status_response_from_dict s' d' H').
    rewrite (upload_items_agree "uploadQueue" d d') by (apply A; simpl; auto 10).
    rewrite (upload_items_agree "failedUploadQueue" d d')
      by (apply A; simpl; auto 10).
    rewrite !(lookup_default_agree _ _ _ _ _ A) by (simpl; auto 10).
    rewrite (first_missing_agree ["deviceId"; "status"; "timestamp"] d d');
      [reflexivity|].
    intros k Hk. apply A. simpl in Hk |- *. intuition.
Qed.

(** A heartbeat, and the same with a key no class knows. *)
Lemma unknown_keys_ignored_witness :
  CommandMessage.from_json
    (Json.quoted "{'command': 'HEARTBEAT', 'timestamp': 7, 'priority': 'high'}")
  = CommandMessage.from_json (Json.quoted "{'command': 'HEARTBEAT', 'timestamp': 7}").
Proof.
  apply (proj1 (unknown_keys_ignored
           (Json.quoted "{'command': 'HEARTBEAT', 'timestamp': 7, 'priority': 'high'}")
           (Json.quoted "{'command': 'HEARTBEAT', 'timestamp': 7}")
           [("command", VStr "HEARTBEAT"); ("timestamp", VInt 7);
            ("priority", VStr "high")]
           [("command", VStr "HEARTBEAT"); ("timestamp", VInt 7)]
           eq_refl eq_refl)).
  intros k Hk. simpl in Hk.
  repeat (destruct Hk as [<- | Hk]; [reflexivity|]). destruct Hk.
Defined.

(** X9. A document that is JSON but not an object: the decoders that
    subscript first raise [TypeError], the two that call [get] first,
    [StatusResponse] and [ListFilesResponse], raise [AttributeError]. *)
Theorem non_object_document (json_str : string) (v : value)
  (H : Json.loads json_str = Ok v) (Hv : is_dict v = false) :
  CommandMessage.from_json json_str = Raise TypeError /\
  StopRecordingResponse.from_json json_str = Raise TypeError /\
  ErrorResponse.from_json json_str = Raise TypeError /\
  FileResponse.from_json json_str = Raise TypeError /\
  StatusResponse.from_json json_str = Raise AttributeError /\
  ListFilesResponse.from_json json_str = Raise AttributeError.
Proof.
  unfold CommandMessage.from_json, StopRecordingResponse.from_json,
    ErrorResponse.from_json, FileResponse.from_json, StatusResponse.from_json,
    ListFilesResponse.from_json.
  rewrite H. destruct v; try discriminate Hv; repeat split.
Qed.

(** A list where an object is expected. *)
Lemma non_object_document_witness :
  CommandMessage.from_json (Json.quoted "['HEARTBEAT', 1.5]") = Raise TypeError /\
  StatusResponse.from_json (Json.quoted "['HEARTBEAT', 1.5]") = Raise AttributeError.
Proof.
  pose proof (non_object_document (Json.quoted "['HEARTBEAT', 1.5]")
                (VList [VStr "HEARTBEAT"; VFloat (FFinite false [d1; d5] 1)])
                eq_refl eq_refl) as H.
  split; [apply H | apply (proj2 (proj2 (proj2 (proj2 H))))].
Defined.

(** X10. In [StatusResponse.from_json] the queues come first: what
    decoding [uploadQueue] raises is raised, then what decoding
    [failedUploadQueue] raises, and only with both queues decoded is a
    missing [deviceId], [status] or [timestamp] reported. *)
Theorem status_response_error_order (json_str : string)
  (d : list (string * value)) (H : Json.loads json_str = Ok (VDict d)) :
  (forall e,
     StatusResponse.upload_items (VDict d) "uploadQueue" = Raise e ->
     StatusResponse.from_json json_str = Raise e) /\
  (forall uq e,
     StatusResponse.upload_items (VDict d) "uploadQueue" = Ok uq ->
     StatusResponse.upload_items (VDict d) "failedUploadQueue" = Raise e ->
     StatusResponse.from_json json_str = Raise e) /\
  (forall uq fq,
     StatusResponse.upload_items (VDict d) "uploadQueue" = Ok uq ->
     StatusResponse.upload_items (VDict d) "failedUploadQueue" = Ok fq ->
     StatusResponse.from_json json_str
     = match first_missing ["deviceId"; "status"; "timestamp"] d with
       | Some k => Raise (KeyError k)
       | None =>
           Ok (StatusResponse.mk
                 (lookup_default "deviceId" d VNone)
                 (lookup_default "status" d VNone)
                 (lookup_default "timestamp" d VNone)
                 (lookup_default "batteryLevel" d VNone) uq fq)
       end).
Proof.
  rewrite (status_response_from_dict json_str d H). repeat split.
  - intros e E. now rewrite E.
  - intros uq e E1 E2. now rewrite E1, E2.
  - intros uq fq E1 E2. now rewrite E1, E2.
Qed.

(** A status without a device id whose queue holds an entry without
    a file name: the entry is what is reported. *)
Lemma status_response_error_order_witness :
  StatusResponse.from_json
    (Json.quoted "{'status': 'ready', 'uploadQueue': [{'fileSize': 3}]}")
  = Raise (KeyError "fileName").
Proof.
  apply (proj1 (status_response_error_order
           (Json.quoted "{'status': 'ready', 'uploadQueue': [{'fileSize': 3}]}")
           [("status", VStr "ready");
            ("uploadQueue", VList [VDict [("fileSize", VInt 3)]])]
           eq_refl)).
  reflexivity.
Defined.

(** X11. What a queue decodes from: an absent key gives the empty
    list; a list gives its entries through [from_dict], in order, up to
    the first that raises; an empty dict and an empty string pass for
    an empty queue; anything else, [None] included, raises
    [TypeError]. *)
Theorem upload_queue_shapes (d : list (string * value)) (key : string) :
  (lookup key d = None -> StatusResponse.upload_items (VDict d) key = Ok []) /\
  (forall v, lookup key d = Some v ->
     StatusResponse.upload_items (VDict d) key
     = match v with
       | VList l => mapM UploadItem.from_dict l
       | VDict [] => Ok []
       | VStr EmptyString => Ok []
       | _ => Raise TypeError
       end).
Proof.
  split.
  - apply upload_items_absent.
  - intros v Hv. unfold StatusResponse.upload_items, dict_get, lookup_default.
    rewrite Hv. cbn [bind].
    destruct v as [|b|z|f|s|l|e]; try reflexivity.
    + destruct s; reflexivity.
    + destruct e as [|[k w] e]; reflexivity.
Qed.

(** X12. [ListFilesResponse.from_json] on an object: without [files]
    the list is empty; with a list under [files] its entries go through
    [FileMetadata.from_dict], and what one of them raises is raised
    before a missing [deviceId], [status] or [timestamp] is. *)
Theorem list_files_decoding (json_str : string) (d : list (string * value))
  (H : Json.loads json_str = Ok (VDict d)) :
  (lookup "files" d = None ->
   ListFilesResponse.from_json json_str
   = match first_missing ["deviceId"; "status"; "timestamp"] d with
     | Some k => Raise (KeyError k)
     | None =>
         Ok (ListFilesResponse.mk
               (lookup_default "deviceId" d VNone) (lookup_default "status" d VNone)
               (lookup_default "timestamp" d VNone) [])
     end) /\
  (forall l, lookup "files" d = Some (VList l) ->
   ListFilesResponse.from_json json_str
   = match mapM FileMetadata.from_dict l with
     | Raise e => Raise e
     | Ok files =>
         match first_missing ["deviceId"; "status"; "timestamp"] d with
         | Some k => Raise (KeyError k)
         | None =>
             Ok (ListFilesResponse.mk
                   (lookup_default "deviceId" d VNone)
                   (lookup_default "status" d VNone)
                   (lookup_default "timestamp" d VNone) files)
         end
     end).
Proof.
  unfold ListFilesResponse.from_json. rewrite H.
  cbn [bind subscript dict_get first_missing]. split.
  - intros Hf. unfold lookup_default at 1. rewrite Hf. cbn [bind iterate mapM].
    unfold lookup_default. by_lookups d.
  - intros l Hf. unfold lookup_default at 1. rewrite Hf. cbn [bind iterate].
    destruct (mapM FileMetadata.from_dict l) as [files|e]; cbn [bind];
      [|reflexivity].
    unfold lookup_default. by_lookups d.
Qed.

(** A listing without files, and one whose only entry has no size. *)
Lemma list_files_decoding_witness :
  ListFilesResponse.from_json
    (Json.quoted "{'deviceId': 'cam-1', 'status': 'ready', 'timestamp': 4}")
  = Ok (ListFilesResponse.mk (VStr "cam-1") (VStr "ready") (VInt 4) []) /\
  ListFilesResponse.from_json
    (Json.quoted "{'status': 'ready', 'files': [{'fileName': 'a.mp4'}]}")
  = Raise (KeyError "fileSize").
Proof.
  split.
  - apply (proj1 (list_files_decoding
             (Json.quoted "{'deviceId': 'cam-1', 'status': 'ready', 'timestamp': 4}")
             [("deviceId", VStr "cam-1"); ("status", VStr "ready");
              ("timestamp", VInt 4)] eq_refl)).
    reflexivity.
  - apply (proj2 (list_files_decoding
             (Json.quoted "{'status': 'ready', 'files': [{'fileName': 'a.mp4'}]}")
             [("status", VStr "ready");
              ("files", VList [VDict [("fileName", VStr "a.mp4")]])] eq_refl)
             [VDict [("fileName", VStr "a.mp4")]]).
    reflexivity.
Defined.

(** ** Encoding a command *)

Lemma command_message_document_wf (c ts dev fn url : value) :
  Json.wf c = true -> Json.wf ts = true -> Json.wf dev = true ->
  Json.wf fn = true -> Json.wf url = true ->
  Json.wf (VDict [("command", c); ("timestamp", ts); ("deviceId", dev);
                  ("fileName", fn); ("uploadUrl", url)]) = true.
Proof.
  intros Hc Ht Hd Hf Hu. cbn [Json.wf map fst snd forallb].
  rewrite Hc, Ht, Hd, Hf, Hu. reflexivity.
Qed.

Lemma command_message_valid_wf (x : CommandMessage.t) :
  CommandMessage.valid x = true ->
  Json.wf (CommandMessage.timestamp x) = true /\
  Json.wf (CommandMessage.deviceId x) = true /\
  Json.wf (CommandMessage.fileName x) = true /\
  Json.wf (CommandMessage.uploadUrl x) = true.
Proof.
  unfold CommandMessage.valid. intros H. split_valid H.
  repeat split; typed_wf.
Qed.

(** X13. [to_json] always writes the five keys, in the order of the
    fields: an optional field that is [None] is written as null, not
    left out.  The text of a message whose fields hold what their
    annotations say reads as the object of these five entries. *)
Theorem to_json_writes_every_key (x : CommandMessage.t) (c : CommandType.t)
  (Hc : CommandMessage.command x = CommandMessage.Member c)
  (H : CommandMessage.valid x = true) :
  Json.loads (CommandMessage.to_json x)
  = Ok (VDict [("command", VStr (CommandType.value c));
               ("timestamp", CommandMessage.timestamp x);
               ("deviceId", CommandMessage.deviceId x);
               ("fileName", CommandMessage.fileName x);
               ("uploadUrl", CommandMessage.uploadUrl x)]).
Proof.
  destruct (command_message_valid_wf x H) as [Ht [Hd [Hf Hu]]].
  unfold CommandMessage.to_json. rewrite Hc.
  apply loads_dumps. now apply command_message_document_wf.
Qed.

(** A heartbeat, whose two optional fields are [None]. *)
Lemma to_json_writes_every_key_witness :
  Json.loads
    (CommandMessage.to_json
       (CommandMessage.heartbeat (FFinite false [d1; d5] 1) "controller"))
  = Ok (VDict [("command", VStr "HEARTBEAT");
               ("timestamp", VFloat (FFinite false [d1; d5] 1));
               ("deviceId", VStr "controller");
               ("fileName", VNone); ("uploadUrl", VNone)]).
Proof.
  exact (to_json_writes_every_key
           (CommandMessage.heartbeat (FFinite false [d1; d5] 1) "controller")
           CommandType.HEARTBEAT eq_refl eq_refl).
Defined.

(** X14. A command given as the plain string of a member's value is
    written as the member is, and decodes to the message with the
    member, which is [==] to the one with the string when the
    timestamp is no NaN. *)
Theorem plain_command_round_trip (c : CommandType.t) (ts dev fn url : value)
  (H : CommandMessage.valid
         (CommandMessage.mk (CommandMessage.Member c) ts dev fn url) = true) :
  CommandMessage.to_json
    (CommandMessage.mk (CommandMessage.Plain (VStr (CommandType.value c)))
       ts dev fn url)
  = CommandMessage.to_json
      (CommandMessage.mk (CommandMessage.Member c) ts dev fn url) /\
  CommandMessage.from_json
    (CommandMessage.to_json
       (CommandMessage.mk (CommandMessage.Plain (VStr (CommandType.value c)))
          ts dev fn url))
  = Ok (CommandMessage.mk (CommandMessage.Member c) ts dev fn url) /\
  (is_nan_value ts = false ->
   CommandMessage.eqb
     (CommandMessage.mk (CommandMessage.Member c) ts dev fn url)
     (CommandMessage.mk (CommandMessage.Plain (VStr (CommandType.value c)))
        ts dev fn url) = true).
Proof.
  split; [reflexivity|]. split.
  - change (CommandMessage.to_json
              (CommandMessage.mk (CommandMessage.Plain (VStr (CommandType.value c)))
                 ts dev fn url))
      with (CommandMessage.to_json
              (CommandMessage.mk (CommandMessage.Member c) ts dev fn url)).
    now apply command_message_roundtrip.
  - intros Hn.
    pose proof (command_message_eqb_refl _ H Hn) as E.
    unfold CommandMessage.eqb in *. cbn [CommandMessage.command] in *.
    cbn [CommandMessage.command_eqb value_eqb] in *. exact E.
Qed.

(** A stop command written with the string. *)
Lemma plain_command_round_trip_witness :
  CommandMessage.from_json
    (CommandMessage.to_json
       (CommandMessage.mk (CommandMessage.Plain (VStr "STOP_RECORDING"))
          (VFloat (FFinite false [d1; d5] 1)) (VStr "controller") VNone VNone))
  = Ok (CommandMessage.mk (CommandMessage.Member CommandType.STOP_RECORDING)
          (VFloat (FFinite false [d1; d5] 1)) (VStr "controller") VNone VNone).
Proof.
  apply (plain_command_round_trip CommandType.STOP_RECORDING
           (VFloat (FFinite false [d1; d5] 1)) (VStr "controller") VNone VNone).
  reflexivity.
Defined.

(** X15. [to_json] writes a command that is no member's value, and
    [from_json] then refuses the text with [ValueError]: such a message
    can be sent and cannot be received. *)
Theorem unknown_plain_command (v ts dev fn url : value)
  (Hv : is_ok (CommandType.of_value v) = false)
  (Hw : Json.wf v && Json.wf ts && Json.wf dev && Json.wf fn && Json.wf url = true) :
  CommandMessage.from_json
    (CommandMessage.to_json (CommandMessage.mk (CommandMessage.Plain v) ts dev fn url))
  = Raise ValueError.
Proof.
  split_valid Hw.
  unfold CommandMessage.to_json, CommandMessage.from_json.
  cbn [CommandMessage.command CommandMessage.timestamp CommandMessage.deviceId
       CommandMessage.fileName CommandMessage.uploadUrl].
  rewrite loads_dumps by now apply command_message_document_wf.
  cbn [bind subscript lookup String.eqb Ascii.eqb Bool.eqb].
  destruct (CommandType.of_value v) as [c|e] eqn:E; [discriminate Hv|].
  cbn [bind].
  destruct v as [| | | |s| |]; try (injection E as <-; reflexivity).
  unfold CommandType.of_value in E.
  destruct (find _ _); [discriminate E | now injection E as <-].
Qed.

(** A command in lower case. *)
Lemma unknown_plain_command_witness :
  CommandMessage.from_json
    (CommandMessage.to_json
       (CommandMessage.mk (CommandMessage.Plain (VStr "heartbeat"))
          (VFloat (FFinite false [d1; d5] 1)) (VStr "controller") VNone VNone))
  = Raise ValueError.
Proof.
  apply (unknown_plain_command (VStr "heartbeat")
           (VFloat (FFinite false [d1; d5] 1)) (VStr "controller") VNone VNone);
    reflexivity.
Defined.

(** X16. What the six constructors that read the clock build can be
    sent and received: with a clock reading in canonical form, the
    message holds what the annotations say and decodes from its text to
    itself; so does a [start_recording] with a timestamp of its own. *)
Theorem constructors_round_trip (now : pyfloat) (Hnow : float_ok now = true) :
  let back x :=
    CommandMessage.valid x = true /\
    CommandMessage.from_json (CommandMessage.to_json x) = Ok x in
  (forall d, back (CommandMessage.start_recording now None d)) /\
  (forall t d, float_ok t = true ->
     back (CommandMessage.start_recording now (Some t) d)) /\
  (forall d, back (CommandMessage.stop_recording now d)) /\
  (forall d, back (CommandMessage.device_status now d)) /\
  (forall f d, back (CommandMessage.get_video now f d)) /\
  (forall d, back (CommandMessage.heartbeat now d)) /\
  (forall d, back (CommandMessage.list_files now d)) /\
  (forall f u d, back (CommandMessage.upload_to_cloud now f u d)).
Proof.
  intros back.
  assert (B : forall x, CommandMessage.valid x = true -> back x).
  { intros x Hx. split; [exact Hx | now apply command_message_roundtrip]. }
  repeat match goal with |- _ /\ _ => split end;
    intros; apply B; unfold CommandMessage.valid; simpl;
    try (now rewrite Hnow).
  unfold CommandMessage.py_or. simpl.
  destruct (float_truthy t); simpl;
    repeat (apply andb_true_intro; split); auto.
Qed.

(** An upload command built at 1729000000.5. *)
Lemma constructors_round_trip_witness :
  CommandMessage.from_json
    (CommandMessage.to_json
       (CommandMessage.upload_to_cloud
          (FFinite false [d1; d7; d2; d9; d0; d0; d0; d0; d0; d0; d5] 10)
          "a.mp4" "https://x/a" "controller"))
  = Ok (CommandMessage.upload_to_cloud
          (FFinite false [d1; d7; d2; d9; d0; d0; d0; d0; d0; d0; d5] 10)
          "a.mp4" "https://x/a" "controller").
Proof.
  apply (constructors_round_trip
           (FFinite false [d1; d7; d2; d9; d0; d0; d0; d0; d0; d0; d5] 10) eq_refl).
Defined.

(** ** The bytes of a command *)

Lemma escape_char_ascii (c : ascii) : forallb is_ascii7 (Json.escape_char c) = true.
Proof. destruct c as [[] [] [] [] [] [] [] []]; reflexivity. Qed.

Lemma escape_ascii (s : string) : forallb is_ascii7 (Json.escape s) = true.
Proof.
  induction s as [|c s IH]; [reflexivity|].
  simpl Json.escape. now rewrite forallb_app, escape_char_ascii, IH.
Qed.

Lemma emit_string_ascii (s : string) : forallb is_ascii7 (Json.emit_string s) = true.
Proof.
  unfold Json.emit_string. cbn [forallb].
  now rewrite forallb_app, escape_ascii.
Qed.

Lemma emit_digits_ascii (ds : list digit) :
  forallb is_ascii7 (Json.emit_digits ds) = true.
Proof.
  induction ds as [|d ds IH]; [reflexivity|].
  cbn [Json.emit_digits map forallb]. fold (Json.emit_digits ds). rewrite IH.
  now destruct d.
Qed.

Lemma emit_int_ascii (z : Z) : forallb is_ascii7 (Json.emit_int z) = true.
Proof.
  unfold Json.emit_int. destruct (Z.to_int z); cbn [forallb];
    now rewrite emit_digits_ascii.
Qed.

Lemma emit_exponent_ascii (x : Z) : forallb is_ascii7 (Json.emit_exponent x) = true.
Proof.
  unfold Json.emit_exponent. cbn [forallb]. rewrite emit_digits_ascii.
  now destruct (x <? 0)%Z.
Qed.

Lemma float_digits_ascii (ds : list digit) (e : Z) :
  forallb is_ascii7 (Json.float_digits ds e) = true.
Proof.
  unfold Json.float_digits. destruct ds as [|d tl]; [reflexivity|].
  destruct ((e <=? -4) || (16 <? e))%Z.
  - cbn [forallb]. rewrite forallb_app, emit_exponent_ascii.
    destruct tl; cbn [forallb]; rewrite ?emit_digits_ascii; now destruct d.
  - destruct (e <=? 0)%Z.
    + cbn [forallb]. now rewrite emit_digits_ascii.
    + destruct (e <? Z.of_nat (List.length (d :: tl)))%Z;
        rewrite forallb_app; cbn [forallb]; now rewrite !emit_digits_ascii.
Qed.

Lemma floatstr_ascii (f : pyfloat) : forallb is_ascii7 (Json.floatstr f) = true.
Proof.
  destruct f as [neg ds e|neg|]; [|now destruct neg|reflexivity].
  unfold Json.floatstr, Json.float_repr.
  rewrite forallb_app, float_digits_ascii. now destruct neg.
Qed.

Lemma join_ascii (parts : list (list ascii)) :
  forallb (forallb is_ascii7) parts = true ->
  forallb is_ascii7 (Json.join Json.separator parts) = true.
Proof.
  induction parts as [|p parts IH]; [reflexivity|].
  cbn [forallb]. intros H. apply andb_prop in H. destruct H as [Hp Hr].
  destruct parts as [|q parts]; [exact Hp|].
  change (Json.join Json.separator (p :: q :: parts))
    with (p ++ Json.separator ++ Json.join Json.separator (q :: parts)).
  now rewrite !forallb_app, Hp, (IH Hr).
Qed.

Lemma emit_ascii (v : value) : forallb is_ascii7 (Json.emit v) = true.
Proof.
  induction v as [|b|z|f|s|l IH|d IH] using value_ind'.
  - reflexivity.
  - now destruct b.
  - apply emit_int_ascii.
  - apply floatstr_ascii.
  - apply emit_string_ascii.
  - change (Json.emit (VList l))
      with ("["%char
              :: Json.join Json.separator (map Json.emit l)
              ++ ["]"%char]).
    cbn [forallb]. rewrite forallb_app, join_ascii; [reflexivity|].
    induction IH as [|x l Hx Hl IHl]; [reflexivity|].
    cbn [map forallb]. now rewrite Hx, IHl.
  - change (Json.emit (VDict d))
      with ("{"%char
              :: Json.join Json.separator (map Json.emit_member d)
              ++ ["}"%char]).
    cbn [forallb]. rewrite forallb_app, join_ascii; [reflexivity|].
    induction IH as [|x d Hx Hd IHd]; [reflexivity|].
    cbn [map forallb]. rewrite IHd. unfold Json.emit_member.
    now rewrite !forallb_app, emit_string_ascii, Hx.
Qed.

Lemma encode_utf8_ascii (l : list ascii) :
  forallb is_ascii7 l = true ->
  encode_utf8 (string_of_list_ascii l) = map byte_of_ascii l.
Proof.
  induction l as [|c l IH]; [reflexivity|].
  cbn [forallb]. intros H. apply andb_prop in H. destruct H as [Hc Hl].
  cbn [string_of_list_ascii encode_utf8 map]. rewrite (IH Hl).
  unfold encode_char. unfold is_ascii7 in Hc. now rewrite Hc.
Qed.

Lemma is_byte7_of_ascii (c : ascii) : is_byte7 (byte_of_ascii c) = is_ascii7 c.
Proof.
  unfold is_byte7, is_ascii7, N_of_byte. now rewrite ascii_of_byte_of_ascii.
Qed.

Lemma forallb_bytes_of_ascii (l : list ascii) :
  forallb is_byte7 (map byte_of_ascii l) = forallb is_ascii7 l.
Proof.
  induction l as [|c l IH]; [reflexivity|].
  cbn [map forallb]. now rewrite is_byte7_of_ascii, IH.
Qed.

(** X17. The bytes of a command are plain ASCII: [to_json] escapes
    every character outside it, so [to_bytes] has one byte below 128
    for each character of the text, and the bytes decode to the text. *)
Theorem to_bytes_ascii (x : CommandMessage.t) :
  forallb is_byte7 (CommandMessage.to_bytes x) = true /\
  List.length (CommandMessage.to_bytes x)
  = String.length (CommandMessage.to_json x) /\
  decode_utf8 (CommandMessage.to_bytes x) = Some (CommandMessage.to_json x).
Proof.
  unfold CommandMessage.to_bytes. split; [|split].
  - unfold CommandMessage.to_json, Json.dumps.
    rewrite encode_utf8_ascii by apply emit_ascii.
    rewrite forallb_bytes_of_ascii. apply emit_ascii.
  - unfold CommandMessage.to_json, Json.dumps.
    rewrite encode_utf8_ascii by apply emit_ascii.
    rewrite length_map.
    generalize (Json.emit
      (VDict
         [("command",
           match CommandMessage.command x with
           | CommandMessage.Member c => VStr (CommandType.value c)
           | CommandMessage.Plain v => v
           end); ("timestamp", CommandMessage.timestamp x);
          ("deviceId", CommandMessage.deviceId x);
          ("fileName", CommandMessage.fileName x);
          ("uploadUrl", CommandMessage.uploadUrl x)])).
    intros l. induction l as [|c l IH]; [reflexivity|].
    cbn [string_of_list_ascii String.length List.length]. now rewrite IH.
  - apply decode_utf8_encode_utf8.
Qed.
(** ** What [json.loads] returns is well formed *)

Lemma strip_leading_head_nonzero (l : list digit) (e : Z) :
  match fst (Json.strip_leading l e) with
  | [] => True
  | d :: _ => is_d0 d = false
  end.
Proof.
  revert e. induction l as [|d l IH]; intros e; [exact I|].
  destruct d; try reflexivity. apply IH.
Qed.

Lemma drop_zeros_snoc (l : list digit) (d : digit) :
  Json.drop_zeros (l ++ [d])
  = match Json.drop_zeros l with
    | [] => if is_d0 d then [] else [d]
    | x :: r => (x :: r) ++ [d]
    end.
Proof.
  induction l as [|a l IH]; [now destruct d|].
  destruct a; try reflexivity. exact IH.
Qed.

Lemma strip_trailing_cons (d : digit) (tl : list digit) :
  Json.strip_trailing (d :: tl)
  = match Json.strip_trailing tl with
    | [] => if is_d0 d then [] else [d]
    | t => d :: t
    end.
Proof.
  unfold Json.strip_trailing. cbn [List.rev]. rewrite drop_zeros_snoc.
  destruct (Json.drop_zeros (List.rev tl)) as [|x r].
  - now destruct (is_d0 d).
  - rewrite rev_app_distr. cbn [List.rev List.app].
    destruct (List.rev r ++ [x]) eqn:E; [|reflexivity].
    now destruct (List.rev r).
Qed.

Lemma strip_trailing_last (l : list digit) :
  match Json.strip_trailing l with
  | [] => True
  | x :: r => is_d0 (last r x) = false
  end.
Proof.
  induction l as [|d l IH]; [exact I|].
  rewrite strip_trailing_cons.
  destruct (Json.strip_trailing l) as [|x r].
  - destruct (is_d0 d) eqn:E; [exact I | exact E].
  - destruct r as [|y r]; [exact IH|].
    change (is_d0 (last (y :: r) d) = false).
    now rewrite (last_default r y d x).
Qed.

Lemma float_of_literal_ok (neg : bool) (ip fr : list digit) (ex : Z) :
  float_ok (Json.float_of_literal neg ip fr ex) = true.
Proof.
  unfold Json.float_of_literal.
  pose proof (strip_leading_head_nonzero (ip ++ fr)
                (Z.of_nat (List.length ip) + ex)) as Hh.
  destruct (Json.strip_leading (ip ++ fr) (Z.of_nat (List.length ip) + ex))
    as [ds e]. cbn [fst] in Hh.
  pose proof (strip_trailing_last ds) as Hl.
  destruct ds as [|d tl]; [reflexivity|].
  rewrite strip_trailing_cons in Hl |- *.
  destruct (Json.strip_trailing tl) as [|x r].
  - rewrite Hh in Hl |- *. cbn [float_ok last]. now rewrite Hh.
  - cbn [float_ok]. now rewrite Hh, Hl.
Qed.

Lemma scan_magnitude_wf (neg : bool) (s r : list ascii) (v : value) :
  Json.scan_magnitude neg s = Some (v, r) -> Json.wf v = true.
Proof.
  unfold Json.scan_magnitude.
  destruct (Json.scan_int s) as [[ip s2]|]; [|discriminate].
  destruct (Json.scan_frac s2) as [fr s3].
  destruct (Json.scan_exp s3) as [ex s4].
  destruct fr, ex; intros H; injection H as <- _;
    (reflexivity || apply float_of_literal_ok).
Qed.

Local Arguments Json.scan_magnitude : simpl never.
Local Arguments Json.strip_prefix : simpl never.

Lemma scan_number_wf (s r : list ascii) (v : value) :
  Json.scan_number s = Some (v, r) -> Json.wf v = true.
Proof.
  destruct s as [|c s]; [apply scan_magnitude_wf|].
  destruct c as [[] [] [] [] [] [] [] []]; apply scan_magnitude_wf.
Qed.

Local Arguments Json.scan_number : simpl never.

Lemma scan_constant_wf (s r : list ascii) (v : value) :
  Json.scan_constant s = Some (v, r) -> Json.wf v = true.
Proof.
  destruct s as [|c s]; [apply scan_number_wf|].
  destruct c as [[] [] [] [] [] [] [] []]; simpl;
    try apply scan_number_wf;
    match goal with
    | |- context [Json.strip_prefix ?p ?t] =>
        destruct (Json.strip_prefix p t); simpl;
        try discriminate; try apply scan_number_wf;
        intros H; injection H as <- _; reflexivity
    end.
Qed.

Lemma distinct_snoc (l : list string) (k : string) :
  Json.distinct (l ++ [k]) = Json.distinct l && negb (mem k l).
Proof.
  induction l as [|a l IH]; [reflexivity|].
  cbn [List.app Json.distinct]. rewrite IH, mem_app.
  change (mem a [k]) with (String.eqb a k || false).
  change (mem k (a :: l)) with (String.eqb k a || mem k l).
  rewrite (String.eqb_sym k a).
  destruct (mem a l), (String.eqb a k), (Json.distinct l), (mem k l); reflexivity.
Qed.

Lemma dict_set_keys (k : string) (v : value) (d : list (string * value)) :
  map fst (Json.dict_set k v d)
  = if mem k (map fst d) then map fst d else map fst d ++ [k].
Proof.
  induction d as [|[k' v'] d IH]; [reflexivity|].
  cbn [Json.dict_set map fst mem existsb].
  destruct (String.eqb k k') eqn:E.
  - apply String.eqb_eq in E. now subst.
  - cbn [map fst orb]. rewrite IH. fold (mem k (map fst d)).
    now destruct (mem k (map fst d)).
Qed.

Lemma dict_set_wf (k : string) (v : value) (d : list (string * value)) :
  Json.wf v = true -> Json.wf (VDict d) = true ->
  Json.wf (VDict (Json.dict_set k v d)) = true.
Proof.
  intros Hv Hd. cbn [Json.wf] in *. apply andb_prop in Hd. destruct Hd as [Hk Hw].
  apply andb_true_intro. split.
  - rewrite dict_set_keys. destruct (mem k (map fst d)) eqn:E; [exact Hk|].
    now rewrite distinct_snoc, Hk, E.
  - clear Hk. induction d as [|[k' v'] d IH]; cbn [Json.dict_set forallb snd].
    + now rewrite Hv.
    + cbn [forallb snd] in Hw. apply andb_prop in Hw. destruct Hw as [Hv' Hw].
      destruct (String.eqb k k'); cbn [forallb snd].
      * now rewrite Hv, Hw.
      * now rewrite Hv', (IH Hw).
Qed.

Lemma dict_of_pairs_wf (ps : list (string * value)) :
  forallb (fun kv => Json.wf (snd kv)) ps = true ->
  Json.wf (VDict (Json.dict_of_pairs ps)) = true.
Proof.
  unfold Json.dict_of_pairs.
  assert (G : forall acc, Json.wf (VDict acc) = true ->
              forallb (fun kv => Json.wf (snd kv)) ps = true ->
              Json.wf (VDict (fold_left
                 (fun d kv => Json.dict_set (fst kv) (snd kv) d) ps acc)) = true).
  { induction ps as [|[k v] ps IH]; intros acc Ha Hp; [exact Ha|].
    cbn [forallb snd] in Hp. apply andb_prop in Hp. destruct Hp as [Hv Hp].
    cbn [fold_left fst snd]. apply IH; [now apply dict_set_wf | exact Hp]. }
  now apply G.
Qed.
Local Arguments Json.scan_constant : simpl never.
Local Arguments Json.scan_string : simpl never.
Local Arguments Json.skip_ws : simpl never.
Local Arguments Json.dict_of_pairs : simpl never.
Local Arguments Json.wf : simpl never.

Ltac head_match H :=
  repeat match type of H with
         | (match ?x with _ => _ end) = _ => destruct x eqn:?
         end.

Lemma parse_wf (fuel : nat) :
  (forall s v r, Json.parse_value fuel s = Some (v, r) -> Json.wf v = true) /\
  (forall s vs r, Json.parse_elements fuel s = Some (vs, r) ->
     forallb Json.wf vs = true) /\
  (forall s ps r, Json.parse_members fuel s = Some (ps, r) ->
     forallb (fun kv => Json.wf (snd kv)) ps = true).
Proof.
  induction fuel as [|fuel [IHv [IHe IHm]]].
  - repeat split; intros; discriminate.
  - split; [|split].
    + intros s v r H. simpl in H. head_match H; try discriminate H;
        first [ eapply scan_constant_wf; exact H
              | injection H as <- _;
                first [ reflexivity
                      | apply dict_of_pairs_wf; eapply IHm; eassumption
                      | eapply IHe; eassumption ] ].
    + intros s vs r H. simpl in H. head_match H; try discriminate H;
        injection H as <- _; cbn [forallb];
        repeat match goal with
               | E : Json.parse_value fuel _ = Some _ |- _ =>
                   apply IHv in E; rewrite E
               | E : Json.parse_elements fuel _ = Some _ |- _ =>
                   apply IHe in E; rewrite E
               end; reflexivity.
    + intros s ps r H. simpl in H. head_match H; try discriminate H;
        injection H as <- _; cbn [forallb snd];
        repeat match goal with
               | E : Json.parse_value fuel _ = Some _ |- _ =>
                   apply IHv in E; rewrite E
               | E : Json.parse_members fuel _ = Some _ |- _ =>
                   apply IHm in E; rewrite E
               end; reflexivity.
Qed.

Lemma loads_wf (s : string) (v : value) : Json.loads s = Ok v -> Json.wf v = true.
Proof.
  unfold Json.loads.
  destruct (Json.parse_value _ _) as [[w r]|] eqn:E; [|discriminate].
  destruct (Json.skip_ws r); [|discriminate].
  intros H. injection H as <-. eapply (proj1 (parse_wf _)). exact E.
Qed.

Lemma lookup_wf (k : string) (d : list (string * value)) (v : value) :
  Json.wf (VDict d) = true -> lookup k d = Some v -> Json.wf v = true.
Proof.
  unfold Json.wf at 1. fold Json.wf. intros H. apply andb_prop in H.
  destruct H as [_ H]. induction d as [|[k' v'] d IH]; [discriminate|].
  cbn [forallb snd] in H. apply andb_prop in H. destruct H as [Hv Hd].
  cbn [lookup]. destruct (String.eqb k k').
  - intros E. now injection E as <-.
  - now apply IH.
Qed.

Lemma lookup_default_wf (k : string) (d : list (string * value)) (v : value) :
  Json.wf (VDict d) = true -> Json.wf v = true ->
  Json.wf (lookup_default k d v) = true.
Proof.
  intros Hd Hv. unfold lookup_default.
  destruct (lookup k d) as [w|] eqn:E; [now apply (lookup_wf k d) | exact Hv].
Qed.

End Further.

(** ** Decoding, encoding and decoding again *)

Section Reencoding.

Local Open Scope list_scope.

Lemma command_message_roundtrip_wf (c : CommandType.t) (ts dev fn url : value) :
  Json.wf ts = true -> Json.wf dev = true -> Json.wf fn = true ->
  Json.wf url = true ->
  CommandMessage.from_json
    (CommandMessage.to_json (CommandMessage.mk (CommandMessage.Member c) ts dev fn url))
  = Ok (CommandMessage.mk (CommandMessage.Member c) ts dev fn url).
Proof.
  intros Ht Hd Hf Hu. unfold CommandMessage.from_json, CommandMessage.to_json.
  cbn [CommandMessage.command CommandMessage.timestamp CommandMessage.deviceId
       CommandMessage.fileName CommandMessage.uploadUrl].
  rewrite loads_dumps by now apply command_message_document_wf.
  destruct c; reflexivity.
Qed.

Lemma stop_recording_response_roundtrip_wf (x : StopRecordingResponse.t) :
  Json.wf (StopRecordingResponse.asdict x) = true ->
  StopRecordingResponse.from_json (StopRecordingResponse.to_json x) = Ok x.
Proof.
  intros H. unfold StopRecordingResponse.from_json, StopRecordingResponse.to_json.
  rewrite (loads_dumps _ H). now destruct x.
Qed.

Lemma error_response_roundtrip_wf (x : ErrorResponse.t) :
  Json.wf (ErrorResponse.asdict x) = true ->
  ErrorResponse.from_json (ErrorResponse.to_json x) = Ok x.
Proof.
  intros H. unfold ErrorResponse.from_json, ErrorResponse.to_json.
  rewrite (loads_dumps _ H). now destruct x.
Qed.

Lemma file_response_roundtrip_wf (x : FileResponse.t) :
  Json.wf (FileResponse.asdict x) = true ->
  FileResponse.from_json (FileResponse.to_json x) = Ok x.
Proof.
  intros H. unfold FileResponse.from_json, FileResponse.to_json.
  rewrite (loads_dumps _ H). now destruct x.
Qed.

(** The document of a decoder that has returned: an object. *)
Lemma decoded_object {A : Type} (json_str : string)
  (k : value -> result A) (m : A) :
  (forall v, is_dict v = false -> k v = Raise TypeError \/ k v = Raise AttributeError) ->
  (data <- Json.loads json_str ;; k data) = Ok m ->
  exists d, Json.loads json_str = Ok (VDict d) /\ Json.wf (VDict d) = true /\
            k (VDict d) = Ok m.
Proof.
  intros Hk H. destruct (Json.loads json_str) as [v|e] eqn:L; [|discriminate H].
  cbn [bind] in H. pose proof (loads_wf _ _ L) as W.
  destruct v as [|b|z|f|s|l|d];
    match type of L with
    | _ = Ok ?w =>
        try (destruct (Hk w eq_refl) as [E | E]; rewrite E in H; discriminate H)
    end.
  exists d. auto.
Qed.

Ltac take_fields H d :=
  repeat match type of H with
         | context [lookup ?k d] =>
             let E := fresh "E" in
             destruct (lookup k d) eqn:E; cbn [bind] in H;
             [|discriminate H]
         end.

Ltac fields_wf W :=
  simpl;
  repeat match goal with
         | E : lookup ?k ?d = Some ?v |- context [Json.wf ?v] =>
             rewrite (lookup_wf k d v W E)
         end;
  reflexivity.

(** X18. A text that decodes decodes the same after it is written
    again: for [CommandMessage], [StopRecordingResponse],
    [ErrorResponse] and [FileResponse], whatever [from_json] returns
    for a text, of whatever types its fields are, goes through
    [to_json] and [from_json] unchanged. *)
Theorem decoded_message_round_trip (json_str : string) :
  (forall m, CommandMessage.from_json json_str = Ok m ->
     CommandMessage.from_json (CommandMessage.to_json m) = Ok m) /\
  (forall m, StopRecordingResponse.from_json json_str = Ok m ->
     StopRecordingResponse.from_json (StopRecordingResponse.to_json m) = Ok m) /\
  (forall m, ErrorResponse.from_json json_str = Ok m ->
     ErrorResponse.from_json (ErrorResponse.to_json m) = Ok m) /\
  (forall m, FileResponse.from_json json_str = Ok m ->
     FileResponse.from_json (FileResponse.to_json m) = Ok m).
Proof.
  split; [|split; [|split]]; intros m H.
  - apply decoded_object in H;
      [|intros v Hv; left; destruct v; (discriminate Hv || reflexivity)].
    destruct H as [d [L [W H]]].
    cbn [bind subscript dict_get] in H.
    destruct (lookup "command" d) as [raw|]; [|discriminate H]. cbn [bind] in H.
    destruct (CommandType.of_value raw) as [c|e]; [|discriminate H].
    cbn [bind] in H.
    destruct (lookup "timestamp" d) as [t|] eqn:Et; [|discriminate H].
    cbn [bind] in H. injection H as <-.
    apply command_message_roundtrip_wf;
      [ now apply (lookup_wf "timestamp" d)
      | now apply lookup_default_wf
      | now apply lookup_default_wf
      | now apply lookup_default_wf ].
  - apply decoded_object in H;
      [|intros v Hv; left; destruct v; (discriminate Hv || reflexivity)].
    destruct H as [d [L [W H]]]. cbn [bind subscript] in H.
    take_fields H d. injection H as <-.
    apply stop_recording_response_roundtrip_wf.
    unfold StopRecordingResponse.asdict. fields_wf W.
  - apply decoded_object in H;
      [|intros v Hv; left; destruct v; (discriminate Hv || reflexivity)].
    destruct H as [d [L [W H]]]. cbn [bind subscript] in H.
    take_fields H d. injection H as <-.
    apply error_response_roundtrip_wf.
    unfold ErrorResponse.asdict. fields_wf W.
  - apply decoded_object in H;
      [|intros v Hv; left; destruct v; (discriminate Hv || reflexivity)].
    destruct H as [d [L [W H]]]. cbn [bind subscript] in H.
    take_fields H d. injection H as <-.
    apply file_response_roundtrip_wf.
    unfold FileResponse.asdict. fields_wf W.
Qed.

(** A command with a timestamp that is a string and a file name that
    is a number: it decodes, and decodes again after [to_json]. *)
Lemma decoded_message_round_trip_witness :
  CommandMessage.from_json
    (CommandMessage.to_json
       (CommandMessage.mk (CommandMessage.Member CommandType.GET_VIDEO)
          (VStr "soon") (VStr "controller") (VInt 7) VNone))
  = Ok (CommandMessage.mk (CommandMessage.Member CommandType.GET_VIDEO)
          (VStr "soon") (VStr "controller") (VInt 7) VNone).
Proof.
  apply (proj1 (decoded_message_round_trip
           (Json.quoted "{'command': 'GET_VIDEO', 'timestamp': 'soon', 'fileName': 7}"))).
  reflexivity.
Defined.

(** *** Queues and file lists *)

Lemma iterate_wf (raw : value) (items : list value) :
  Json.wf raw = true -> iterate raw = Ok items -> forallb Json.wf items = true.
Proof.
  intros W H. destruct raw as [|b|z|f|s|l|d]; try discriminate H;
    injection H as <-.
  - clear W. induction (list_ascii_of_string s) as [|c r IH]; [reflexivity|exact IH].
  - exact W.
  - clear W. induction d as [|kv d IH]; [reflexivity|exact IH].
Qed.

Lemma mapM_wf {A : Type} (from_dict : value -> result A) (asdict : A -> value)
  (items : list value) (l : list A) :
  (forall v x, Json.wf v = true -> from_dict v = Ok x -> Json.wf (asdict x) = true) ->
  forallb Json.wf items = true -> mapM from_dict items = Ok l ->
  forallb Json.wf (map asdict l) = true.
Proof.
  intros Hx. revert l. induction items as [|v items IH]; intros l W H.
  - injection H as <-. reflexivity.
  - cbn [forallb] in W. apply andb_prop in W. destruct W as [Wv Wi].
    cbn [mapM] in H. destruct (from_dict v) as [x|e] eqn:Ex; [|discriminate H].
    destruct (mapM from_dict items) as [xs|e]; [|discriminate H].
    injection H as <-. cbn [map forallb].
    now rewrite (Hx v x Wv Ex), (IH xs Wi eq_refl).
Qed.

Lemma upload_item_from_dict_wf (v : value) (x : UploadItem.t) :
  Json.wf v = true -> UploadItem.from_dict v = Ok x ->
  Json.wf (UploadItem.asdict x) = true.
Proof.
  intros W H. destruct v as [|b|z|f|s|l|d]; try discriminate H.
  unfold UploadItem.from_dict in H. cbn [bind subscript dict_get] in H.
  take_fields H d. injection H as <-.
  pose proof (lookup_default_wf "error" d VNone W eq_refl) as We.
  unfold UploadItem.asdict. simpl. rewrite We.
  repeat match goal with
         | E : lookup ?k d = Some ?v |- context [Json.wf ?v] =>
             rewrite (lookup_wf k d v W E)
         end.
  reflexivity.
Qed.

Lemma file_metadata_from_dict_wf (v : value) (x : FileMetadata.t) :
  Json.wf v = true -> FileMetadata.from_dict v = Ok x ->
  Json.wf (FileMetadata.asdict x) = true.
Proof.
  intros W H. destruct v as [|b|z|f|s|l|d]; try discriminate H.
  unfold FileMetadata.from_dict in H. cbn [bind subscript] in H.
  take_fields H d. injection H as <-.
  unfold FileMetadata.asdict. fields_wf W.
Qed.

Lemma upload_items_wf (d : list (string * value)) (key : string)
  (l : list UploadItem.t) :
  Json.wf (VDict d) = true -> StatusResponse.upload_items (VDict d) key = Ok l ->
  forallb Json.wf (map UploadItem.asdict l) = true.
Proof.
  intros W H. unfold StatusResponse.upload_items in H. cbn [bind dict_get] in H.
  pose proof (lookup_default_wf key d (VList []) W eq_refl) as Wr.
  destruct (iterate (lookup_default key d (VList []))) as [items|e] eqn:Ei;
    [|discriminate H].
  cbn [bind] in H.
  exact (mapM_wf _ _ _ _ upload_item_from_dict_wf (iterate_wf _ _ Wr Ei) H).
Qed.

Lemma status_response_roundtrip_wf (dev st ts bl : value)
  (uq fq : list UploadItem.t) :
  Json.wf dev = true -> Json.wf st = true -> Json.wf ts = true ->
  Json.wf bl = true ->
  forallb Json.wf (map UploadItem.asdict uq) = true ->
  forallb Json.wf (map UploadItem.asdict fq) = true ->
  StatusResponse.from_json (StatusResponse.to_json (StatusResponse.mk dev st ts bl uq fq))
  = Ok (StatusResponse.mk dev st ts bl uq fq).
Proof.
  intros Hd Hs Ht Hb Hu Hf.
  unfold StatusResponse.from_json, StatusResponse.to_json.
  cbn [StatusResponse.deviceId StatusResponse.status StatusResponse.timestamp
       StatusResponse.batteryLevel StatusResponse.uploadQueue
       StatusResponse.failedUploadQueue].
  rewrite loads_dumps.
  - unfold StatusResponse.upload_items. simpl.
    rewrite !(mapM_map _ _ _ upload_item_from_asdict). reflexivity.
  - simpl. now rewrite Hd, Hs, Ht, Hb, Hu, Hf.
Qed.

Lemma list_files_response_roundtrip_wf (dev st ts : value)
  (fs : list FileMetadata.t) :
  Json.wf dev = true -> Json.wf st = true -> Json.wf ts = true ->
  forallb Json.wf (map FileMetadata.asdict fs) = true ->
  ListFilesResponse.from_json (ListFilesResponse.to_json (ListFilesResponse.mk dev st ts fs))
  = Ok (ListFilesResponse.mk dev st ts fs).
Proof.
  intros Hd Hs Ht Hf.
  unfold ListFilesResponse.from_json, ListFilesResponse.to_json.
  cbn [ListFilesResponse.deviceId ListFilesResponse.status
       ListFilesResponse.timestamp ListFilesResponse.files].
  rewrite loads_dumps.
  - simpl. rewrite (mapM_map _ _ _ file_metadata_from_asdict). reflexivity.
  - simpl. now rewrite Hd, Hs, Ht, Hf.
Qed.

(** X19. The responses that carry lists decode the same after they are
    written again: whatever [StatusResponse.from_json] or
    [ListFilesResponse.from_json] returns for a text, with the queue
    items and file entries it has built from the text, goes through
    [to_json] and [from_json] unchanged. *)
Theorem decoded_lists_round_trip (json_str : string) :
  (forall m, StatusResponse.from_json json_str = Ok m ->
     StatusResponse.from_json (StatusResponse.to_json m) = Ok m) /\
  (forall m, ListFilesResponse.from_json json_str = Ok m ->
     ListFilesResponse.from_json (ListFilesResponse.to_json m) = Ok m).
Proof.
  split; intros m H.
  - apply decoded_object in H;
      [|intros v Hv; right; destruct v; (discriminate Hv || reflexivity)].
    destruct H as [d [L [W H]]].
    destruct (StatusResponse.upload_items (VDict d) "uploadQueue")
      as [uq|e] eqn:Eu; [|discriminate H].
    cbn [bind] in H.
    destruct (StatusResponse.upload_items (VDict d) "failedUploadQueue")
      as [fq|e] eqn:Ef; [|discriminate H].
    cbn [bind subscript dict_get] in H.
    take_fields H d. injection H as <-.
    apply status_response_roundtrip_wf;
      first [ eapply lookup_wf; eassumption
            | now apply lookup_default_wf
            | eapply upload_items_wf; eassumption ].
  - apply decoded_object in H;
      [|intros v Hv; right; destruct v; (discriminate Hv || reflexivity)].
    destruct H as [d [L [W H]]]. cbn [bind dict_get] in H.
    pose proof (lookup_default_wf "files" d (VList []) W eq_refl) as Wr.
    destruct (iterate (lookup_default "files" d (VList []))) as [items|e] eqn:Ei;
      [|discriminate H].
    cbn [bind] in H.
    destruct (mapM FileMetadata.from_dict items) as [fs|e] eqn:Em;
      [|discriminate H].
    cbn [bind subscript] in H.
    take_fields H d. injection H as <-.
    apply list_files_response_roundtrip_wf;
      first [ eapply lookup_wf; eassumption
            | exact (mapM_wf _ _ _ _ file_metadata_from_dict_wf
                       (iterate_wf _ _ Wr Ei) Em) ].
Qed.

(** A listing whose one entry has a size that is a string. *)
Lemma decoded_lists_round_trip_witness :
  ListFilesResponse.from_json
    (ListFilesResponse.to_json
       (ListFilesResponse.mk (VStr "cam") (VStr "ready") (VInt 5)
          [FileMetadata.mk (VStr "a.mov") (VStr "big") (VInt 1) (VInt 2)]))
  = Ok (ListFilesResponse.mk (VStr "cam") (VStr "ready") (VInt 5)
          [FileMetadata.mk (VStr "a.mov") (VStr "big") (VInt 1) (VInt 2)]).
Proof.
  apply (proj2 (decoded_lists_round_trip
    (Json.quoted "{'deviceId': 'cam', 'status': 'ready', 'timestamp': 5, 'files': [{'fileName': 'a.mov', 'fileSize': 'big', 'creationDate': 1, 'modificationDate': 2}]}"))).
  reflexivity.
Defined.

End Reencoding.
